(** * The asset layer of electrum/asset.py, embedded and verified

    The development follows the layout of the Python module:
    - [Py]           the Python built-ins the module relies on (str, bytes,
                     exceptions, slicing, UTF-8, hex, decimal printing);
    - [Re]           the fragment of Python's [re] used by the name grammar;
    - [Bitcoin], [Util], [Transaction], [Hashlib]
                     the collaborators imported by asset.py;
    - [Asset]        asset.py itself: name validator, script encoder, script
                     decoder, [AssetMetadata], vout information classes and
                     [BooleanExprAST].

    A Python [str] is a list of code points ([N]); [bytes] is a list of
    [byte]; a Python [int] is a [Z].  A call that can raise returns a
    [result]. *)

From Stdlib Require Import ZArith NArith List String Ascii Bool Lia.
From Stdlib.Strings Require Import Byte.
From Stdlib Require Import DecimalString.
From stdpp Require Import base option list gmap.
Import ListNotations.
Open Scope Z_scope.

(* ================================================================= *)
(** ** Python built-ins *)

Module Py.

Abbreviation str := (list N).
Abbreviation bytes := (list byte).

(** A [str] literal and a [bytes] literal. *)
Definition str_of (s : string) : str :=
  List.map N_of_ascii (list_ascii_of_string s).
Definition bytes_of (s : string) : bytes := list_byte_of_string s.

(** The exceptions that can escape from the modelled code.
    [RecursionError] is what the interpreter raises when the call stack
    is exhausted; the model raises it when the recursion budget given to
    a recursive function is used up. *)
Inductive exn :=
| IndexError
| TypeError
| ValueError (msg : str)
| OverflowError
| AttributeError
| AssertionError
| StopIteration
| RecursionError
| UnicodeDecodeError
| UnicodeEncodeError
| MalformedBitcoinScript
| AssetException (msg : str)
| Exception (msg : str).

Inductive result (A : Type) :=
| Ok (a : A)
| Raise (e : exn).
Arguments Ok {A} a.
Arguments Raise {A} e.

#[global] Instance result_ret : MRet result := fun A a => Ok a.
#[global] Instance result_bind : MBind result :=
  fun A B f m => match m with Ok a => f a | Raise e => Raise e end.

(** Control flow of a loop body: fall through to the next iteration, or
    leave the enclosing function with a value. *)
Inductive ctl (S R : Type) :=
| Next (s : S)
| Return (r : R).
Arguments Next {S R} s.
Arguments Return {S R} r.

(** [b[i]] on bytes and [int] conversions of a byte. *)
Definition b2z (b : byte) : Z := Z.of_N (Byte.to_N b).
Definition z2b (z : Z) : byte :=
  match Byte.of_N (Z.to_N (z mod 256)) with
  | Some b => b
  | None => x00
  end.

#[global] Instance byte_eq_dec : EqDecision byte := Byte.byte_eq_dec.

(** [s[a:b]] for [0 <= a], [0 <= b]. *)
Definition slice {A} (s : list A) (a b : nat) : list A :=
  take (b - a) (drop a s).

(** [s[:-1]]. *)
Definition but_last {A} (s : list A) : list A := take (length s - 1) s.

(** [s[-1]], an [IndexError] on the empty sequence. *)
Definition last_item {A} (s : list A) : result A :=
  match last s with
  | Some x => Ok x
  | None => Raise IndexError
  end.

(** [l.pop()] on a non-empty list: the last item and the shortened list. *)
Definition pop {A} (l : list A) : option (A * list A) :=
  match last l with
  | Some x => Some (x, take (length l - 1) l)
  | None => None
  end.

(** [s.split(d)] for a one-character delimiter. *)
Fixpoint split (d : N) (s : str) : list str :=
  match s with
  | [] => [[]]
  | c :: s' =>
      if N.eqb c d then [] :: split d s'
      else match split d s' with
           | p :: ps => (c :: p) :: ps
           | [] => [[c]]
           end
  end.

(** [d in s] for a one-character [d]. *)
Definition contains (d : N) (s : str) : bool := existsb (N.eqb d) s.

(** [s.replace(d, '')] for a one-character [d]. *)
Definition remove_char (d : N) (s : str) : str :=
  List.filter (fun c => negb (N.eqb c d)) s.

(** [hay.find(needle)] on bytes: the first index, or -1. *)
Fixpoint is_prefix (needle hay : bytes) : bool :=
  match needle, hay with
  | [], _ => true
  | _ :: _, [] => false
  | x :: needle', y :: hay' => Byte.eqb x y && is_prefix needle' hay'
  end.

Fixpoint find_from (needle hay : bytes) (i : Z) : Z :=
  if is_prefix needle hay then i
  else match hay with
       | [] => -1
       | _ :: hay' => find_from needle hay' (i + 1)
       end.

Definition find (hay needle : bytes) : Z := find_from needle hay 0.

(** [int.from_bytes(b, 'little')]. *)
Fixpoint int_from_bytes_little (b : bytes) : Z :=
  match b with
  | [] => 0
  | x :: b' => b2z x + 256 * int_from_bytes_little b'
  end.

(** [i.to_bytes(n, 'little')] for [0 <= i < 256^n]. *)
Fixpoint int_to_bytes_little (n : nat) (i : Z) : bytes :=
  match n with
  | O => []
  | S n' => z2b i :: int_to_bytes_little n' (i / 256)
  end.

(** *** UTF-8: [str.encode()] and [bytes.decode()] *)

Definition encode_char (c : N) : option bytes :=
  let z := Z.of_N c in
  if z <? 128 then Some [z2b z]
  else if z <? 2048 then
    Some [z2b (192 + z / 64); z2b (128 + z mod 64)]
  else if z <? 65536 then
    if (55296 <=? z) && (z <=? 57343) then None
    else Some [z2b (224 + z / 4096); z2b (128 + (z / 64) mod 64);
               z2b (128 + z mod 64)]
  else if z <? 1114112 then
    Some [z2b (240 + z / 262144); z2b (128 + (z / 4096) mod 64);
          z2b (128 + (z / 64) mod 64); z2b (128 + z mod 64)]
  else None.

Fixpoint encode (s : str) : result bytes :=
  match s with
  | [] => Ok []
  | c :: s' =>
      match encode_char c with
      | Some b => bs ← encode s'; mret (b ++ bs)
      | None => Raise UnicodeEncodeError
      end
  end.

(** A continuation byte 10xxxxxx. *)
Definition is_cont (b : byte) : bool := (128 <=? b2z b) && (b2z b <? 192).

(** One well-formed UTF-8 sequence at the head of [b]: the code point
    and how many bytes it takes.  Over-long forms, surrogates and code
    points above U+10FFFF are rejected, as by the strict codec. *)
Definition decode_char (b : bytes) : option (N * nat) :=
  match b with
  | [] => None
  | b0 :: t =>
      let z0 := b2z b0 in
      if z0 <? 128 then Some (Z.to_N z0, 1%nat)
      else if z0 <? 194 then None
      else if z0 <? 224 then
        match t with
        | b1 :: _ =>
            if is_cont b1
            then Some (Z.to_N ((z0 - 192) * 64 + (b2z b1 - 128)), 2%nat)
            else None
        | _ => None
        end
      else if z0 <? 240 then
        match t with
        | b1 :: b2 :: _ =>
            let c := (z0 - 224) * 4096 + (b2z b1 - 128) * 64
                     + (b2z b2 - 128) in
            if is_cont b1 && is_cont b2 && (2048 <=? c)
               && negb ((55296 <=? c) && (c <=? 57343))
            then Some (Z.to_N c, 3%nat)
            else None
        | _ => None
        end
      else if z0 <? 245 then
        match t with
        | b1 :: b2 :: b3 :: _ =>
            let c := (z0 - 240) * 262144 + (b2z b1 - 128) * 4096
                     + (b2z b2 - 128) * 64 + (b2z b3 - 128) in
            if is_cont b1 && is_cont b2 && is_cont b3
               && (65536 <=? c) && (c <? 1114112)
            then Some (Z.to_N c, 4%nat)
            else None
        | _ => None
        end
      else None
  end.

Fixpoint decode_fuel (fuel : nat) (b : bytes) : result str :=
  match b with
  | [] => Ok []
  | _ :: _ =>
      match fuel with
      | O => Raise RecursionError
      | S fuel' =>
          match decode_char b with
          | Some (c, n) => s ← decode_fuel fuel' (drop n b); mret (c :: s)
          | None => Raise UnicodeDecodeError
          end
      end
  end.

(** [b.decode()]; every sequence takes at least one byte, so a budget of
    [length b] steps is never used up. *)
Definition decode (b : bytes) : result str := decode_fuel (length b) b.

(** *** Hexadecimal: [bytes.hex()] and [bytes.fromhex()] *)

Definition hex_digit (z : Z) : N :=
  if z <? 10 then Z.to_N (48 + z) else Z.to_N (87 + z).

Definition hex_byte (b : byte) : str :=
  [hex_digit (b2z b / 16); hex_digit (b2z b mod 16)].

Definition hex (b : bytes) : str := List.concat (List.map hex_byte b).

Definition hex_value (c : N) : option Z :=
  let z := Z.of_N c in
  if (48 <=? z) && (z <=? 57) then Some (z - 48)
  else if (97 <=? z) && (z <=? 102) then Some (z - 87)
  else if (65 <=? z) && (z <=? 70) then Some (z - 55)
  else None.

(** ASCII whitespace, skipped between bytes by [bytes.fromhex]. *)
Definition is_space (c : N) : bool :=
  let z := Z.of_N c in
  (z =? 32) || ((9 <=? z) && (z <=? 13)).

Fixpoint fromhex_fuel (fuel : nat) (s : str) : result bytes :=
  match fuel with
  | O => Raise RecursionError
  | S fuel' =>
      match s with
      | [] => Ok []
      | c :: s' =>
          if is_space c then fromhex_fuel fuel' s'
          else match s' with
               | [] => Raise (ValueError (str_of "non-hexadecimal number found in fromhex() arg"))
               | c' :: s'' =>
                   match hex_value c, hex_value c' with
                   | Some h, Some l =>
                       bs ← fromhex_fuel fuel' s''; mret (z2b (16 * h + l) :: bs)
                   | _, _ => Raise (ValueError (str_of "non-hexadecimal number found in fromhex() arg"))
                   end
               end
      end
  end.

(** [bytes.fromhex(s)]; every step consumes a character. *)
Definition fromhex (s : str) : result bytes := fromhex_fuel (S (length s)) s.

(** *** [str(i)] and [str(b)] *)

Definition str_of_int (i : Z) : str :=
  str_of (NilZero.string_of_int (Z.to_int i)).

Definition str_of_bool (b : bool) : str :=
  if b then str_of "True" else str_of "False".

(** [s.encode('ascii')]. *)
Fixpoint encode_ascii (s : str) : result bytes :=
  match s with
  | [] => Ok []
  | c :: s' =>
      if (c <? 128)%N then bs ← encode_ascii s'; mret (z2b (Z.of_N c) :: bs)
      else Raise UnicodeEncodeError
  end.

(** Truth value of an [Optional[str]] and of an [Optional[bytes]]: [None]
    and the empty sequence are false. *)
Definition truthy {A} (o : option (list A)) : bool :=
  match o with
  | Some (_ :: _) => true
  | _ => false
  end.

End Py.
Export Py.

(* ================================================================= *)
(** ** The regular expressions of the name grammar *)

Module Re.

(** Patterns are built from character classes, concatenation, alternation
    and iteration; [Void] matches nothing and is only produced by
    derivatives. *)
Inductive regex :=
| Void
| Eps
| Cls (p : N -> bool)
| Cat (r1 r2 : regex)
| Alt (r1 r2 : regex)
| Star (r : regex).

Fixpoint nullable (r : regex) : bool :=
  match r with
  | Void => false
  | Eps => true
  | Cls _ => false
  | Cat r1 r2 => nullable r1 && nullable r2
  | Alt r1 r2 => nullable r1 || nullable r2
  | Star _ => true
  end.

Fixpoint deriv (c : N) (r : regex) : regex :=
  match r with
  | Void => Void
  | Eps => Void
  | Cls p => if p c then Eps else Void
  | Cat r1 r2 =>
      if nullable r1 then Alt (Cat (deriv c r1) r2) (deriv c r2)
      else Cat (deriv c r1) r2
  | Alt r1 r2 => Alt (deriv c r1) (deriv c r2)
  | Star r1 => Cat (deriv c r1) (Star r1)
  end.

Fixpoint matches (r : regex) (s : str) : bool :=
  match s with
  | [] => nullable r
  | c :: s' => matches (deriv c r) s'
  end.

(** The words of a pattern. *)
Inductive lang : regex -> str -> Prop :=
| lang_eps : lang Eps []
| lang_cls p c : p c = true -> lang (Cls p) [c]
| lang_cat r1 r2 s1 s2 :
    lang r1 s1 -> lang r2 s2 -> lang (Cat r1 r2) (s1 ++ s2)
| lang_alt_l r1 r2 s : lang r1 s -> lang (Alt r1 r2) s
| lang_alt_r r1 r2 s : lang r2 s -> lang (Alt r1 r2) s
| lang_star_nil r : lang (Star r) []
| lang_star_app r s1 s2 :
    lang r s1 -> lang (Star r) s2 -> lang (Star r) (s1 ++ s2).

(** Character classes. *)
Definition chr (a : ascii) : N -> bool := N.eqb (N_of_ascii a).
Definition range (lo hi : ascii) : N -> bool :=
  fun c => (N_of_ascii lo <=? c)%N && (c <=? N_of_ascii hi)%N.
Definition one_of (s : string) : N -> bool :=
  fun c => existsb (N.eqb c) (str_of s).
Definition union (p q : N -> bool) : N -> bool := fun c => p c || q c.
Definition none_of (s : string) : N -> bool := fun c => negb (one_of s c).

(** [x+], [x{2,}], [x{3,}], a literal word, [.] and a final [$]. *)
Definition Plus (r : regex) : regex := Cat r (Star r).
Definition AtLeast2 (r : regex) : regex := Cat r (Cat r (Star r)).
Definition AtLeast3 (r : regex) : regex := Cat r (Cat r (Cat r (Star r))).
Fixpoint Lit (s : str) : regex :=
  match s with
  | [] => Eps
  | c :: s' => Cat (Cls (N.eqb c)) (Lit s')
  end.
Definition Dot : regex := Cls (fun c => negb (N.eqb c 10)).
Definition Dollar : regex := Alt Eps (Cls (N.eqb 10)).

(** [re.match(pattern, s)] as a truth value.  Every pattern of the module
    starts matching at the beginning of [s] (which is all a leading [^]
    asks) and every alternative ends in [$], which holds at the end of [s]
    and just before a newline that ends [s]; so the pattern matches when
    its body, followed by an optional final newline, spells the whole
    of [s]. *)
Definition re_match (pattern : regex) (s : str) : bool := matches pattern s.

End Re.
Export Re.

(* ================================================================= *)
(** ** electrum/bitcoin.py: script assembly helpers *)

Module Bitcoin.

(** Modelled from the spec: the base unit scale [COIN] of bitcoin.py
    (section 3, "21,000,000,000 x base-unit scale"): 10^8 base units to the
    coin. *)
Definition COIN : Z := 100000000.

(** Modelled from the spec: the opcode table [opcodes] of bitcoin.py
    (section 6: marker opcode, filler/reserved opcode, drop, push
    prefixes).  The drop opcode is the byte 0x75 that the decoder compares
    with. *)
Module opcodes.
Definition OP_0 : Z := 0.
Definition OP_PUSHDATA1 : Z := 76.
Definition OP_PUSHDATA2 : Z := 77.
Definition OP_PUSHDATA4 : Z := 78.
Definition OP_1NEGATE : Z := 79.
Definition OP_RESERVED : Z := 80.
Definition OP_1 : Z := 81.
Definition OP_DROP : Z := 117.
Definition OP_ASSET : Z := 192.
(** [op.hex()]. *)
Definition hex (op : Z) : str := Py.hex [z2b op].
End opcodes.

(** Modelled from the spec: [int_to_hex(i, length)] of bitcoin.py
    (section 6 (d), "little-endian hex/int helpers"): the little-endian hex
    form of [i] on [length] bytes, in two's complement when negative, an
    [OverflowError] when [i] does not fit. *)
Definition int_to_hex (i : Z) (length : nat) : result str :=
  let range_size := 256 ^ Z.of_nat length in
  if (i <? - (range_size / 2)) || (range_size <=? i) then Raise OverflowError
  else
    let i := if i <? 0 then range_size + i else i in
    Ok (Py.hex (int_to_bytes_little length i)).

(** Modelled from the spec: [_op_push(i)] of bitcoin.py (section 2,
    "computing push-size prefixes"): the prefix that pushes [i] bytes. *)
Definition _op_push (i : Z) : result str :=
  if i <? opcodes.OP_PUSHDATA1 then int_to_hex i 1
  else if i <=? 255 then
    h ← int_to_hex i 1; mret (opcodes.hex opcodes.OP_PUSHDATA1 ++ h)
  else if i <=? 65535 then
    h ← int_to_hex i 2; mret (opcodes.hex opcodes.OP_PUSHDATA2 ++ h)
  else
    h ← int_to_hex i 4; mret (opcodes.hex opcodes.OP_PUSHDATA4 ++ h).

(** Modelled from the spec: [push_script(data)] of bitcoin.py (section
    4.2 (3), "a single length-prefixed push operand"): hex in, hex out,
    with the one-opcode forms for the small integers. *)
Definition push_script (data : str) : result str :=
  data ← fromhex data;
  let data_len := Z.of_nat (length data) in
  match data with
  | [] => Ok (opcodes.hex opcodes.OP_0)
  | [b] =>
      if b2z b =? 0 then Ok (opcodes.hex opcodes.OP_0)
      else if b2z b <=? 16 then Ok (Py.hex [z2b (opcodes.OP_1 - 1 + b2z b)])
      else if b2z b =? 129 then Ok (opcodes.hex opcodes.OP_1NEGATE)
      else p ← _op_push data_len; mret (p ++ Py.hex data)
  | _ => p ← _op_push data_len; mret (p ++ Py.hex data)
  end.

(** An item given to [construct_script]: an opcode or a hex string. *)
Inductive script_item :=
| Op (op : Z)
| Hex (s : str).

Definition is_hex_str (text : str) : bool :=
  match fromhex text with
  | Ok b => (length text =? 2 * length b)%nat
  | Raise _ => false
  end.

(** Modelled from the spec: [construct_script(items)] of bitcoin.py
    (section 6 (b)): "assembles an opcode/operand list into final script
    bytes, including push-length prefixing". *)
Fixpoint construct_script (items : list script_item) : result str :=
  match items with
  | [] => Ok []
  | Op op :: items' =>
      rest ← construct_script items'; mret (opcodes.hex op ++ rest)
  | Hex s :: items' =>
      if is_hex_str s then
        p ← push_script s; rest ← construct_script items'; mret (p ++ rest)
      else Raise AssertionError
  end.

(** Modelled from the spec: [base_encode(v, base=58)] of bitcoin.py
    (section 6 (d), "a 58-alphabet byte<->text codec"): the big-endian
    number spelled by [v] in base 58, one leading '1' for each leading
    zero byte. *)
Definition b58chars : str :=
  str_of "123456789ABCDEFGHJKLMNPQRSTUVWXYZabcdefghijkmnopqrstuvwxyz".

Definition b58char (d : Z) : N := nth (Z.to_nat d) b58chars 0%N.

Fixpoint int_from_bytes_big (acc : Z) (v : bytes) : Z :=
  match v with
  | [] => acc
  | c :: v' => int_from_bytes_big (256 * acc + b2z c) v'
  end.

(** The digits of [long_value], least significant first. *)
Fixpoint b58_digits (fuel : nat) (long_value : Z) : str :=
  match fuel with
  | O => []
  | S fuel' =>
      if 58 <=? long_value
      then b58char (long_value mod 58) :: b58_digits fuel' (long_value / 58)
      else [b58char long_value]
  end.

Fixpoint leading_zeros (v : bytes) : nat :=
  match v with
  | c :: v' => if b2z c =? 0 then S (leading_zeros v') else O
  | [] => O
  end.

Definition base_encode (v : bytes) : str :=
  let long_value := int_from_bytes_big 0 v in
  let result := b58_digits (S (2 * length v)) long_value in
  rev (result ++ repeat (b58char 0) (leading_zeros v)).

End Bitcoin.
Export Bitcoin.

(* ================================================================= *)
(** ** electrum/util.py: ByteReader *)

Module Util.

(** Modelled from the spec: the class [ByteReader] of util.py, a cursor
    over a byte string (section 4.3: "running out of expected bytes
    mid-structure is reported as no asset information", which the decoder
    does by catching [IndexError]).  [data] is [None] when the reader was
    built over a missing operand. *)
Record ByteReader := mkByteReader {
  data : option bytes;
  cursor : nat
}.

Definition new (data : option bytes) : ByteReader := mkByteReader data 0.

Definition can_read_amount (self : ByteReader) (amount : nat) : result bool :=
  match data self with
  | None => Raise TypeError
  | Some d => Ok (cursor self + amount <=? length d)%nat
  end.

Definition read_bytes (self : ByteReader) (length : nat)
  : result (bytes * ByteReader) :=
  match data self with
  | None => Raise TypeError
  | Some d =>
      if (cursor self + length <=? List.length d)%nat
      then Ok (slice d (cursor self) (cursor self + length),
               mkByteReader (Some d) (cursor self + length))
      else Raise IndexError
  end.

Definition read_byte_as_int (self : ByteReader) : result (Z * ByteReader) :=
  match data self with
  | None => Raise TypeError
  | Some d =>
      match d !! cursor self with
      | Some b => Ok (b2z b, mkByteReader (Some d) (S (cursor self)))
      | None => Raise IndexError
      end
  end.

End Util.

(* ================================================================= *)
(** ** electrum/transaction.py: the script disassembler *)

Module Transaction.
Import Bitcoin.opcodes.

(** One disassembled operation: (opcode, push-data, byte-offset); the
    offset is the position after the operation. *)
Definition script_op : Type := Z * option bytes * nat.

(** Modelled from the spec: one turn of the generator [script_GetOp] of
    transaction.py (section 6 (c)): "a script disassembler yielding ordered
    (opcode, push-data, offset) triples and signaling a distinguishable
    malformed condition".  A push whose length prefix is cut off is
    malformed; a push whose data is cut off yields the bytes that are
    there. *)
Definition script_GetOp_step (_bytes : bytes) (i : nat) : result script_op :=
  match _bytes !! i with
  | None => Raise IndexError
  | Some b =>
      let opcode := b2z b in
      let i := S i in
      if opcode <=? OP_PUSHDATA4 then
        '(nSize, i) ←
          (if opcode =? OP_PUSHDATA1 then
             match _bytes !! i with
             | Some n => Ok (Z.to_nat (b2z n), i + 1)%nat
             | None => Raise MalformedBitcoinScript
             end
           else if opcode =? OP_PUSHDATA2 then
             if (i + 2 <=? length _bytes)%nat
             then Ok (Z.to_nat (int_from_bytes_little (slice _bytes i (i + 2))),
                      i + 2)%nat
             else Raise MalformedBitcoinScript
           else if opcode =? OP_PUSHDATA4 then
             if (i + 4 <=? length _bytes)%nat
             then Ok (Z.to_nat (int_from_bytes_little (slice _bytes i (i + 4))),
                      i + 4)%nat
             else Raise MalformedBitcoinScript
           else Ok (Z.to_nat opcode, i));
        Ok (opcode, Some (slice _bytes i (i + nSize)), (i + nSize)%nat)
      else Ok (opcode, None, i)
  end.

(** The generator run to its end from offset [i]. *)
Fixpoint script_GetOp_from (fuel : nat) (_bytes : bytes) (i : nat)
  : result (list script_op) :=
  if (i <? length _bytes)%nat then
    match fuel with
    | O => Raise RecursionError
    | S fuel' =>
        op ← script_GetOp_step _bytes i;
        rest ← script_GetOp_from fuel' _bytes (snd op);
        mret (op :: rest)
    end
  else Ok [].

(** [[x for x in script_GetOp(script)]]; each turn moves the offset
    forward, so [length script] turns are not used up. *)
Definition script_GetOp (_bytes : bytes) : result (list script_op) :=
  script_GetOp_from (length _bytes) _bytes 0.

(** [next(script_GetOp(data))], on an operand that may be [None]. *)
Definition script_GetOp_next (_bytes : option bytes) : result script_op :=
  match _bytes with
  | None => Raise TypeError
  | Some b =>
      if (0 <? length b)%nat then script_GetOp_step b 0
      else Raise StopIteration
  end.

End Transaction.

(* ================================================================= *)
(** ** hashlib: SHA-256 (FIPS 180-4) *)

Module Hashlib.

Definition w32 (x : Z) : Z := x mod 4294967296.
Definition rotr (n x : Z) : Z :=
  Z.lor (Z.shiftr x n) (w32 (Z.shiftl x (32 - n))).
Definition Ch (x y z : Z) : Z :=
  Z.lxor (Z.land x y) (Z.land (Z.lxor x 4294967295) z).
Definition Maj (x y z : Z) : Z :=
  Z.lxor (Z.lxor (Z.land x y) (Z.land x z)) (Z.land y z).
Definition Sigma0 (x : Z) : Z :=
  Z.lxor (Z.lxor (rotr 2 x) (rotr 13 x)) (rotr 22 x).
Definition Sigma1 (x : Z) : Z :=
  Z.lxor (Z.lxor (rotr 6 x) (rotr 11 x)) (rotr 25 x).
Definition sigma0 (x : Z) : Z :=
  Z.lxor (Z.lxor (rotr 7 x) (rotr 18 x)) (Z.shiftr x 3).
Definition sigma1 (x : Z) : Z :=
  Z.lxor (Z.lxor (rotr 17 x) (rotr 19 x)) (Z.shiftr x 10).

(** The first 64 prime numbers. *)
Definition is_prime (n : Z) : bool :=
  (1 <? n)
  && forallb (fun d => negb (n mod d =? 0))
       (List.map Z.of_nat (seq 2 (Z.to_nat n - 2))).
Definition primes64 : list Z :=
  Eval vm_compute in List.filter is_prime (List.map Z.of_nat (seq 2 310)).

(** The integer cube root below [2 ^ n], bit by bit. *)
Fixpoint cube_root (n : nat) (x r : Z) : Z :=
  match n with
  | O => r
  | S n' =>
      let r' := r + 2 ^ Z.of_nat n' in
      if r' * r' * r' <=? x then cube_root n' x r' else cube_root n' x r
  end.

(** The round constants: the first 32 bits of the fractional parts of the
    cube roots of the first 64 primes; the initial hash value: the same
    for the square roots of the first 8 primes. *)
Definition K : list Z :=
  Eval vm_compute in
    List.map (fun p => w32 (cube_root 40 (p * 2 ^ 96) 0)) primes64.

Definition H0 : list Z :=
  Eval vm_compute in
    List.map (fun p => w32 (Z.sqrt (p * 2 ^ 64))) (take 8 primes64).

(** Big-endian words of a block and bytes of a word. *)
Fixpoint int_from_bytes_big (acc : Z) (v : bytes) : Z :=
  match v with
  | [] => acc
  | c :: v' => int_from_bytes_big (256 * acc + b2z c) v'
  end.

Definition int_to_bytes_big (n : nat) (x : Z) : bytes :=
  rev (int_to_bytes_little n x).

Fixpoint chunks (fuel n : nat) (b : bytes) : list bytes :=
  match fuel with
  | O => []
  | S fuel' =>
      match b with
      | [] => []
      | _ => take n b :: chunks fuel' n (drop n b)
      end
  end.

(** The message followed by 0x80, zeros up to 56 modulo 64, and its
    length in bits on 8 bytes. *)
Definition pad (m : bytes) : bytes :=
  let l := Z.of_nat (length m) in
  let k := Z.to_nat ((55 - l) mod 64) in
  m ++ [x80] ++ repeat x00 k ++ int_to_bytes_big 8 (8 * l).

(** The message schedule, most recent word first. *)
Fixpoint schedule (n : nat) (ws : list Z) : list Z :=
  match n with
  | O => ws
  | S n' =>
      let w := w32 (sigma1 (nth 1 ws 0) + nth 6 ws 0
                    + sigma0 (nth 14 ws 0) + nth 15 ws 0) in
      schedule n' (w :: ws)
  end.

Definition round (st : list Z) (kw : Z * Z) : list Z :=
  match st with
  | [a; b; c; d; e; f; g; h] =>
      let t1 := h + Sigma1 e + Ch e f g + fst kw + snd kw in
      let t2 := Sigma0 a + Maj a b c in
      [w32 (t1 + t2); a; b; c; w32 (d + t1); e; f; g]
  | _ => st
  end.

Definition compress (h : list Z) (block : bytes) : list Z :=
  let w16 := List.map (int_from_bytes_big 0) (chunks 16 4 block) in
  let ws := rev (schedule 48 (rev w16)) in
  let st := fold_left round (combine K ws) h in
  List.map (fun p => w32 (fst p + snd p)) (combine h st).

(** [hashlib.sha256(m).digest()]. *)
Definition sha256 (m : bytes) : bytes :=
  let blocks := chunks (S (length m)) 64 (pad m) in
  List.concat (List.map (int_to_bytes_big 4) (fold_left compress blocks H0)).

End Hashlib.

(* ================================================================= *)
(** ** electrum/asset.py *)

Module Asset.

(** The translation function [_] of i18n.py, with no catalogue loaded. *)
Definition gettext (s : str) : str := s.

Definition MAX_NAME_LENGTH : Z := 32.
Definition MAX_CHANNEL_NAME_LENGTH : Z := 12.
Definition MIN_ASSET_LENGTH : Z := 3.
Definition MAX_VERIFIER_STING_LENGTH : Z := 75.

Definition DEFAULT_ASSET_AMOUNT_MAX : Z := 21000000000.
Definition UNIQUE_ASSET_AMOUNT_MAX : Z := 1.
Definition QUALIFIER_ASSET_AMOUNT_MAX : Z := 10.

Definition RVN_ASSET_PREFIX : bytes := bytes_of "rvn".
Definition RVN_ASSET_TYPE_CREATE : bytes := bytes_of "q".
Definition RVN_ASSET_TYPE_OWNER : bytes := bytes_of "o".
Definition RVN_ASSET_TYPE_TRANSFER : bytes := bytes_of "t".
Definition RVN_ASSET_TYPE_REISSUE : bytes := bytes_of "r".

Definition ASSET_OWNER_IDENTIFIER : N := N_of_ascii "!".

(** *** The patterns *)

(** [[A-Z0-9._]] *)
Definition name_class : N -> bool :=
  union (range "A" "Z") (union (range "0" "9") (one_of "._")).
(** [[-A-Za-z0-9@$%&*()[\]{}_.?:]] *)
Definition unique_tag_class : N -> bool :=
  union (chr "-") (union (range "A" "Z") (union (range "a" "z")
    (union (range "0" "9") (one_of "@$%&*()[]{}_.?:")))).
(** [[A-Za-z0-9_]] *)
Definition channel_class : N -> bool :=
  union (range "A" "Z") (union (range "a" "z")
    (union (range "0" "9") (chr "_"))).
(** [[._]] *)
Definition punctuation : N -> bool := one_of "._".

(** [^[A-Z0-9._]{3,}$] *)
Definition _ROOT_NAME_CHARACTERS : regex :=
  Cat (AtLeast3 (Cls name_class)) Dollar.
(** [^[A-Z0-9._]+$] *)
Definition _SUB_NAME_CHARACTERS : regex :=
  Cat (Plus (Cls name_class)) Dollar.
(** [^[-A-Za-z0-9@$%&*()[\]{}_.?:]+$] *)
Definition _UNIQUE_TAG_CHARACTERS : regex :=
  Cat (Plus (Cls unique_tag_class)) Dollar.
(** [^[A-Za-z0-9_]+$] *)
Definition _MSG_CHANNEL_TAG_CHARACTERS : regex :=
  Cat (Plus (Cls channel_class)) Dollar.
(** [#[A-Z0-9._]{3,}$] *)
Definition _QUALIFIER_NAME_CHARACTERS : regex :=
  Cat (Cls (chr "#")) (Cat (AtLeast3 (Cls name_class)) Dollar).
(** [#[A-Z0-9._]+$] *)
Definition _SUB_QUALIFIER_NAME_CHARACTERS : regex :=
  Cat (Cls (chr "#")) (Cat (Plus (Cls name_class)) Dollar).
(** [\$[A-Z0-9._]{3,}$] *)
Definition _RESTRICTED_NAME_CHARACTERS : regex :=
  Cat (Cls (chr "$")) (Cat (AtLeast3 (Cls name_class)) Dollar).

(** [^.*[._]{2,}.*$] *)
Definition _DOUBLE_PUNCTUATION : regex :=
  Cat (Star Dot) (Cat (AtLeast2 (Cls punctuation)) (Cat (Star Dot) Dollar)).
(** [^[._].*$] *)
Definition _LEADING_PUNCTUATION : regex :=
  Cat (Cls punctuation) (Cat (Star Dot) Dollar).
(** [^.*[._]$] *)
Definition _TRAILING_PUNCTUATION : regex :=
  Cat (Star Dot) (Cat (Cls punctuation) Dollar).
(** [^[#\$][._].*$] *)
Definition _QUALIFIER_LEADING_PUNCTUATION : regex :=
  Cat (Cls (one_of "#$")) (Cat (Cls punctuation) (Cat (Star Dot) Dollar)).

Definition _SUB_NAME_DELIMITER : N := N_of_ascii "/".
Definition _UNIQUE_TAG_DELIMITER : N := N_of_ascii "#".
Definition _MSG_CHANNEL_DELIMITER : N := N_of_ascii "~".
Definition _RESTRICTED_TAG_DELIMITER : N := N_of_ascii "$".
Definition _QUALIFIER_TAG_DELIMITER : N := N_of_ascii "#".

(** [(^[^^~#!]+#[^~#!\/]+$)] *)
Definition _UNIQUE_INDICATOR : regex :=
  Cat (Plus (Cls (none_of "^~#!")))
    (Cat (Cls (chr "#")) (Cat (Plus (Cls (none_of "~#!/"))) Dollar)).
(** [(^[^^~#!]+~[^~#!\/]+$)] *)
Definition _MSG_CHANNEL_INDICATOR : regex :=
  Cat (Plus (Cls (none_of "^~#!")))
    (Cat (Cls (chr "~")) (Cat (Plus (Cls (none_of "~#!/"))) Dollar)).
(** [(^[^^~#!]+!$)] *)
Definition _OWNER_INDICATOR : regex :=
  Cat (Plus (Cls (none_of "^~#!"))) (Cat (Cls (chr "!")) Dollar).
(** [^[#][A-Z0-9._]{3,}$] *)
Definition _QUALIFIER_INDICATOR : regex :=
  Cat (Cls (chr "#")) (Cat (AtLeast3 (Cls name_class)) Dollar).
(** [^#[A-Z0-9._]+\/#[A-Z0-9._]+$] *)
Definition _SUB_QUALIFIER_INDICATOR : regex :=
  Cat (Cls (chr "#")) (Cat (Plus (Cls name_class))
    (Cat (Cls (chr "/")) (Cat (Cls (chr "#"))
      (Cat (Plus (Cls name_class)) Dollar)))).
(** [^[\$][A-Z0-9._]{3,}$] *)
Definition _RESTRICTED_INDICATOR : regex :=
  Cat (Cls (chr "$")) (Cat (AtLeast3 (Cls name_class)) Dollar).

(** [^RVN$|^RAVEN$|^RAVENCOIN$|^RVNS$|^RAVENS$|^RAVENCOINS$|^#RVN$|^#RAVEN$|^#RAVENCOIN$|^#RVNS$|^#RAVENS$|^#RAVENCOINS$] *)
Definition bad_name (s : string) : regex := Cat (Lit (str_of s)) Dollar.
Definition _BAD_NAMES : regex :=
  Alt (bad_name "RVN") (Alt (bad_name "RAVEN") (Alt (bad_name "RAVENCOIN")
  (Alt (bad_name "RVNS") (Alt (bad_name "RAVENS") (Alt (bad_name "RAVENCOINS")
  (Alt (bad_name "#RVN") (Alt (bad_name "#RAVEN") (Alt (bad_name "#RAVENCOIN")
  (Alt (bad_name "#RVNS") (Alt (bad_name "#RAVENS")
       (bad_name "#RAVENCOINS"))))))))))).

(** *** The name grammar validator *)

Definition _isMatchAny (symbol : str) (badMatches : list regex) : bool :=
  existsb (fun x => re_match x symbol) badMatches.

Definition _isRootNameValid (symbol : str) : bool :=
  re_match _ROOT_NAME_CHARACTERS symbol &&
  negb (_isMatchAny symbol [_DOUBLE_PUNCTUATION; _LEADING_PUNCTUATION;
                            _TRAILING_PUNCTUATION; _BAD_NAMES]).

Definition _isQualifierNameValid (symbol : str) : bool :=
  re_match _QUALIFIER_NAME_CHARACTERS symbol &&
  negb (_isMatchAny symbol [_DOUBLE_PUNCTUATION;
                            _QUALIFIER_LEADING_PUNCTUATION;
                            _TRAILING_PUNCTUATION; _BAD_NAMES]).

Definition _isRestrictedNameValid (symbol : str) : bool :=
  re_match _RESTRICTED_NAME_CHARACTERS symbol &&
  negb (_isMatchAny symbol [_DOUBLE_PUNCTUATION; _LEADING_PUNCTUATION;
                            _TRAILING_PUNCTUATION; _BAD_NAMES]).

Definition _isSubQualifierNameValid (symbol : str) : bool :=
  re_match _SUB_QUALIFIER_NAME_CHARACTERS symbol &&
  negb (_isMatchAny symbol [_DOUBLE_PUNCTUATION; _LEADING_PUNCTUATION;
                            _TRAILING_PUNCTUATION]).

Definition _isSubNameValid (symbol : str) : bool :=
  re_match _SUB_NAME_CHARACTERS symbol &&
  negb (_isMatchAny symbol [_DOUBLE_PUNCTUATION; _LEADING_PUNCTUATION;
                            _TRAILING_PUNCTUATION]).

Definition _isUniqueTagValid (symbol : str) : bool :=
  re_match _UNIQUE_TAG_CHARACTERS symbol.

Definition _isMsgChannelTagValid (symbol : str) : bool :=
  re_match _MSG_CHANNEL_TAG_CHARACTERS symbol &&
  negb (_isMatchAny symbol [_DOUBLE_PUNCTUATION; _LEADING_PUNCTUATION;
                            _TRAILING_PUNCTUATION]).

Definition _isNameValidBeforeTag (symbol : str) : bool :=
  match split _SUB_NAME_DELIMITER symbol with
  | [] => true
  | part0 :: parts => _isRootNameValid part0 && forallb _isSubNameValid parts
  end.

Definition _isQualifierNameValidBeforeTag (symbol : str) : bool :=
  let parts := split _SUB_NAME_DELIMITER symbol in
  if negb (_isQualifierNameValid (hd [] parts)) then false
  else if (2 <? length parts)%nat then false
  else forallb _isSubQualifierNameValid (tl parts).

Definition _isAssetNameASubAsset (asset : str) : bool :=
  let parts := split _SUB_NAME_DELIMITER asset in
  if negb (_isRootNameValid (hd [] parts)) then false
  else (1 <? length parts)%nat.

Definition _isAssetNameASubQualifier (asset : str) : bool :=
  let parts := split _SUB_NAME_DELIMITER asset in
  if negb (_isQualifierNameValid (hd [] parts)) then false
  else (1 <? length parts)%nat.

Inductive AssetType :=
| ROOT | SUB | MSG_CHANNEL | OWNER | UNIQUE | QUALIFIER | SUB_QUALIFIER
| RESTRICTED.

#[global] Instance AssetType_eq_dec : EqDecision AssetType.
Proof. solve_decision. Defined.

Definition len (s : str) : Z := Z.of_nat (length s).

Definition msg_max_length (n : Z) : str :=
  gettext (str_of "Name is greater than max length of "
           ++ str_of_int n ++ str_of ".").
Definition msg_min_length : str :=
  gettext (str_of "Name must contain at least "
           ++ str_of_int MIN_ASSET_LENGTH ++ str_of " characters.").

Definition get_error_for_asset_typed (asset : str) (asset_type : AssetType)
  : option str :=
  if bool_decide (asset_type = SUB)
     && negb (contains _SUB_NAME_DELIMITER asset)
  then Some (gettext (str_of "Not a sub asset."))
  else if bool_decide (asset_type = ROOT)
          && contains _SUB_NAME_DELIMITER asset
  then Some (gettext (str_of "Not a root asset."))
  else if bool_decide (asset_type = ROOT) || bool_decide (asset_type = SUB)
  then
    if MAX_NAME_LENGTH - 1 <? len asset
    then Some (msg_max_length (MAX_NAME_LENGTH - 1))
    else if negb (_isAssetNameASubAsset asset)
            && (len asset <? MIN_ASSET_LENGTH)
    then Some msg_min_length
    else
      let valid := _isNameValidBeforeTag asset in
      if negb valid && _isAssetNameASubAsset asset
         && (len asset <? MIN_ASSET_LENGTH)
      then Some (gettext (str_of "Name must have at least "
             ++ str_of_int MIN_ASSET_LENGTH
             ++ str_of " characters (Valid characters are: A-Z 0-9 _ .)"))
      else if negb valid
      then Some (gettext (str_of "Name contains invalid characters (Valid characters are: A-Z 0-9 _ .) (special characters can't be the first or last characters)"))
      else None
  else
    if MAX_NAME_LENGTH <? len asset
    then Some (msg_max_length MAX_NAME_LENGTH)
    else if bool_decide (asset_type = UNIQUE) then
      let parts := split _UNIQUE_TAG_DELIMITER asset in
      if (length parts =? 1)%nat
      then Some (gettext (str_of "Not a unique tag."))
      else if negb (_isNameValidBeforeTag (hd [] parts))
              || negb (_isUniqueTagValid (List.last parts []))
      then Some (gettext (str_of "Unique name contains invalid characters (Valid characters are: A-Z a-z 0-9 @ $ % & * ( ) [ ] { } _ . ? : -)"))
      else None
    else if bool_decide (asset_type = MSG_CHANNEL) then
      let parts := split _MSG_CHANNEL_DELIMITER asset in
      if (length parts =? 1)%nat
      then Some (gettext (str_of "Not a message channel."))
      else if MAX_CHANNEL_NAME_LENGTH <? len (List.last parts [])
      then Some (gettext (str_of "Channel name is greater than max length of "
             ++ str_of_int MAX_CHANNEL_NAME_LENGTH ++ str_of "."))
      else if negb (_isNameValidBeforeTag (hd [] parts))
              || negb (_isMsgChannelTagValid (List.last parts []))
      then Some (gettext (str_of "Message Channel name contains invalid characters (Valid characters are: A-Z 0-9 _ .) (special characters can't be the first or last characters)"))
      else None
    else if bool_decide (asset_type = OWNER) then
      if negb (_isNameValidBeforeTag (but_last asset))
      then Some (gettext (str_of "Owner name contains invalid characters (Valid characters are: A-Z 0-9 _ .) (special characters can't be the first or last characters)"))
      else None
    else if bool_decide (asset_type = QUALIFIER)
            || bool_decide (asset_type = SUB_QUALIFIER) then
      if bool_decide (asset_type = QUALIFIER)
         && contains _SUB_NAME_DELIMITER asset
      then Some (gettext (str_of "Not a qualifier"))
      else if negb (bool_decide (asset_type = QUALIFIER))
              && negb (contains _SUB_NAME_DELIMITER asset)
      then Some (gettext (str_of "Not a sub qualifier"))
      else if len asset <? 4
      then Some msg_min_length
      else if negb (_isQualifierNameValidBeforeTag asset)
      then Some (gettext (str_of "Qualifier name contains invalid characters (Valid characters are: A-Z 0-9 _ .) (# must be the first character, _ . special characters can't be the first or last characters)"))
      else None
    else if bool_decide (asset_type = RESTRICTED) then
      if negb (_isRestrictedNameValid asset)
      then Some (gettext (str_of "Restricted name contains invalid characters (Valid characters are: A-Z 0-9 _ .) ($ must be the first character, _ . special characters can't be the first or last characters)"))
      else None
    else Some (gettext (str_of "Unknown asset type.")).

Definition get_error_for_asset_name (asset : str) : option str :=
  if 40 <? len asset then Some (gettext (str_of "Asset is too long"))
  else if re_match _UNIQUE_INDICATOR asset
  then get_error_for_asset_typed asset UNIQUE
  else if re_match _MSG_CHANNEL_INDICATOR asset
  then get_error_for_asset_typed asset MSG_CHANNEL
  else if re_match _OWNER_INDICATOR asset
  then get_error_for_asset_typed asset OWNER
  else if re_match _QUALIFIER_INDICATOR asset
  then get_error_for_asset_typed asset QUALIFIER
  else if re_match _SUB_QUALIFIER_INDICATOR asset
  then get_error_for_asset_typed asset SUB_QUALIFIER
  else if re_match _RESTRICTED_INDICATOR asset
  then get_error_for_asset_typed asset RESTRICTED
  else get_error_for_asset_typed asset
         (if _isAssetNameASubAsset asset then SUB else ROOT).

(** *** The script encoder *)

Section Encoder.
(** [address_to_script] of bitcoin.py turns a destination address into
    its base spending script (hex); it is a collaborator of the encoder
    and is taken as given. *)
Variable address_to_script : str -> result str.

Definition flag_hex (b : bool) : str :=
  if b then str_of "01" else str_of "00".

Definition generate_create_script (address asset : str) (amount : Z)
  (divisions : Z) (reissuable : bool) (associated_data : option bytes)
  : result str :=
  if truthy (get_error_for_asset_name asset)
  then Raise (AssetException (str_of "Bad asset"))
  else if negb (0 <? amount) || (DEFAULT_ASSET_AMOUNT_MAX * COIN <? amount)
  then Raise (AssetException (str_of "Bad amount"))
  else if (divisions <? 0) || (8 <? divisions)
  then Raise (AssetException (str_of "Bad divisions"))
  else if truthy associated_data
          && negb (length (default [] associated_data) =? 34)%nat
  then Raise (AssetException (str_of "Bad data"))
  else
    n ← int_to_hex (len asset) 1;
    a ← encode asset;
    amt ← int_to_hex amount 8;
    d ← int_to_hex divisions 1;
    let asset_data :=
      hex RVN_ASSET_PREFIX ++ hex RVN_ASSET_TYPE_CREATE
      ++ n ++ hex a ++ amt ++ d
      ++ flag_hex reissuable ++ flag_hex (truthy associated_data)
      ++ (if truthy associated_data
          then hex (default [] associated_data) else []) in
    asset_script ← construct_script [Op opcodes.OP_ASSET; Hex asset_data; Op opcodes.OP_DROP];
    base_script ← address_to_script address;
    mret (base_script ++ asset_script).

Definition generate_reissue_script (address asset : str) (amount : Z)
  (divisions : Z) (reissuable : bool) (associated_data : option bytes)
  : result str :=
  if truthy (get_error_for_asset_name asset)
  then Raise (AssetException (str_of "Bad asset"))
  else if negb (0 <=? amount) || (DEFAULT_ASSET_AMOUNT_MAX * COIN <? amount)
  then Raise (AssetException (str_of "Bad amount"))
  else if ((divisions <? 0) || (8 <? divisions))
          && negb (divisions =? 255)
  then Raise (AssetException (str_of "Bad divisions"))
  else if truthy associated_data
          && negb (length (default [] associated_data) =? 34)%nat
  then Raise (AssetException (str_of "Bad data"))
  else
    n ← int_to_hex (len asset) 1;
    a ← encode asset;
    amt ← int_to_hex amount 8;
    d ← int_to_hex divisions 1;
    let asset_data :=
      hex RVN_ASSET_PREFIX ++ hex RVN_ASSET_TYPE_REISSUE
      ++ n ++ hex a ++ amt ++ d
      ++ flag_hex reissuable
      ++ (if truthy associated_data
          then hex (default [] associated_data) else []) in
    asset_script ← construct_script [Op opcodes.OP_ASSET; Hex asset_data; Op opcodes.OP_DROP];
    base_script ← address_to_script address;
    mret (base_script ++ asset_script).

Definition generate_owner_script_from_base (asset base_script : str)
  : result str :=
  l ← last_item asset;
  let asset :=
    if negb (N.eqb l ASSET_OWNER_IDENTIFIER)
    then asset ++ [ASSET_OWNER_IDENTIFIER] else asset in
  match get_error_for_asset_name asset with
  | Some ((_ :: _) as error) =>
      Raise (AssetException (str_of "Bad asset: " ++ asset
                             ++ str_of " " ++ error))
  | _ =>
      n ← int_to_hex (len asset) 1;
      a ← encode asset;
      let asset_data :=
        hex RVN_ASSET_PREFIX ++ hex RVN_ASSET_TYPE_OWNER ++ n ++ hex a in
      asset_script ← construct_script [Op opcodes.OP_ASSET; Hex asset_data; Op opcodes.OP_DROP];
      mret (base_script ++ asset_script)
  end.

Definition generate_owner_script (address asset : str) : result str :=
  base_script ← address_to_script address;
  generate_owner_script_from_base asset base_script.

End Encoder.

(** The class [AssetMemo]: 34 bytes of data and an optional timestamp. *)
Record AssetMemo := mkAssetMemo {
  memo_data : bytes;
  memo_timestamp : option Z
}.

Definition AssetMemo_hex (self : AssetMemo) : result str :=
  match memo_timestamp self with
  | Some t =>
      if t =? 0 then Ok (hex (memo_data self))
      else h ← int_to_hex t 8; mret (hex (memo_data self) ++ h)
  | None => Ok (hex (memo_data self))
  end.

Definition _asset_portion_of_transfer_script (asset : str) (amount : Z)
  (memo : option AssetMemo) : result str :=
  n ← int_to_hex (len asset) 1;
  a ← encode asset;
  amt ← int_to_hex amount 8;
  m ← match memo with Some m => AssetMemo_hex m | None => Ok [] end;
  let asset_data :=
    hex RVN_ASSET_PREFIX ++ hex RVN_ASSET_TYPE_TRANSFER
    ++ n ++ hex a ++ amt ++ m in
  construct_script [Op opcodes.OP_ASSET; Hex asset_data; Op opcodes.OP_DROP].

Definition extra_size_for_asset_transfer (asset : str) : result Z :=
  s ← _asset_portion_of_transfer_script asset 0 None;
  mret (len s / 2).

Definition generate_transfer_script_from_base (asset : str) (amount : Z)
  (base_script : str) : result str :=
  s ← _asset_portion_of_transfer_script asset amount None;
  mret (base_script ++ s).

Definition generate_verifier_tag (verifier_string : str) : result str :=
  if negb (len verifier_string <=? MAX_VERIFIER_STING_LENGTH)
  then Raise AssertionError
  else
    n ← int_to_hex (len verifier_string) 1;
    v ← encode verifier_string;
    construct_script [Op opcodes.OP_ASSET; Op opcodes.OP_RESERVED; Hex (n ++ hex v)].

Definition generate_null_tag (asset h160 : str) (flag : bool) : result str :=
  match get_error_for_asset_name asset with
  | Some _ => Raise AssertionError
  | None =>
      if negb (len h160 =? 40) then Raise AssertionError
      else
        n ← int_to_hex (len asset) 1;
        a ← encode asset;
        construct_script [Op opcodes.OP_ASSET; Hex h160;
                          Hex (n ++ hex a ++ flag_hex flag)]
  end.

(** *** AssetMetadata *)

(** [_associated_data_converter] on an input that is [None] or bytes. *)
Definition _associated_data_converter (input : option bytes)
  : result (option bytes) :=
  match input with
  | Some ((_ :: _) as b) =>
      if negb (length b =? 34)%nat
      then Raise (ValueError (str_of "input is not 34 bytes"))
      else Ok (Some b)
  | _ => Ok None
  end.

Definition _validate_sats (value : Z) : result unit :=
  if value <=? 0
  then Raise (ValueError (str_of "sats must be greater than 0!"))
  else Ok tt.

Definition _validate_divisions (value : Z) : result unit :=
  if (value <? 0) || (8 <? value)
  then Raise (ValueError (str_of "divisions must be 0-8!"))
  else Ok tt.

Record AssetMetadata := mkAssetMetadata {
  sats_in_circulation : Z;
  divisions : Z;
  reissuable : bool;
  associated_data : option bytes
}.

(** [AssetMetadata(sats_in_circulation, divisions, reissuable,
    associated_data)]: the converter, then the validators. *)
Definition new_AssetMetadata (sats_in_circulation divisions : Z)
  (reissuable : bool) (associated_data : option bytes)
  : result AssetMetadata :=
  d ← _associated_data_converter associated_data;
  _ ← _validate_sats sats_in_circulation;
  _ ← _validate_divisions divisions;
  mret (mkAssetMetadata sats_in_circulation divisions reissuable d).

Definition associated_data_as_ipfs (self : AssetMetadata) : option str :=
  if negb (truthy (associated_data self)) then None
  else Some (base_encode (default [] (associated_data self))).

(** The string that [status] hashes. *)
Definition status_text (self : AssetMetadata) : result str :=
  let h := List.concat [str_of_int (sats_in_circulation self);
                        str_of_int (divisions self);
                        str_of_bool (reissuable self);
                        str_of_bool (bool_decide (associated_data self <> None))] in
  if bool_decide (associated_data self <> None) then
    match associated_data_as_ipfs self with
    | Some t => Ok (h ++ t)
    | None => Raise TypeError
    end
  else Ok h.

Definition status (self : AssetMetadata) : result str :=
  h ← status_text self;
  b ← encode_ascii h;
  mret (hex (Hashlib.sha256 b)).

(** *** Vout information *)

Module AssetVoutType.
Inductive t :=
| NONE | TRANSFER | CREATE | OWNER | REISSUE | NULL | VERIFIER | FREEZE.
#[global] Instance eq_dec : EqDecision t.
Proof. solve_decision. Defined.
End AssetVoutType.

(** The classes derived from [BaseAssetVoutInformation], one constructor
    for each with the arguments of its [__init__]. *)
Inductive BaseAssetVoutInformation :=
| NoAssetVoutInformation
| MetadataAssetVoutInformation (type_ : AssetVoutType.t) (well_formed : bool)
    (asset : str) (amount : Z) (divisions : Z) (reissuable : bool)
    (associated_data : option bytes)
| OwnerAssetVoutInformation (well_formed : bool) (asset : str)
| TransferAssetVoutInformation (well_formed : bool) (asset : str)
    (amount : Z) (asset_memo : option bytes)
    (asset_memo_timestamp : option Z)
| NullTagAssetVoutInformation (asset : str) (h160 : str) (flag : bool)
| VerifierTagAssetVoutInformation (verifier_string : str)
| FreezeTagAssetVoutInformation (asset : str) (flag : bool).

(** The two fields set by [BaseAssetVoutInformation.__init__], as each
    subclass calls it. *)
Definition get_type (self : BaseAssetVoutInformation) : AssetVoutType.t :=
  match self with
  | NoAssetVoutInformation => AssetVoutType.NONE
  | MetadataAssetVoutInformation type_ _ _ _ _ _ _ => type_
  | OwnerAssetVoutInformation _ _ => AssetVoutType.OWNER
  | TransferAssetVoutInformation _ _ _ _ _ => AssetVoutType.TRANSFER
  | NullTagAssetVoutInformation _ _ _ => AssetVoutType.NULL
  | VerifierTagAssetVoutInformation _ => AssetVoutType.VERIFIER
  | FreezeTagAssetVoutInformation _ _ => AssetVoutType.FREEZE
  end.

Definition well_formed_script (self : BaseAssetVoutInformation) : bool :=
  match self with
  | NoAssetVoutInformation => true
  | MetadataAssetVoutInformation _ well_formed _ _ _ _ _ => well_formed
  | OwnerAssetVoutInformation well_formed _ => well_formed
  | TransferAssetVoutInformation well_formed _ _ _ _ => well_formed
  | NullTagAssetVoutInformation _ _ _ => true
  | VerifierTagAssetVoutInformation _ => true
  | FreezeTagAssetVoutInformation _ _ => true
  end.

Definition type_in (t : AssetVoutType.t) (l : list AssetVoutType.t) : bool :=
  existsb (fun x => bool_decide (t = x)) l.

Definition is_transferable (self : BaseAssetVoutInformation) : bool :=
  type_in (get_type self)
    [AssetVoutType.CREATE; AssetVoutType.OWNER; AssetVoutType.TRANSFER;
     AssetVoutType.REISSUE].

(** [BaseAssetVoutInformation.is_deterministic]. *)
Definition base_is_deterministic (self : BaseAssetVoutInformation) : bool :=
  type_in (get_type self)
    [AssetVoutType.TRANSFER; AssetVoutType.OWNER; AssetVoutType.NONE]
  && well_formed_script self.

(** [is_deterministic] as each class resolves it: overridden by
    [TransferAssetVoutInformation] and by [TagAssetVoutInformation]. *)
Definition is_deterministic (self : BaseAssetVoutInformation) : bool :=
  match self with
  | TransferAssetVoutInformation _ _ _ asset_memo asset_memo_timestamp =>
      bool_decide (asset_memo = None)
      && bool_decide (asset_memo_timestamp = None)
      && base_is_deterministic self
  | NullTagAssetVoutInformation _ _ _
  | VerifierTagAssetVoutInformation _
  | FreezeTagAssetVoutInformation _ _ => true
  | _ => base_is_deterministic self
  end.

Definition is_tag (self : BaseAssetVoutInformation) : bool :=
  match self with
  | NullTagAssetVoutInformation _ _ _
  | VerifierTagAssetVoutInformation _
  | FreezeTagAssetVoutInformation _ _ => true
  | _ => false
  end.

(** *** The script decoder *)

(** How the body of the scanning loop ends. *)
Inductive loop_flow :=
| Continue
| Break
| Ret (v : BaseAssetVoutInformation).

(** [decoded[n]]. *)
Definition item (decoded : list Transaction.script_op) (n : nat)
  : result Transaction.script_op :=
  match decoded !! n with
  | Some x => Ok x
  | None => Raise IndexError
  end.

Definition op_of (x : Transaction.script_op) : Z := fst (fst x).
Definition data_of (x : Transaction.script_op) : option bytes := snd (fst x).

(** [b.decode()] on an operand that may be [None]. *)
Definition decode_opt (b : option bytes) : result str :=
  match b with
  | Some b => decode b
  | None => Raise AttributeError
  end.

(** The branch [i == 0]: a tag script. *)
Definition tag_script (decoded : list Transaction.script_op)
  (asset_portion : bytes) : result loop_flow :=
  d1 ← item decoded 1;
  if op_of d1 =? opcodes.OP_RESERVED then
    d2 ← item decoded 2;
    if op_of d2 =? opcodes.OP_RESERVED then
      d3 ← item decoded 3;
      let internal_data := data_of d3 in
      let reader := Util.new internal_data in
      '(asset_length, reader) ← Util.read_byte_as_int reader;
      '(asset_b, reader) ← Util.read_bytes reader (Z.to_nat asset_length);
      '(f, reader) ← Util.read_byte_as_int reader;
      let flag := negb (f =? 0) in
      asset ← decode asset_b;
      mret (Ret (FreezeTagAssetVoutInformation asset flag))
    else
      let internal_data := data_of d2 in
      op ← Transaction.script_GetOp_next internal_data;
      verifier_string ← decode_opt (data_of op);
      mret (Ret (VerifierTagAssetVoutInformation verifier_string))
  else
    let reader := Util.new (Some asset_portion) in
    '(first_byte, reader) ← Util.read_byte_as_int reader;
    if negb (first_byte =? 20) then Ok Continue
    else
      '(h160, reader) ← Util.read_bytes reader 20;
      '(internal_asset_portion_len, reader) ← Util.read_byte_as_int reader;
      '(asset_name_len, reader) ← Util.read_byte_as_int reader;
      '(asset_bytes, reader) ← Util.read_bytes reader (Z.to_nat asset_name_len);
      '(flag, reader) ← Util.read_byte_as_int reader;
      asset ← decode asset_bytes;
      mret (Ret (NullTagAssetVoutInformation asset (hex h160)
                   (negb (flag =? 0)))).

(** [well_formed] of the branch [i > 0]. *)
Definition is_well_formed (decoded : list Transaction.script_op) (i : nat)
  (asset_portion : bytes) : result bool :=
  let decoded_has_good_length := (i + 1 <? length decoded)%nat in
  if decoded_has_good_length then
    d ← item decoded (i + 1);
    match data_of d with
    | Some push =>
        p ← _op_push (Z.of_nat (length push));
        op_push_prefix ← fromhex p;
        let remaining_matches :=
          bool_decide (op_push_prefix ++ push ++ [x75] = asset_portion) in
        mret remaining_matches
    | None => Ok false
    end
  else Ok false.

(** The branch [i > 0]: a value script. *)
Definition value_script (decoded : list Transaction.script_op) (i : nat)
  (asset_portion : bytes) : result loop_flow :=
  well_formed ← is_well_formed decoded i asset_portion;
  let asset_prefix_position := find asset_portion RVN_ASSET_PREFIX in
  if asset_prefix_position <? 0 then Ok Break
  else if (length asset_portion <? length RVN_ASSET_PREFIX + 3)%nat
  then Ok Break
  else
    let reader :=
      Util.new (Some (drop (Z.to_nat asset_prefix_position
                            + length RVN_ASSET_PREFIX) asset_portion)) in
    '(vout_type, reader) ← Util.read_bytes reader 1;
    match
      (if bool_decide (vout_type = RVN_ASSET_TYPE_CREATE)
       then Some AssetVoutType.CREATE
       else if bool_decide (vout_type = RVN_ASSET_TYPE_OWNER)
       then Some AssetVoutType.OWNER
       else if bool_decide (vout_type = RVN_ASSET_TYPE_TRANSFER)
       then Some AssetVoutType.TRANSFER
       else if bool_decide (vout_type = RVN_ASSET_TYPE_REISSUE)
       then Some AssetVoutType.REISSUE
       else None)
    with
    | None => Ok Break
    | Some asset_vout_type =>
        '(asset_length, reader) ← Util.read_byte_as_int reader;
        '(asset_b, reader) ← Util.read_bytes reader (Z.to_nat asset_length);
        asset ← decode asset_b;
        if bool_decide (asset_vout_type = AssetVoutType.OWNER)
        then Ok (Ret (OwnerAssetVoutInformation well_formed asset))
        else
          '(asset_amount_bytes, reader) ← Util.read_bytes reader 8;
          let asset_amount := int_from_bytes_little asset_amount_bytes in
          if bool_decide (asset_vout_type = AssetVoutType.TRANSFER) then
            c ← Util.can_read_amount reader 34;
            if (c : bool) then
              '(memo, reader) ← Util.read_bytes reader 34;
              c ← Util.can_read_amount reader 8;
              if (c : bool) then
                '(timestamp_bytes, reader) ← Util.read_bytes reader 8;
                let timestamp := int_from_bytes_little timestamp_bytes in
                mret (Ret (TransferAssetVoutInformation well_formed asset
                             asset_amount (Some memo) (Some timestamp)))
              else
                mret (Ret (TransferAssetVoutInformation well_formed asset
                             asset_amount (Some memo) None))
            else
              mret (Ret (TransferAssetVoutInformation well_formed asset
                           asset_amount None None))
          else
            '(divisions, reader) ← Util.read_byte_as_int reader;
            '(r, reader) ← Util.read_byte_as_int reader;
            let reissuable := r =? 1 in
            if bool_decide (asset_vout_type = AssetVoutType.CREATE) then
              '(h, reader) ← Util.read_byte_as_int reader;
              let has_associated_data := h =? 1 in
              if has_associated_data then
                '(associated_data, reader) ← Util.read_bytes reader 34;
                mret (Ret (MetadataAssetVoutInformation asset_vout_type
                             well_formed asset asset_amount divisions
                             reissuable (Some associated_data)))
              else
                mret (Ret (MetadataAssetVoutInformation asset_vout_type
                             well_formed asset asset_amount divisions
                             reissuable None))
            else if bool_decide (asset_vout_type = AssetVoutType.REISSUE) then
              c ← Util.can_read_amount reader 34;
              if (c : bool) then
                '(associated_data, reader) ← Util.read_bytes reader 34;
                mret (Ret (MetadataAssetVoutInformation asset_vout_type
                             well_formed asset asset_amount divisions
                             reissuable (Some associated_data)))
              else
                mret (Ret (MetadataAssetVoutInformation asset_vout_type
                             well_formed asset asset_amount divisions
                             reissuable None))
            else Ok Break
    end.

(** The loop [for i, (op, _, index) in enumerate(decoded)], from
    position [i] on. *)
Fixpoint scan (script : bytes) (decoded : list Transaction.script_op)
  (i : nat) (todo : list Transaction.script_op)
  : result BaseAssetVoutInformation :=
  match todo with
  | [] => Ok NoAssetVoutInformation
  | (op, _, index) :: todo' =>
      if op =? opcodes.OP_ASSET then
        let asset_portion := drop index script in
        flow ← (if (i =? 0)%nat then tag_script decoded asset_portion
                else value_script decoded i asset_portion);
        match flow with
        | Ret v => Ok v
        | Break => Ok NoAssetVoutInformation
        | Continue => scan script decoded (S i) todo'
        end
      else scan script decoded (S i) todo'
  end.

(** [get_asset_info_from_script]: Python's [None] for a malformed script,
    otherwise a vout information object, unless an exception other than
    [IndexError] escapes. *)
Definition get_asset_info_from_script (script : bytes)
  : result (option BaseAssetVoutInformation) :=
  match Transaction.script_GetOp script with
  | Raise MalformedBitcoinScript => Ok None
  | Raise e => Raise e
  | Ok decoded =>
      match scan script decoded 0 decoded with
      | Raise IndexError => Ok (Some NoAssetVoutInformation)
      | Raise e => Raise e
      | Ok v => Ok (Some v)
      end
  end.

(** *** The verifier expression engine *)

Module BooleanExprAST.

Inductive OP := NONE | AND | OR | NOT | VAR.

#[global] Instance OP_eq_dec : EqDecision OP.
Proof. solve_decision. Defined.

(** What a child slot of a node, or a working list of the parser, can
    hold: a [str] (an operator token or the name of a variable) or a
    [BooleanExprAST] object with its fields [op], [l_chld], [r_chld]
    and [_error]. *)
#[local] Set Warnings "-register-all".
Inductive obj :=
| Str (s : str)
| Node (op : OP) (l_chld r_chld : option obj) (_error : option str).

(** [cls(op, error=error)]. *)
Definition new (op : OP) (error : option str) : obj :=
  Node op None None error.

Definition is_node (o : obj) : bool :=
  match o with Node _ _ _ _ => true | Str _ => false end.

(** [item == tok] for an operator token [tok]; an object of the class
    is equal to no string. *)
Definition is_token (tok : string) (item : obj) : bool :=
  match item with
  | Str s => bool_decide (s = str_of tok)
  | Node _ _ _ _ => false
  end.

Definition missing_key (name : str) : exn :=
  Exception (str_of "Key " ++ name ++ str_of " does not exist").

Fixpoint evaluate (self : obj) (bool_dict : gmap str bool) : result bool :=
  match self with
  | Str _ => Raise AttributeError
  | Node op l_chld r_chld _error =>
      if truthy _error then Raise (Exception (default [] _error))
      else
        match op with
        | AND =>
            match l_chld, r_chld with
            | Some l, Some r =>
                if is_node l && is_node r then
                  a ← evaluate l bool_dict;
                  if (a : bool) then evaluate r bool_dict else Ok false
                else Raise AssertionError
            | _, _ => Raise AssertionError
            end
        | OR =>
            match l_chld, r_chld with
            | Some l, Some r =>
                if is_node l && is_node r then
                  a ← evaluate l bool_dict;
                  if (a : bool) then Ok true else evaluate r bool_dict
                else Raise AssertionError
            | _, _ => Raise AssertionError
            end
        | NOT =>
            match l_chld, r_chld with
            | Some l, None =>
                if is_node l then
                  a ← evaluate l bool_dict; mret (negb a)
                else Raise AssertionError
            | _, _ => Raise AssertionError
            end
        | VAR =>
            match l_chld, r_chld with
            | Some (Str name), None =>
                match bool_dict !! name with
                | Some value => Ok value
                | None => Raise (missing_key name)
                end
            | _, _ => Raise AssertionError
            end
        | NONE => Raise (Exception (str_of "Unknown OP OP.NONE"))
        end
  end.

(** [^[A-Z0-9._]$] *)
Definition VAR_CHARACTER : regex := Cat (Cls name_class) Dollar.

(** The local variables of the scanning loop of [parse_string]. *)
Record scan_state := mkScan {
  last_parenthesis_index : option nat;
  last_name_index : option nat;
  l_tok : nat;
  r_tok : nat;
  top_level_parenthesized : list obj
}.

Definition var_node (name : str) : obj :=
  Node VAR (Some (Str name)) None None.

Definition syntax_error (msg : str) : obj := new NONE (Some (gettext msg)).

(** The variable that ends before position [i], if one is open and the
    scan is outside parentheses, becomes a VAR node. *)
Definition close_name (verifier : str) (i : nat) (st : scan_state)
  : scan_state :=
  match last_parenthesis_index st, last_name_index st with
  | None, Some n =>
      mkScan None None (l_tok st) (r_tok st)
        (top_level_parenthesized st ++ [var_node (slice verifier n i)])
  | _, _ => st
  end.

(** The counting of parentheses; the first open one is remembered. *)
Definition count_parenthesis (i : nat) (ch : N) (st : scan_state)
  : scan_state :=
  if N.eqb ch (N_of_ascii "(") then
    mkScan (if (l_tok st =? 0)%nat then Some i
            else last_parenthesis_index st)
      (last_name_index st) (l_tok st + 1) (r_tok st)
      (top_level_parenthesized st)
  else if N.eqb ch (N_of_ascii ")") then
    mkScan (last_parenthesis_index st) (last_name_index st)
      (l_tok st) (r_tok st + 1) (top_level_parenthesized st)
  else st.

(** The end of a turn: a parenthesised part that closes is parsed by
    [parse], the recursive call; inside parentheses nothing else happens;
    outside, an operator becomes a token and any other character is an
    error. *)
Definition close_or_token (parse : str -> result obj) (verifier : str)
  (i : nat) (ch : N) (st : scan_state) : result (ctl scan_state obj) :=
  match last_parenthesis_index st with
  | Some p =>
      if (l_tok st =? r_tok st)%nat then
        node ← parse (slice verifier (p + 1) i);
        mret (Next (mkScan None (last_name_index st) 0 0
                      (top_level_parenthesized st ++ [node])))
      else Ok (Next st)
  | None =>
      if existsb (N.eqb ch) (str_of "&|!") then
        Ok (Next (mkScan None (last_name_index st) (l_tok st) (r_tok st)
                    (top_level_parenthesized st ++ [Str [ch]])))
      else
        Ok (Return (syntax_error (str_of "Unable to parse token " ++ [ch])))
  end.

(** One turn of [for i, ch in enumerate(verifier)]: outside parentheses a
    variable character only opens or continues a name. *)
Definition scan_body (parse : str -> result obj) (verifier : str)
  (i : nat) (ch : N) (st : scan_state) : result (ctl scan_state obj) :=
  if bool_decide (last_parenthesis_index st = None)
     && re_match VAR_CHARACTER [ch]
  then
    Ok (Next (mkScan (last_parenthesis_index st)
                (match last_name_index st with
                 | None => Some i
                 | Some n => Some n
                 end)
                (l_tok st) (r_tok st) (top_level_parenthesized st)))
  else
    close_or_token parse verifier i ch
      (count_parenthesis i ch (close_name verifier i st)).

Fixpoint scan_loop (parse : str -> result obj) (verifier : str)
  (i : nat) (rest : str) (st : scan_state) : result (ctl scan_state obj) :=
  match rest with
  | [] => Ok (Next st)
  | ch :: rest' =>
      r ← scan_body parse verifier i ch st;
      match r with
      | Next st' => scan_loop parse verifier (S i) rest' st'
      | Return node => Ok (Return node)
      end
  end.

(** The first reduction: [!] with the item that follows it. *)
Fixpoint not_pass (items : list obj) (is_not all_nots_resolved : bool)
  (top_level_p_n : list obj) : bool * list obj :=
  match items with
  | [] => (all_nots_resolved, top_level_p_n)
  | item :: items' =>
      if is_token "!" item
      then not_pass items' (negb is_not) false top_level_p_n
      else if is_not
      then not_pass items' false true
             (top_level_p_n ++ [Node NOT (Some item) None None])
      else not_pass items' is_not true (top_level_p_n ++ [item])
  end.

(** The second and third reductions, which differ in the token, the
    operator and the message only: [tok] with its two neighbours. *)
Fixpoint binary_pass (tok : string) (op : OP) (no_left : string)
  (items : list obj) (looking_for_right_side : bool) (acc : list obj)
  : ctl (bool * list obj) obj :=
  match items with
  | [] => Next (looking_for_right_side, acc)
  | item :: items' =>
      if is_token tok item
      then binary_pass tok op no_left items' true acc
      else if looking_for_right_side then
        match pop acc with
        | None => Return (syntax_error (str_of no_left))
        | Some (item_l, acc') =>
            binary_pass tok op no_left items' false
              (acc' ++ [Node op (Some item_l) (Some item) None])
        end
      else binary_pass tok op no_left items' false (acc ++ [item])
  end.

Definition and_pass : list obj -> bool -> list obj -> _ :=
  binary_pass "&" AND "No left side of AND statement".
Definition or_pass : list obj -> bool -> list obj -> _ :=
  binary_pass "|" OR "No left side of OR statement".

(** The body of [parse_string]. *)
Definition parse_body (parse : str -> result obj) (verifier : str)
  : result obj :=
  if (length verifier =? 0)%nat
  then Ok (syntax_error (str_of "Empty string"))
  else if (80 <? length verifier)%nat
  then Ok (syntax_error (str_of "Verifier is too long"))
  else
    r ← scan_loop parse verifier 0 verifier (mkScan None None 0 0 []);
    match r with
    | Return node => Ok node
    | Next st =>
        let ch := List.last verifier 0%N in
        let top_level_parenthesized :=
          match last_name_index st with
          | Some n =>
              if re_match VAR_CHARACTER [ch]
              then top_level_parenthesized st
                   ++ [var_node (slice verifier n (length verifier))]
              else top_level_parenthesized st
          | None => top_level_parenthesized st
          end in
        let '(all_nots_resolved, top_level_p_n) :=
          not_pass top_level_parenthesized false true [] in
        if negb all_nots_resolved
        then Ok (syntax_error (str_of "Bad NOT placement"))
        else
          match and_pass top_level_p_n false [] with
          | Return node => Ok node
          | Next (looking_for_right_side_of_and, top_level_p_n_a) =>
              if looking_for_right_side_of_and
              then Ok (syntax_error (str_of "No right side of AND statement"))
              else
                match or_pass top_level_p_n_a false [] with
                | Return node => Ok node
                | Next (looking_for_right_side_of_or, top_level_p_n_a_o) =>
                    if looking_for_right_side_of_or
                    then Ok (syntax_error (str_of "No right side of OR statement"))
                    else if (1 <? length top_level_p_n_a_o)%nat
                    then Ok (syntax_error (str_of "Variables exist with no operators between them"))
                    else
                      match top_level_p_n_a_o with
                      | node :: _ => Ok node
                      | [] => Raise IndexError
                      end
                end
          end
    end.

(** [parse_string] with a bound on the depth of its recursion. *)
Fixpoint parse_string_depth (depth : nat) (verifier : str) : result obj :=
  match depth with
  | O => Raise RecursionError
  | S depth' => parse_body (parse_string_depth depth') verifier
  end.

(** [BooleanExprAST.parse_string]: a nested call is on a part that is
    shorter by the two parentheses, so the depth stays below the length
    of [verifier]. *)
Definition parse_string (verifier : str) : result obj :=
  parse_string_depth (S (length verifier)) verifier.

(** The names of the variables a tree refers to, left to right. *)
Fixpoint variables (self : obj) : list str :=
  match self with
  | Str _ => []
  | Node VAR (Some (Str name)) _ _ => [name]
  | Node _ l_chld r_chld _ =>
      match l_chld with Some l => variables l | None => [] end
      ++ match r_chld with Some r => variables r | None => [] end
  end.

(** A tree as the grammar intends it: AND and OR over two such trees,
    NOT over one, VAR over a name; no error message anywhere. *)
Fixpoint well_formed (self : obj) : bool :=
  match self with
  | Str _ => false
  | Node op l_chld r_chld _error =>
      negb (truthy _error) &&
      match op, l_chld, r_chld with
      | AND, Some l, Some r | OR, Some l, Some r =>
          well_formed l && well_formed r
      | NOT, Some l, None => well_formed l
      | VAR, Some (Str _), None => true
      | _, _, _ => false
      end
  end.

(** [BooleanExprAST.error]: the first error message found in the tree. *)
Fixpoint error (self : obj) : result (option str) :=
  match self with
  | Str _ => Raise AttributeError
  | Node op l_chld r_chld _error =>
      match _error with
      | Some e => Ok (Some e)
      | None =>
          if bool_decide (op = VAR) then Ok None
          else
            l_error ← match l_chld with
                      | Some l => error l
                      | None => Ok None
                      end;
            if truthy l_error then Ok l_error
            else
              r_error ← match r_chld with
                        | Some r => error r
                        | None => Ok None
                        end;
              if truthy r_error then Ok r_error else Ok None
      end
  end.

(** [BooleanExprAST.iterate_vars_return_first]: the first answer of
    [callable] on a variable that counts as true.  [callable] is applied
    to whatever the left child slot of a VAR node holds. *)
Fixpoint iterate_vars_return_first (self : obj)
  (callable : option obj -> option str) : result (option str) :=
  match self with
  | Str _ => Raise AttributeError
  | Node op l_chld r_chld _ =>
      if bool_decide (op = VAR) then Ok (callable l_chld)
      else
        ret ← match l_chld with
               | Some l => iterate_vars_return_first l callable
               | None => Ok None
               end;
        if truthy ret then Ok ret
        else
          ret ← match r_chld with
                 | Some r => iterate_vars_return_first r callable
                 | None => Ok None
                 end;
          if truthy ret then Ok ret else Ok None
  end.

End BooleanExprAST.

Definition compress_verifier_string (verifier : str) : str :=
  remove_char _QUALIFIER_TAG_DELIMITER (remove_char (N_of_ascii " ") verifier).

Definition parse_verifier_string (verifier : str)
  : result BooleanExprAST.obj :=
  BooleanExprAST.parse_string (compress_verifier_string verifier).

End Asset.
Export Asset.

(* ================================================================= *)
(** ** Notions used to state the properties *)

Module Props.
Import BooleanExprAST.

(** An ordinary base spending script, as [address_to_script] returns
    them: it is not empty, it disassembles completely (no push runs past
    its end) and the asset marker is not among its opcodes. *)
Definition plain_base_script (base : bytes) : bool :=
  match Transaction.script_GetOp base with
  | Ok (o :: ops) =>
      forallb (fun o => negb (op_of o =? opcodes.OP_ASSET)
                        && (snd o <=? length base)%nat) (o :: ops)
  | _ => false
  end.

(** The base scripts of a pay-to-public-key-hash and of a
    pay-to-script-hash address with the 20-byte hash [h]: OP_DUP OP_HASH160
    push(h) OP_EQUALVERIFY OP_CHECKSIG, and OP_HASH160 push(h) OP_EQUAL. *)
Definition p2pkh_script (h : bytes) : bytes :=
  [x76; xa9; x14] ++ h ++ [x88; xac].
Definition p2sh_script (h : bytes) : bytes :=
  [xa9; x14] ++ h ++ [x87].

(** Pay-to-public-key-hash to the key hash 00 01 .. 13. *)
Definition p2pkh_example : bytes :=
  p2pkh_script
    [x00; x01; x02; x03; x04; x05; x06; x07; x08; x09;
     x0a; x0b; x0c; x0d; x0e; x0f; x10; x11; x12; x13].

(** How a call of the parser ends: with a tree, or with [IndexError] (when
    no item is left to return). *)
Definition parse_outcome {A} (r : result A) : Prop :=
  (exists x, r = Ok x) \/ r = Raise IndexError.

(** Every character class of a pattern lies within [P]. *)
Fixpoint classes_within (P : N -> Prop) (r : regex) : Prop :=
  match r with
  | Void | Eps => True
  | Cls p => forall c, p c = true -> P c
  | Cat r1 r2 | Alt r1 r2 => classes_within P r1 /\ classes_within P r2
  | Star r1 => classes_within P r1
  end.

(** A code point of the ASCII range. *)
Definition is_ascii (c : N) : Prop := (c < 128)%N.

(** A character that can stand before a tag delimiter, and one that can
    stand in a tag: ASCII and outside the delimiters that the indicator
    patterns exclude. *)
Definition head_char (c : N) : Prop := none_of "^~#!" c = true /\ is_ascii c.
Definition tag_char (c : N) : Prop := none_of "~#!/" c = true /\ is_ascii c.

(** The unique name [ABC#aaa...a] with a tag of [n] letters. *)
Definition unique_example (n : nat) : str :=
  str_of "ABC" ++ _UNIQUE_TAG_DELIMITER :: repeat (N_of_ascii "a") n.

(** The bytes of an ASCII text. *)
Definition ascii_bytes (s : str) : bytes :=
  List.map (fun c => z2b (Z.of_N c)) s.

(** What a byte reader has left to read: [reads r d rest] when [r] is
    a reader over [d] whose cursor is in range, with [rest] ahead. *)
Definition reads (r : Util.ByteReader) (d rest : bytes) : Prop :=
  Util.data r = Some d /\ (Util.cursor r <= length d)%nat
  /\ drop (Util.cursor r) d = rest.

(** The payload of a create operation, field by field (section 4.2). *)
Definition create_payload (asset : str) (amount divisions : Z)
  (reissuable : bool) (associated_data : option bytes) : bytes :=
  RVN_ASSET_PREFIX ++ RVN_ASSET_TYPE_CREATE
  ++ [z2b (len asset)] ++ ascii_bytes asset
  ++ int_to_bytes_little 8 amount ++ [z2b divisions]
  ++ [if reissuable then x01 else x00]
  ++ match associated_data with
     | Some d => x01 :: d
     | None => [x00]
     end.

(** The push prefix of [n] bytes, for [n <= 255]. *)
Definition push_prefix (n : Z) : bytes :=
  if n <? opcodes.OP_PUSHDATA1 then [z2b n] else [x4c; z2b n].

(** The digit of a truth value, as a decimal string. *)
Definition decimal_of_bool (b : bool) : str :=
  if b then str_of "1" else str_of "0".

(** The status digest with every field in its decimal string form, as a
    literal reading of the description has it. *)
Definition status_all_decimal (m : AssetMetadata) : str :=
  hex (Hashlib.sha256 (ascii_bytes (
    str_of_int (sats_in_circulation m) ++ str_of_int (divisions m)
    ++ decimal_of_bool (reissuable m)
    ++ decimal_of_bool (bool_decide (associated_data m <> None))
    ++ match associated_data m with
       | Some d => base_encode d
       | None => []
       end))).

(** The status digest with the two truth values spelled [True] or
    [False]. *)
Definition status_by_words (m : AssetMetadata) : str :=
  hex (Hashlib.sha256 (ascii_bytes (
    str_of_int (sats_in_circulation m) ++ str_of_int (divisions m)
    ++ (if reissuable m then str_of "True" else str_of "False")
    ++ match associated_data m with
       | Some d => str_of "True" ++ base_encode d
       | None => str_of "False"
       end))).

(** [OR(AND(A, B), NOT(C))]. *)
Definition or_and_not (a b c : string) : obj :=
  Node OR
    (Some (Node AND (Some (var_node (str_of a))) (Some (var_node (str_of b)))
             None))
    (Some (Node NOT (Some (var_node (str_of c))) None None))
    None.

(** [AND(A, B)]. *)
Definition and_of (a b : string) : obj :=
  Node AND (Some (var_node (str_of a))) (Some (var_node (str_of b))) None.

(** OP_1, the asset marker, a push of [rvn], [o], the length 1 and the
    byte 0xff, then a drop: an owner payload whose name is not UTF-8. *)
Definition garbage_name_script : bytes :=
  [x51; xc0; x06; x72; x76; x6e; x6f; x01; xff; x75].

(** The same script with a name length of 5 and one byte of name. *)
Definition truncated_name_script : bytes :=
  [x51; xc0; x06; x72; x76; x6e; x6f; x05; x41; x75].

(** Bindings given as a list of pairs. *)
Definition bindings (l : list (string * bool)) : gmap str bool :=
  list_to_map (List.map (fun p => (str_of (fst p), snd p)) l).

(** The payloads of the owner, transfer and reissue operations, field by
    field. *)
Definition owner_payload (asset : str) : bytes :=
  RVN_ASSET_PREFIX ++ RVN_ASSET_TYPE_OWNER
  ++ [z2b (len asset)] ++ ascii_bytes asset.

Definition transfer_payload (asset : str) (amount : Z) (memo : bytes)
  : bytes :=
  RVN_ASSET_PREFIX ++ RVN_ASSET_TYPE_TRANSFER
  ++ [z2b (len asset)] ++ ascii_bytes asset
  ++ int_to_bytes_little 8 amount ++ memo.

Definition reissue_payload (asset : str) (amount divisions : Z)
  (reissuable : bool) (associated_data : option bytes) : bytes :=
  RVN_ASSET_PREFIX ++ RVN_ASSET_TYPE_REISSUE
  ++ [z2b (len asset)] ++ ascii_bytes asset
  ++ int_to_bytes_little 8 amount ++ [z2b divisions]
  ++ [if reissuable then x01 else x00]
  ++ default [] associated_data.

(** The timestamp that a memo carries on the wire: none when it is absent
    or zero. *)
Definition wire_timestamp (memo : AssetMemo) : option Z :=
  match memo_timestamp memo with
  | Some t => if t =? 0 then None else Some t
  | None => None
  end.

(** The bytes of a memo: its data, then its timestamp when it carries
    one. *)
Definition memo_bytes (memo : AssetMemo) : bytes :=
  memo_data memo
  ++ match wire_timestamp memo with
     | Some t => int_to_bytes_little 8 t
     | None => []
     end.

Definition memo_wire (memo : option AssetMemo) : bytes :=
  match memo with
  | Some m => memo_bytes m
  | None => []
  end.

(** A memo as the constructor of [AssetMemo] leaves it: 34 bytes of data,
    and a timestamp, if any, that fits 8 bytes. *)
Definition memo_ok (memo : option AssetMemo) : Prop :=
  match memo with
  | Some m =>
      length (memo_data m) = 34%nat
      /\ match memo_timestamp m with
         | Some t => 0 <= t < 2 ^ 64
         | None => True
         end
  | None => True
  end.

(** The operand of a null tag and of a freeze tag: the length of the name,
    the name and the flag byte; the operand of a verifier tag: the length
    of the verifier string and the string. *)
Definition tag_operand (asset : str) (flag : byte) : bytes :=
  [z2b (len asset)] ++ ascii_bytes asset ++ [flag].

Definition verifier_operand (verifier_string : str) : bytes :=
  [z2b (len verifier_string)] ++ ascii_bytes verifier_string.

(** A freeze tag script: the marker, two reserved opcodes and the push of
    the operand (section 4.3 of the decoder: [i == 0], two OP_RESERVED). *)
Definition freeze_tag_script (asset : str) (flag : byte) : bytes :=
  [xc0; x50; x50]
  ++ push_prefix (Z.of_nat (length (tag_operand asset flag)))
  ++ tag_operand asset flag.

(** Two punctuation characters in a row, a punctuation character at the
    start, and one at the end. *)
Fixpoint double_punctuation (s : str) : bool :=
  match s with
  | a :: s' =>
      match s' with
      | b :: _ => (punctuation a && punctuation b) || double_punctuation s'
      | [] => false
      end
  | [] => false
  end.

Definition leading_punctuation (s : str) : bool :=
  match s with
  | c :: _ => punctuation c
  | [] => false
  end.

Definition trailing_punctuation (s : str) : bool :=
  match last s with
  | Some c => punctuation c
  | None => false
  end.

(** The words of [_BAD_NAMES]. *)
Definition reserved_names : list str :=
  List.map str_of
    ["RVN"; "RAVEN"; "RAVENCOIN"; "RVNS"; "RAVENS"; "RAVENCOINS";
     "#RVN"; "#RAVEN"; "#RAVENCOIN"; "#RVNS"; "#RAVENS"; "#RAVENCOINS"]%string.

(** A pattern that ends in [$], behind classes that have no newline. *)
Inductive ends_in_dollar : regex -> Prop :=
| ends_dollar : ends_in_dollar Dollar
| ends_cat r1 r2 :
    classes_within (fun c => c <> 10%N) r1 -> ends_in_dollar r2 ->
    ends_in_dollar (Cat r1 r2)
| ends_alt r1 r2 :
    ends_in_dollar r1 -> ends_in_dollar r2 -> ends_in_dollar (Alt r1 r2).

(** The truth value of a tree under bindings, by the truth tables of the
    operators; a variable without a binding counts as false here. *)
Fixpoint truth_value (t : obj) (d : gmap str bool) : bool :=
  match t with
  | Node AND (Some l) (Some r) _ => truth_value l d && truth_value r d
  | Node OR (Some l) (Some r) _ => truth_value l d || truth_value r d
  | Node NOT (Some l) _ _ => negb (truth_value l d)
  | Node VAR (Some (Str name)) _ _ => default false (d !! name)
  | _ => false
  end.

(** The first answer that counts as true among the answers of [callable]
    on a list of names. *)
Fixpoint first_answer (callable : option obj -> option str)
  (names : list str) : option str :=
  match names with
  | [] => None
  | name :: names' =>
      if truthy (callable (Some (Str name))) then callable (Some (Str name))
      else first_answer callable names'
  end.

(** A tree on which [error] gives no message is well formed. *)
Definition sound (t : obj) : Prop :=
  forall e, error t = Ok e -> truthy e = false -> well_formed t = true.

(** *** The grammar of verifier strings *)

(** What the scanning loop of [parse_string] cuts a text into at the top
    level: an operator character, a name, or a parenthesised part with
    the tree it stands for. *)
Inductive lexeme :=
| LOp (c : N)
| LName (name : str)
| LParen (inner : str) (node : obj).

Definition lexeme_text (u : lexeme) : str :=
  match u with
  | LOp c => [c]
  | LName name => name
  | LParen inner _ => N_of_ascii "(" :: inner ++ [N_of_ascii ")"]
  end.

Definition lexeme_item (u : lexeme) : obj :=
  match u with
  | LOp c => Str [c]
  | LName name => var_node name
  | LParen _ node => node
  end.

Definition lexemes_text (us : list lexeme) : str :=
  List.concat (List.map lexeme_text us).

(** The depth of parentheses behind [s], starting from depth [d]; nothing
    when a parenthesis closes below depth 0. *)
Fixpoint nesting (d : nat) (s : str) : option nat :=
  match s with
  | [] => Some d
  | c :: s' =>
      if N.eqb c (N_of_ascii "(") then nesting (S d) s'
      else if N.eqb c (N_of_ascii ")") then
        match d with
        | O => None
        | S d' => nesting d' s'
        end
      else nesting d s'
  end.

Definition is_name (u : lexeme) : bool :=
  match u with LName _ => true | _ => false end.

(** No name directly behind a name. *)
Fixpoint separated (pending : bool) (us : list lexeme) : bool :=
  match us with
  | [] => true
  | u :: us' => negb (pending && is_name u) && separated (is_name u) us'
  end.

Definition lexeme_ok (parse : str -> result obj) (u : lexeme) : Prop :=
  match u with
  | LOp c => In c (str_of "&|!")
  | LName name => name <> [] /\ Forall (fun c => name_class c = true) name
  | LParen inner node => nesting 0 inner = Some 0%nat /\ parse inner = Ok node
  end.

(** The state of the scanning loop between two lexemes, when the text
    [pre] has been read and the items [done] are found; [pending] tells
    that the last of them is a name that is still open. *)
Definition between (verifier pre : str) (st : scan_state) (done : list obj)
  (pending : bool) : Prop :=
  last_parenthesis_index st = None /\ l_tok st = 0%nat /\ r_tok st = 0%nat
  /\ if pending then
       exists n, last_name_index st = Some n
                 /\ name_class (List.last pre 0%N) = true
                 /\ done = top_level_parenthesized st
                           ++ [var_node (slice verifier n (length pre))]
     else last_name_index st = None /\ done = top_level_parenthesized st.

(** The nodes that the reductions of [parse_string] build. *)
Definition not_node (x : obj) : obj := Node NOT (Some x) None None.
Definition and_node (l r : obj) : obj := Node AND (Some l) (Some r) None.
Definition or_node (l r : obj) : obj := Node OR (Some l) (Some r) None.

(** An expression of the grammar

      expression  ::= conjunction ('|' conjunction)*
      conjunction ::= literal ('&' literal)*
      literal     ::= '!'* atom
      atom        ::= NAME | '(' expression ')'

    as a list of conjunctions, each a list of literals, each a number of
    [!] and an atom. *)
#[local] Set Warnings "-register-all".
Inductive atom :=
| AVar (name : str)
| AParen (e : list (list (nat * atom))).

(** [parts] with [sep] between them. *)
Fixpoint join {A} (sep : list A) (parts : list (list A)) : list A :=
  match parts with
  | [] => []
  | p :: parts' =>
      match parts' with
      | [] => p
      | _ :: _ => p ++ sep ++ join sep parts'
      end
  end.

(** [node (... (node x1 x2) ...) xn]. *)
Definition chain (node : obj -> obj -> obj) (items : list obj) : obj :=
  match items with
  | [] => Str []
  | x :: xs => fold_left node xs x
  end.

Section Grammar.
Variable show_atom : atom -> str.
Variable tree_atom : atom -> obj.

Definition show_literal (l : nat * atom) : str :=
  repeat (N_of_ascii "!") (fst l) ++ show_atom (snd l).
Definition show_conjunction (t : list (nat * atom)) : str :=
  join [N_of_ascii "&"] (List.map show_literal t).
Definition show_expression (e : list (list (nat * atom))) : str :=
  join [N_of_ascii "|"] (List.map show_conjunction e).

(** An odd number of [!] negates, an even number does nothing. *)
Definition tree_literal (l : nat * atom) : obj :=
  if Nat.odd (fst l) then not_node (tree_atom (snd l)) else tree_atom (snd l).
Definition tree_conjunction (t : list (nat * atom)) : obj :=
  chain and_node (List.map tree_literal t).
Definition tree_expression (e : list (list (nat * atom))) : obj :=
  chain or_node (List.map tree_conjunction e).
End Grammar.

(** The text of an expression and the tree it stands for. *)
Fixpoint show_atom (a : atom) : str :=
  match a with
  | AVar name => name
  | AParen e =>
      N_of_ascii "(" :: show_expression show_atom e ++ [N_of_ascii ")"]
  end.

Fixpoint tree_atom (a : atom) : obj :=
  match a with
  | AVar name => var_node name
  | AParen e => tree_expression tree_atom e
  end.

Definition show (e : list (list (nat * atom))) : str :=
  show_expression show_atom e.
Definition tree (e : list (list (nat * atom))) : obj :=
  tree_expression tree_atom e.

(** Names are not empty and made of [A-Z0-9._]; no expression and no
    conjunction is empty. *)
Fixpoint valid_atom (a : atom) : bool :=
  match a with
  | AVar name => negb (length name =? 0)%nat && forallb name_class name
  | AParen e =>
      negb (length e =? 0)%nat
      && forallb (fun t => negb (length t =? 0)%nat
                           && forallb (fun l => valid_atom (snd l)) t) e
  end.

Definition valid_expression (e : list (list (nat * atom))) : bool :=
  valid_atom (AParen e).

(** The lexemes of an expression, given the tree of each parenthesised
    part. *)
Definition atom_lexeme (a : atom) : lexeme :=
  match a with
  | AVar name => LName name
  | AParen e => LParen (show e) (tree e)
  end.
Definition literal_lexemes (l : nat * atom) : list lexeme :=
  repeat (LOp (N_of_ascii "!")) (fst l) ++ [atom_lexeme (snd l)].
Definition conjunction_lexemes (t : list (nat * atom)) : list lexeme :=
  join [LOp (N_of_ascii "&")] (List.map literal_lexemes t).
Definition expression_lexemes (e : list (list (nat * atom))) : list lexeme :=
  join [LOp (N_of_ascii "|")] (List.map conjunction_lexemes e).

(** What [not_pass] makes of a run of items, whatever follows. *)
Definition not_reduces (items out : list obj) : Prop :=
  forall rest r acc,
    not_pass (items ++ rest) false r acc = not_pass rest false true (acc ++ out)
    /\ items <> [].

(** What [binary_pass] makes of a run of items, whatever follows. *)
Definition binary_reduces (tok : string) (op : OP) (no_left : string)
  (items out : list obj) : Prop :=
  forall rest acc,
    binary_pass tok op no_left (items ++ rest) false acc
    = binary_pass tok op no_left rest false (acc ++ out).

(** Lexemes that can be dropped in front of an operator or the end
    without changing [separated]. *)
Definition droppable (us : list lexeme) : Prop :=
  forall rest, rest = [] \/ (exists c rest', rest = LOp c :: rest') ->
    separated false (us ++ rest) = separated false rest.

(** A text that closes every parenthesis it opens and no other. *)
Definition balanced (s : str) : Prop := forall d, nesting d s = Some d.

(** An atom whose parenthesised part, if it is one, [parse] turns into
    its tree. *)
Definition atom_ready (parse : str -> result obj) (a : atom) : Prop :=
  match a with
  | AVar name => name <> [] /\ Forall (fun c => name_class c = true) name
  | AParen e =>
      balanced (show e) /\ well_formed (tree e) = true
      /\ parse (show e) = Ok (tree e)
  end.

Definition every_atom (P : atom -> Prop) (e : list (list (nat * atom)))
  : Prop :=
  e <> [] /\ forall t, In t e -> t <> [] /\ forall l, In l t -> P (snd l).

End Props.
Export Props.
Import BooleanExprAST.

(* ================================================================= *)
(** * Properties *)

Import Transaction.

#[local] Arguments str_of : simpl never.
#[local] Arguments str_of_int : simpl never.
#[local] Arguments base_encode : simpl never.
#[local] Arguments Hashlib.sha256 : simpl never.
#[local] Arguments hex : simpl never.

(** ** Vout information: transferability and determinism *)

(** C10: the no-asset sentinel is well formed, deterministic, not
    transferable and not a tag. *)
Theorem C10_sentinel_flags :
  well_formed_script NoAssetVoutInformation = true
  /\ is_deterministic NoAssetVoutInformation = true
  /\ is_transferable NoAssetVoutInformation = false
  /\ is_tag NoAssetVoutInformation = false.
Proof. repeat split. Qed.

(** C7: [is_transferable] holds exactly for the types CREATE, OWNER,
    TRANSFER and REISSUE; [is_deterministic] holds exactly for the tag
    classes and for well-formed results of type TRANSFER, OWNER or NONE,
    a transfer moreover carrying neither memo nor timestamp; the three tag
    classes are always deterministic.  Class by class: a create or reissue
    result is transferable and never deterministic; an owner result is
    transferable, and deterministic exactly when it is well formed; a
    transfer result is transferable, and deterministic exactly when it is
    well formed and has neither memo nor timestamp; the no-asset object
    is deterministic and not transferable; a null, verifier or freeze tag
    is a tag, deterministic and not transferable. *)
Theorem C7_transferable_and_deterministic :
  (forall v,
      is_transferable v = true <->
      get_type v = AssetVoutType.CREATE \/ get_type v = AssetVoutType.OWNER
      \/ get_type v = AssetVoutType.TRANSFER
      \/ get_type v = AssetVoutType.REISSUE)
  /\ (forall v,
      is_deterministic v = true <->
      is_tag v = true
      \/ ((get_type v = AssetVoutType.TRANSFER
           \/ get_type v = AssetVoutType.OWNER
           \/ get_type v = AssetVoutType.NONE)
          /\ well_formed_script v = true
          /\ match v with
             | TransferAssetVoutInformation _ _ _ memo timestamp =>
                 memo = None /\ timestamp = None
             | _ => True
             end))
  /\ (forall asset h160 flag,
      is_deterministic (NullTagAssetVoutInformation asset h160 flag) = true)
  /\ (forall verifier_string,
      is_deterministic (VerifierTagAssetVoutInformation verifier_string) = true)
  /\ (forall asset flag,
      is_deterministic (FreezeTagAssetVoutInformation asset flag) = true)
  /\ (forall type_ well_formed asset amount divisions reissuable data,
      type_ = AssetVoutType.CREATE \/ type_ = AssetVoutType.REISSUE ->
      let v := MetadataAssetVoutInformation type_ well_formed asset amount
                 divisions reissuable data in
      get_type v = type_ /\ well_formed_script v = well_formed
      /\ is_transferable v = true /\ is_deterministic v = false
      /\ is_tag v = false)
  /\ (forall well_formed asset,
      let v := OwnerAssetVoutInformation well_formed asset in
      get_type v = AssetVoutType.OWNER /\ well_formed_script v = well_formed
      /\ is_transferable v = true /\ is_deterministic v = well_formed
      /\ is_tag v = false)
  /\ (forall well_formed asset amount memo timestamp,
      let v := TransferAssetVoutInformation well_formed asset amount memo
                 timestamp in
      get_type v = AssetVoutType.TRANSFER
      /\ well_formed_script v = well_formed
      /\ is_transferable v = true
      /\ (is_deterministic v = true
          <-> well_formed = true /\ memo = None /\ timestamp = None)
      /\ is_tag v = false)
  /\ (get_type NoAssetVoutInformation = AssetVoutType.NONE
      /\ is_transferable NoAssetVoutInformation = false
      /\ is_deterministic NoAssetVoutInformation = true)
  /\ (forall asset h160 flag,
      let v := NullTagAssetVoutInformation asset h160 flag in
      get_type v = AssetVoutType.NULL /\ is_tag v = true
      /\ is_transferable v = false)
  /\ (forall verifier_string,
      let v := VerifierTagAssetVoutInformation verifier_string in
      get_type v = AssetVoutType.VERIFIER /\ is_tag v = true
      /\ is_transferable v = false)
  /\ (forall asset flag,
      let v := FreezeTagAssetVoutInformation asset flag in
      get_type v = AssetVoutType.FREEZE /\ is_tag v = true
      /\ is_transferable v = false).
Proof.
  split; [|split; [|split; [|split; [|split]]]]; try (intros; reflexivity).
  - intros v. split.
    + destruct v as [|[] | | | | |]; vm_compute; intuition congruence.
    + destruct v as [|[] | | | | |]; vm_compute; intuition congruence.
  - intros v. split.
    + destruct v as [|[] [] | [] | [] ? ? [m|] [t|] | | |]; cbn;
        intuition (try congruence).
    + intros [Ht | (Ht & Hw & Hm)].
      * destruct v; cbn in Ht |- *; congruence.
      * destruct v as [|ty wf| wf | wf ? ? memo ts | | |]; cbn in *;
          try reflexivity.
        -- subst wf. destruct ty; cbn; intuition congruence.
        -- subst wf. reflexivity.
        -- destruct Hm as [-> ->]. subst wf. reflexivity.
  - split; [|split; [|split; [|split; [|split; [|split]]]]].
    + intros type_ well_formed asset amount divisions reissuable data
        [-> | ->] v; destruct well_formed; repeat split.
    + intros well_formed asset v. destruct well_formed; repeat split.
    + intros well_formed asset amount memo timestamp v.
      split; [reflexivity|]. split; [reflexivity|]. split; [reflexivity|].
      split; [|reflexivity].
      destruct well_formed, memo, timestamp; cbn; intuition congruence.
    + repeat split.
    + intros asset h160 flag v. repeat split.
    + intros verifier_string v. repeat split.
    + intros asset flag v. repeat split.
Qed.

(** ** The verifier expression engine *)

(** C6: ["A&B|!C"] parses to OR(AND(A, B), NOT(C)), and that tree is true
    under A = true, B = false, C = false. *)
Theorem C6_precedence_example :
  parse_string (str_of "A&B|!C") = Ok (or_and_not "A" "B" "C")
  /\ parse_verifier_string (str_of "A&B|!C") = Ok (or_and_not "A" "B" "C")
  /\ evaluate (or_and_not "A" "B" "C")
       (bindings [("A"%string, true); ("B"%string, false); ("C"%string, false)]) = Ok true.
Proof. repeat split; vm_compute; reflexivity. Qed.

(** *** Evaluation and absent variables *)

(** Induction over a tree with the induction hypothesis for the nodes
    held in the two child slots. *)
Section ObjInduction.
Variable P : obj -> Prop.
Hypothesis HStr : forall s, P (Str s).
Hypothesis HNode : forall op l r e,
    from_option P True l -> from_option P True r -> P (Node op l r e).

Lemma obj_children_ind : forall o, P o.
Proof.
  fix IH 1. intros [s | op l r e].
  - apply HStr.
  - apply HNode.
    + destruct l as [x|]; [apply IH | exact I].
    + destruct r as [x|]; [apply IH | exact I].
Qed.
End ObjInduction.

Lemma well_formed_is_node t : well_formed t = true -> is_node t = true.
Proof. destruct t; [discriminate | reflexivity]. Qed.




Lemma evaluate_well_formed t d :
  well_formed t = true ->
  (exists b, evaluate t d = Ok b)
  \/ (exists x, In x (variables t) /\ d !! x = None
                /\ evaluate t d = Raise (missing_key x)).
Proof.
  induction t as [s | op l r e IHl IHr] using obj_children_ind; [discriminate|].
  cbn [well_formed evaluate].
  destruct (truthy e); [discriminate|]. cbn [negb andb].
  destruct op, l as [l|], r as [r|]; try discriminate; cbn in IHl, IHr.
  - intros [Hl Hr]%andb_prop.
    rewrite (well_formed_is_node _ Hl), (well_formed_is_node _ Hr). cbn [andb].
    destruct (IHl Hl) as [[a Ha] | (x & Hin & Hx & Ha)]; rewrite Ha; cbn.
    + destruct a; [|eauto].
      destruct (IHr Hr) as [[b Hb] | (x & Hin & Hx & Hb)]; [eauto|].
      right. exists x. rewrite in_app_iff. auto.
    + right. exists x. rewrite in_app_iff. auto.
  - intros [Hl Hr]%andb_prop.
    rewrite (well_formed_is_node _ Hl), (well_formed_is_node _ Hr). cbn [andb].
    destruct (IHl Hl) as [[a Ha] | (x & Hin & Hx & Ha)]; rewrite Ha; cbn.
    + destruct a; [eauto|].
      destruct (IHr Hr) as [[b Hb] | (x & Hin & Hx & Hb)]; [eauto|].
      right. exists x. rewrite in_app_iff. auto.
    + right. exists x. rewrite in_app_iff. auto.
  - intros Hl. rewrite (well_formed_is_node _ Hl).
    destruct (IHl Hl) as [[a Ha] | (x & Hin & Hx & Ha)]; rewrite Ha; cbn.
    + eauto.
    + right. exists x. destruct l; [discriminate|]. cbn. rewrite app_nil_r. auto.
  - destruct l; discriminate.
  - destruct l as [name|]; [|discriminate]. intros _.
    destruct (d !! name) as [v|] eqn:E; [eauto|].
    right. exists name. cbn. auto.
Qed.




(** ** Evaluations of the validator, the encoder and the decoder *)

(** C5: the bare reserved name and its qualifier form are rejected, but
    the restricted form is accepted: no alternative of [_BAD_NAMES] starts
    with the restricted marker. *)
Theorem C5_restricted_reserved_name_accepted :
  get_error_for_asset_name (str_of "RVN") <> None
  /\ get_error_for_asset_name (str_of "#RVN") <> None
  /\ re_match _BAD_NAMES (str_of "$RVN") = false
  /\ _isRestrictedNameValid (str_of "$RVN") = true
  /\ get_error_for_asset_name (str_of "$RVN") = None
  /\ get_error_for_asset_name (str_of "$RAVENCOIN") = None.
Proof. repeat split; vm_compute; congruence. Qed.

(** C4: the transfer encoder checks nothing: it produces a script for a
    name that the validator rejects, and for the amounts 0 and
    21,000,000,000 * COIN + 1 that the create encoder refuses. *)
Theorem C4_transfer_not_validated :
  get_error_for_asset_name (str_of "a") <> None
  /\ generate_transfer_script_from_base (str_of "a") 1 (hex p2pkh_example)
     = Ok (str_of "76a914000102030405060708090a0b0c0d0e0f1011121388acc00e72766e740161010000000000000075")
  /\ generate_transfer_script_from_base (str_of "FOO") 0 (hex p2pkh_example)
     = Ok (str_of "76a914000102030405060708090a0b0c0d0e0f1011121388acc01072766e7403464f4f000000000000000075")
  /\ generate_transfer_script_from_base (str_of "FOO")
       (DEFAULT_ASSET_AMOUNT_MAX * COIN + 1) (hex p2pkh_example)
     = Ok (str_of "76a914000102030405060708090a0b0c0d0e0f1011121388acc01072766e7403464f4f010052acdfb2241d75")
  /\ (forall address_to_script address divisions reissuable associated_data,
        generate_create_script address_to_script address (str_of "a") 1
          divisions reissuable associated_data
        = Raise (AssetException (str_of "Bad asset")))
  /\ (forall address_to_script address divisions reissuable associated_data,
        generate_create_script address_to_script address (str_of "FOO") 0
          divisions reissuable associated_data
        = Raise (AssetException (str_of "Bad amount"))).
Proof. repeat split; vm_compute; congruence. Qed.


(** ** AssetMetadata: the status digest *)

(** *** ASCII texts *)

Lemma is_ascii_forallb s :
  forallb (fun c => (c <? 128)%N) s = true -> Forall is_ascii s.
Proof.
  intros H. apply Forall_forall. intros c Hc%list_elem_of_In.
  rewrite forallb_forall in H. apply N.ltb_lt, H, Hc.
Qed.

Lemma encode_ascii_bytes s :
  Forall is_ascii s -> encode_ascii s = Ok (ascii_bytes s).
Proof.
  induction 1 as [|c s Hc _ IH]; [reflexivity|].
  cbn. apply N.ltb_lt in Hc. rewrite Hc, IH. reflexivity.
Qed.

Lemma digits_ascii d :
  Forall is_ascii (str_of (NilEmpty.string_of_uint d)).
Proof.
  induction d; cbn; try constructor; try (vm_compute; reflexivity); auto.
Qed.

Lemma string_of_uint_ascii d :
  Forall is_ascii (str_of (NilZero.string_of_uint d)).
Proof.
  destruct d; try apply digits_ascii.
  apply is_ascii_forallb. reflexivity.
Qed.

Lemma str_of_int_ascii z : Forall is_ascii (str_of_int z).
Proof.
  unfold str_of_int, NilZero.string_of_int.
  destruct (Z.to_int z); [apply string_of_uint_ascii|].
  cbn. constructor; [vm_compute; reflexivity | apply string_of_uint_ascii].
Qed.

Lemma str_of_bool_ascii b : Forall is_ascii (str_of_bool b).
Proof. destruct b; apply is_ascii_forallb; reflexivity. Qed.

Lemma b58char_ascii d : is_ascii (b58char d).
Proof.
  unfold b58char.
  destruct (nth_in_or_default (Z.to_nat d) b58chars 0%N) as [Hin | ->];
    [|vm_compute; reflexivity].
  assert (H : Forall is_ascii b58chars) by (apply is_ascii_forallb; reflexivity).
  rewrite Forall_forall in H. apply H, list_elem_of_In, Hin.
Qed.

Lemma b58_digits_ascii fuel v : Forall is_ascii (b58_digits fuel v).
Proof.
  revert v. induction fuel as [|fuel IH]; intros v; cbn [b58_digits];
    [constructor|].
  destruct (58 <=? v); constructor;
    first [apply b58char_ascii | apply IH | constructor].
Qed.

Lemma base_encode_ascii v : Forall is_ascii (base_encode v).
Proof.
  unfold base_encode. apply Forall_rev, Forall_app. split.
  - apply b58_digits_ascii.
  - apply Forall_forall. intros c Hc%list_elem_of_In%repeat_spec. subst c.
    apply b58char_ascii.
Qed.

Lemma new_AssetMetadata_fields s d r a m :
  new_AssetMetadata s d r a = Ok m ->
  sats_in_circulation m = s /\ divisions m = d /\ reissuable m = r
  /\ 0 < s /\ 0 <= d <= 8
  /\ (associated_data m = None
      \/ exists b, associated_data m = Some b /\ length b = 34%nat).
Proof.
  unfold new_AssetMetadata, _validate_sats, _validate_divisions.
  destruct (_associated_data_converter a) as [c|] eqn:Ec; [|discriminate].
  cbn [mbind result_bind].
  destruct (s <=? 0) eqn:Es; [discriminate|]. cbn [mbind result_bind].
  destruct ((d <? 0) || (8 <? d)) eqn:Ed; [discriminate|].
  cbn [mbind result_bind mret result_ret]. intros [= <-].
  cbn [sats_in_circulation divisions reissuable associated_data].
  repeat split; try lia.
  unfold _associated_data_converter in Ec.
  destruct a as [[|x b]|]; try (injection Ec as <-; left; reflexivity).
  destruct (length (x :: b) =? 34)%nat eqn:El; [|discriminate].
  injection Ec as <-. right. exists (x :: b). split; [reflexivity|].
  apply Nat.eqb_eq, El.
Qed.

(** C9 (as amended): the status of a record built by the constructor is
    the hex SHA-256 digest of the ASCII bytes of: the decimal forms of
    [sats_in_circulation] and [divisions], then [True] or [False] for
    [reissuable], then [True] and the base-58 text of the associated data
    when there is one, [False] otherwise; equal records have equal
    digests. *)
Theorem C9_status_digest (sats divs : Z) (reiss : bool) (data : option bytes)
  (m : AssetMetadata) :
  new_AssetMetadata sats divs reiss data = Ok m ->
  status m = Ok (status_by_words m)
  /\ (forall m', m' = m -> status m' = status m).
Proof.
  intros Hm. split; [|intros m' ->; reflexivity].
  destruct (new_AssetMetadata_fields _ _ _ _ _ Hm) as (_ & _ & _ & _ & _ & Hd).
  unfold status, status_text, status_by_words, associated_data_as_ipfs.
  destruct m as [s d r a]; cbn [associated_data sats_in_circulation
    divisions reissuable] in *.
  assert (Ht : Forall is_ascii (str_of "True")) by apply (str_of_bool_ascii true).
  assert (Hf : Forall is_ascii (str_of "False")) by apply (str_of_bool_ascii false).
  destruct Hd as [-> | (b & -> & Hb)].
  - cbn. rewrite !app_nil_r. rewrite encode_ascii_bytes.
    + reflexivity.
    + repeat (apply Forall_app; split);
        auto using str_of_int_ascii, str_of_bool_ascii.
  - destruct b as [|x b]; [discriminate|]. cbn [truthy negb default].
    cbn. rewrite !app_nil_r. rewrite encode_ascii_bytes.
    + cbn. rewrite <- !app_assoc. destruct r; reflexivity.
    + repeat (apply Forall_app; split);
        auto using str_of_int_ascii, str_of_bool_ascii, base_encode_ascii.
Qed.

Lemma C9_status_digest_witness :
  new_AssetMetadata 100 0 true None = Ok (mkAssetMetadata 100 0 true None)
  /\ status (mkAssetMetadata 100 0 true None)
     = Ok (status_by_words (mkAssetMetadata 100 0 true None)).
Proof.
  split; [reflexivity|].
  apply (proj1 (C9_status_digest 100 0 true None _ eq_refl)).
Defined.

(** C9 as stated fails: with the truth values in decimal form the record
    (1, 0, True, None) would hash [1010]; the code hashes [10TrueFalse]. *)
Lemma C9_counterexample :
  new_AssetMetadata 1 0 true None = Ok (mkAssetMetadata 1 0 true None)
  /\ status (mkAssetMetadata 1 0 true None)
     = Ok (str_of "95857ff8400120da97efce915424837f22df86102f32257f29a7aa0db7e2363d")
  /\ status_all_decimal (mkAssetMetadata 1 0 true None)
     = str_of "7a5df5ffa0dec2228d90b8d0a0f1b0767b748b0a41314c123075b8289e4e053f"
  /\ status (mkAssetMetadata 1 0 true None)
     <> Ok (status_all_decimal (mkAssetMetadata 1 0 true None)).
Proof. repeat split; vm_compute; congruence. Qed.

(** ** Regular expressions: the matcher and the words of a pattern *)

Lemma lang_nil_nullable r : lang r [] <-> nullable r = true.
Proof.
  split.
  - intros H. remember [] as s eqn:Es. induction H; cbn; try reflexivity;
      try discriminate.
    + apply app_eq_nil in Es as [-> ->]. rewrite IHlang1, IHlang2; auto.
    + rewrite IHlang; auto.
    + rewrite IHlang; auto using orb_true_r.
  - induction r; cbn; try discriminate; intros H.
    + constructor.
    + apply andb_prop in H as [H1 H2].
      change (@nil N) with (@nil N ++ @nil N). constructor; auto.
    + apply orb_prop in H as [H | H]; [apply lang_alt_l | apply lang_alt_r]; auto.
    + constructor.
Qed.

Lemma lang_star_cons r c s :
  lang (Star r) (c :: s) ->
  exists s1 s2, s = s1 ++ s2 /\ lang r (c :: s1) /\ lang (Star r) s2.
Proof.
  intros H. remember (Star r) as r' eqn:Er. remember (c :: s) as s' eqn:Es.
  revert s Es.
  induction H as [| | | | | |r0 s1 s2 H1 _ H2 IH2]; try discriminate.
  injection Er as ->. intros s Es.
  destruct s1 as [|c' s1]; cbn in Es.
  - apply IH2; auto.
  - injection Es as -> <-. eauto.
Qed.

Lemma lang_deriv c r : forall s, lang (deriv c r) s <-> lang r (c :: s).
Proof.
  induction r as [| |p|r1 IH1 r2 IH2|r1 IH1 r2 IH2|r1 IH1]; intros s; cbn.
  - split; inversion 1.
  - split; inversion 1.
  - destruct (p c) eqn:Ep; split; intros H; inversion H; subst.
    + constructor. exact Ep.
    + constructor.
    + congruence.
  - assert (Hcat : lang (Cat (deriv c r1) r2) s -> lang (Cat r1 r2) (c :: s)).
    { intros H. inversion H; subst.
      change (c :: s1 ++ s2) with ((c :: s1) ++ s2).
      constructor; [apply IH1|]; assumption. }
    assert (Hinv : lang (Cat r1 r2) (c :: s) ->
                   lang (Cat (deriv c r1) r2) s
                   \/ (nullable r1 = true /\ lang (deriv c r2) s)).
    { intros H. inversion H as [| |? ? s1 s2 H1 H2 E1 E2| | | |]; subst.
      destruct s1 as [|c' s1]; cbn in E2.
      - subst s2. right. split; [apply lang_nil_nullable, H1 | apply IH2, H2].
      - injection E2 as -> <-. left. constructor; [apply IH1|]; assumption. }
    destruct (nullable r1) eqn:En.
    + split.
      * intros H. inversion H; subst; [auto|].
        change (c :: s) with ([] ++ c :: s). constructor.
        -- apply lang_nil_nullable, En.
        -- apply IH2. assumption.
      * intros H. destruct (Hinv H) as [H' | [_ H']];
          [apply lang_alt_l | apply lang_alt_r]; assumption.
    + split; [exact Hcat|].
      intros H. destruct (Hinv H) as [H' | [H' _]]; [assumption | discriminate].
  - split; intros H; inversion H; subst;
      solve [apply lang_alt_l, IH1; assumption
            | apply lang_alt_r, IH2; assumption].
  - split.
    + intros H. inversion H; subst.
      change (c :: s1 ++ s2) with ((c :: s1) ++ s2).
      constructor; [apply IH1|]; assumption.
    + intros H. destruct (lang_star_cons _ _ _ H) as (s1 & s2 & -> & H1 & H2).
      constructor; [apply IH1|]; assumption.
Qed.

(** The matcher decides the words of a pattern. *)
Lemma matches_lang r s : matches r s = true <-> lang r s.
Proof.
  revert r. induction s as [|c s IH]; intros r; cbn.
  - symmetry. apply lang_nil_nullable.
  - rewrite IH. apply lang_deriv.
Qed.

Lemma re_match_lang r s : re_match r s = true <-> lang r s.
Proof. apply matches_lang. Qed.

(** The characters of a word come from the classes of the pattern. *)
Lemma lang_classes_within (P : N -> Prop) r s :
  lang r s -> classes_within P r -> Forall P s.
Proof.
  induction 1; cbn; intros Hc.
  - constructor.
  - repeat constructor. auto.
  - apply Forall_app. split; [apply IHlang1 | apply IHlang2]; tauto.
  - apply IHlang. tauto.
  - apply IHlang. tauto.
  - constructor.
  - apply Forall_app. split; auto.
Qed.

Lemma lang_cls_inv p s : lang (Cls p) s -> exists c, s = [c] /\ p c = true.
Proof. inversion 1; eauto. Qed.

Lemma lang_cat_inv r1 r2 s :
  lang (Cat r1 r2) s -> exists s1 s2, s = s1 ++ s2 /\ lang r1 s1 /\ lang r2 s2.
Proof. inversion 1; eauto. Qed.

Lemma lang_star_cls p s :
  lang (Star (Cls p)) s <-> Forall (fun c => p c = true) s.
Proof.
  split.
  - intros H. remember (Star (Cls p)) as r eqn:Er.
    induction H; try discriminate; [constructor|].
    injection Er as ->. apply Forall_app. split; [|auto].
    inversion H; subst. repeat constructor. assumption.
  - induction 1 as [|c s Hc _ IH]; [constructor|].
    change (c :: s) with ([c] ++ s). constructor; [constructor|]; assumption.
Qed.

Lemma lang_plus_cls p s :
  lang (Plus (Cls p)) s <-> s <> [] /\ Forall (fun c => p c = true) s.
Proof.
  unfold Plus. split.
  - intros (s1 & s2 & -> & (c & -> & Hc)%lang_cls_inv & H2%lang_star_cls)%lang_cat_inv.
    split; [discriminate|]. constructor; assumption.
  - intros [Hn H]. destruct H as [|c s Hc H]; [congruence|].
    change (c :: s) with ([c] ++ s).
    constructor; [constructor | apply lang_star_cls]; assumption.
Qed.

Lemma lang_dollar s : lang Dollar s <-> s = [] \/ s = [10%N].
Proof.
  unfold Dollar. split.
  - inversion 1 as [| | |? ? ? H1|? ? ? H1| |]; subst.
    + inversion H1. auto.
    + apply lang_cls_inv in H1 as (c & -> & ->%N.eqb_eq). auto.
  - intros [-> | ->]; [apply lang_alt_l | apply lang_alt_r]; constructor.
    reflexivity.
Qed.

(** ** The name grammar *)

(** Turns a statement on character classes into arithmetic on code
    points. *)
Ltac chars_to_N :=
  repeat match goal with
    | |- context [N_of_ascii ?a] =>
        let v := eval vm_compute in (N_of_ascii a) in
        change (N_of_ascii a) with v
    | |- context [str_of ?s] =>
        let v := eval vm_compute in (str_of s) in
        change (str_of s) with v
    end.

Ltac class_arith :=
  unfold name_class, unique_tag_class, channel_class, punctuation,
    none_of, union, range, chr, one_of, is_ascii;
  chars_to_N; cbn [existsb];
  rewrite ?orb_false_r;
  rewrite ?negb_true_iff, ?orb_false_iff, ?orb_true_iff, ?andb_true_iff,
    ?N.leb_le, ?N.eqb_eq, ?N.eqb_neq;
  lia.

Lemma name_class_plain c :
  name_class c = true -> none_of "^~#!" c = true /\ is_ascii c.
Proof. class_arith. Qed.

Lemma unique_tag_class_plain c :
  unique_tag_class c = true -> none_of "~#!/" c = true /\ is_ascii c.
Proof. class_arith. Qed.

Lemma channel_class_plain c :
  channel_class c = true -> none_of "~#!/" c = true /\ is_ascii c.
Proof. class_arith. Qed.

Lemma newline_plain c :
  N.eqb 10 c = true ->
  none_of "^~#!" c = true /\ none_of "~#!/" c = true /\ is_ascii c.
Proof. class_arith. Qed.

Lemma delimiter_plain c :
  c = _SUB_NAME_DELIMITER -> none_of "^~#!" c = true /\ is_ascii c.
Proof. unfold _SUB_NAME_DELIMITER. class_arith. Qed.

(** *** [split] *)

Lemma split_not_nil d s : split d s <> [].
Proof.
  destruct s as [|c s]; cbn; [discriminate|].
  destruct (c =? d)%N; [discriminate|]. destruct (split d s); discriminate.
Qed.

Lemma split_Forall (P : N -> Prop) d s :
  P d -> Forall (Forall P) (split d s) -> Forall P s.
Proof.
  intros Hd. induction s as [|c s IH]; cbn; [constructor|].
  destruct (c =? d)%N eqn:Ec.
  - apply N.eqb_eq in Ec as ->. intros H. inversion H; subst.
    constructor; auto.
  - destruct (split d s) as [|p ps] eqn:Es.
    + intros H. inversion H as [|? ? Hc _]; subst. inversion Hc; subst.
      constructor; auto.
    + intros H. inversion H as [|? ? Hc Hps]; subst. inversion Hc; subst.
      constructor; [assumption|]. apply IH. constructor; assumption.
Qed.

Lemma split_no_delimiter d s :
  Forall (fun c => c <> d) s -> split d s = [s].
Proof.
  induction 1 as [|c s Hc _ IH]; cbn; [reflexivity|].
  apply N.eqb_neq in Hc. rewrite Hc, IH. reflexivity.
Qed.

Lemma split_app_delimiter d l r :
  Forall (fun c => c <> d) l -> split d (l ++ d :: r) = l :: split d r.
Proof.
  induction 1 as [|c s Hc _ IH]; cbn.
  - rewrite N.eqb_refl. reflexivity.
  - apply N.eqb_neq in Hc. rewrite Hc, IH. reflexivity.
Qed.

Lemma split_hd_nil d s : hd [] (split d s) <> [] -> s <> [].
Proof. destruct s; cbn; congruence. Qed.

(** *** What the validity tests say about the characters of a name *)

Lemma match_plain_chars (P : N -> Prop) r s :
  classes_within P r -> re_match r s = true -> Forall P s.
Proof.
  intros Hc Hm. apply re_match_lang in Hm.
  eapply lang_classes_within; eauto.
Qed.

Lemma head_char_not_delimiter d s :
  In d (str_of "^~#!") -> Forall head_char s -> Forall (fun c => c <> d) s.
Proof.
  intros Hd Hs. eapply Forall_impl; [exact Hs|]. intros c [Hc _] ->.
  unfold none_of, one_of in Hc. apply negb_true_iff in Hc.
  rewrite <- not_true_iff_false in Hc. apply Hc.
  apply existsb_exists. exists d. split; [assumption | apply N.eqb_refl].
Qed.

Lemma tag_char_not_delimiter d s :
  In d (str_of "~#!/") -> Forall tag_char s -> Forall (fun c => c <> d) s.
Proof.
  intros Hd Hs. eapply Forall_impl; [exact Hs|]. intros c [Hc _] ->.
  unfold none_of, one_of in Hc. apply negb_true_iff in Hc.
  rewrite <- not_true_iff_false in Hc. apply Hc.
  apply existsb_exists. exists d. split; [assumption | apply N.eqb_refl].
Qed.

Lemma name_class_head c : name_class c = true -> head_char c.
Proof. apply name_class_plain. Qed.

Lemma name_class_tag c : name_class c = true -> tag_char c.
Proof. unfold tag_char. class_arith. Qed.

Lemma newline_head c : N.eqb 10 c = true -> head_char c.
Proof. intros H. split; apply (newline_plain c H). Qed.

Lemma newline_tag c : N.eqb 10 c = true -> tag_char c.
Proof. intros H. split; apply (newline_plain c H). Qed.

Lemma root_valid_chars p :
  _isRootNameValid p = true -> p <> [] /\ Forall head_char p.
Proof.
  unfold _isRootNameValid. intros [Hm _]%andb_prop. split.
  - intros ->. discriminate.
  - revert Hm. apply match_plain_chars.
    unfold _ROOT_NAME_CHARACTERS, AtLeast3, Dollar. cbn [classes_within].
    auto 10 using name_class_head, newline_head.
Qed.

Lemma sub_valid_chars p :
  _isSubNameValid p = true -> Forall head_char p.
Proof.
  unfold _isSubNameValid. intros [Hm _]%andb_prop.
  revert Hm. apply match_plain_chars.
  unfold _SUB_NAME_CHARACTERS, Plus, Dollar. cbn [classes_within].
  auto 10 using name_class_head, newline_head.
Qed.

Lemma before_tag_chars s :
  _isNameValidBeforeTag s = true -> s <> [] /\ Forall head_char s.
Proof.
  unfold _isNameValidBeforeTag.
  destruct (split _SUB_NAME_DELIMITER s) as [|p ps] eqn:Es;
    [destruct (split_not_nil _ _ Es)|].
  intros [Hp Hps]%andb_prop. apply root_valid_chars in Hp as [Hn Hp]. split.
  - apply (split_hd_nil _SUB_NAME_DELIMITER). rewrite Es. exact Hn.
  - apply (split_Forall _ _SUB_NAME_DELIMITER).
    + apply delimiter_plain. reflexivity.
    + rewrite Es. constructor; [assumption|].
      apply Forall_forall. intros q Hq%list_elem_of_In.
      rewrite forallb_forall in Hps. apply sub_valid_chars, Hps, Hq.
Qed.

Lemma unique_tag_chars t :
  _isUniqueTagValid t = true -> t <> [] /\ Forall tag_char t.
Proof.
  unfold _isUniqueTagValid. intros Hm. split.
  - intros ->. discriminate.
  - revert Hm. apply match_plain_chars.
    unfold _UNIQUE_TAG_CHARACTERS, Plus, Dollar. cbn [classes_within].
    repeat apply conj; try exact I; intros c Hc;
      first [apply unique_tag_class_plain, Hc | apply newline_tag, Hc].
Qed.

Lemma unique_indicator_matches l t :
  l <> [] -> Forall head_char l -> t <> [] -> Forall tag_char t ->
  re_match _UNIQUE_INDICATOR (l ++ _UNIQUE_TAG_DELIMITER :: t) = true.
Proof.
  intros Hl Hcl Ht Hct. apply re_match_lang. unfold _UNIQUE_INDICATOR.
  constructor.
  - apply lang_plus_cls. split; [assumption|].
    eapply Forall_impl; [exact Hcl|]. intros c Hc. apply Hc.
  - change (_UNIQUE_TAG_DELIMITER :: t)
      with ([_UNIQUE_TAG_DELIMITER] ++ t).
    constructor; [constructor; reflexivity|].
    rewrite <- (app_nil_r t). constructor.
    + apply lang_plus_cls. split; [assumption|].
      eapply Forall_impl; [exact Hct|]. intros c Hc. apply Hc.
    + apply lang_dollar. auto.
Qed.

Lemma typed_UNIQUE asset :
  get_error_for_asset_typed asset UNIQUE =
  if MAX_NAME_LENGTH <? len asset
  then Some (msg_max_length MAX_NAME_LENGTH)
  else
    let parts := split _UNIQUE_TAG_DELIMITER asset in
    if (length parts =? 1)%nat
    then Some (gettext (str_of "Not a unique tag."))
    else if negb (_isNameValidBeforeTag (hd [] parts))
            || negb (_isUniqueTagValid (List.last parts []))
    then Some (gettext (str_of "Unique name contains invalid characters (Valid characters are: A-Z a-z 0-9 @ $ % & * ( ) [ ] { } _ . ? : -)"))
    else None.
Proof. reflexivity. Qed.

(** C8 (as amended): a name [left#tag] whose left side passes the
    root/sub test of the unique branch and whose tag matches the unique-tag
    pattern is accepted exactly when its overall length is at most
    [MAX_NAME_LENGTH] = 32. *)
Theorem C8_unique_name_accepted (left tag : str) :
  _isNameValidBeforeTag left = true ->
  _isUniqueTagValid tag = true ->
  get_error_for_asset_name (left ++ _UNIQUE_TAG_DELIMITER :: tag) = None
  <-> len (left ++ _UNIQUE_TAG_DELIMITER :: tag) <= MAX_NAME_LENGTH.
Proof.
  intros Hl Ht.
  destruct (before_tag_chars _ Hl) as [Hln Hlc].
  destruct (unique_tag_chars _ Ht) as [Htn Htc].
  unfold get_error_for_asset_name.
  destruct (Z.ltb_spec 40 (len (left ++ _UNIQUE_TAG_DELIMITER :: tag)))
    as [H40 | H40].
  { unfold MAX_NAME_LENGTH. split; [discriminate | lia]. }
  rewrite unique_indicator_matches by assumption.
  rewrite typed_UNIQUE.
  destruct (Z.ltb_spec MAX_NAME_LENGTH
              (len (left ++ _UNIQUE_TAG_DELIMITER :: tag))) as [H32 | H32].
  { split; [discriminate | lia]. }
  split; [intros _; exact H32 | intros _].
  cbv zeta.
  rewrite split_app_delimiter, split_no_delimiter.
  - cbn [length hd List.last Nat.eqb]. rewrite Hl, Ht. reflexivity.
  - apply (tag_char_not_delimiter _UNIQUE_TAG_DELIMITER) in Htc;
      [assumption | vm_compute; tauto].
  - apply (head_char_not_delimiter _UNIQUE_TAG_DELIMITER) in Hlc;
      [assumption | vm_compute; tauto].
Qed.

Lemma C8_unique_name_accepted_witness :
  get_error_for_asset_name (unique_example 28) = None.
Proof.
  apply (proj2 (C8_unique_name_accepted (str_of "ABC")
                  (repeat (N_of_ascii "a") 28) eq_refl eq_refl)).
  vm_compute. discriminate.
Defined.

(** C8 as stated fails: [ABC#] followed by 29 letters has 33 characters,
    a valid left side and a valid tag, and is rejected for its length. *)
Lemma C8_counterexample :
  _isNameValidBeforeTag (str_of "ABC") = true
  /\ _isUniqueTagValid (repeat (N_of_ascii "a") 29) = true
  /\ len (unique_example 29) = 33
  /\ get_error_for_asset_name (unique_example 29)
     = Some (str_of "Name is greater than max length of 32.").
Proof. repeat split. Qed.

(** *** An accepted name is ASCII *)

Lemma chr_eq a c : chr a c = true -> c = N_of_ascii a.
Proof. unfold chr. intros H%N.eqb_eq. auto. Qed.

Lemma is_ascii_head s : Forall head_char s -> Forall is_ascii s.
Proof. intros H. eapply Forall_impl; [exact H|]. intros c Hc. apply Hc. Qed.

Lemma is_ascii_tag s : Forall tag_char s -> Forall is_ascii s.
Proof. intros H. eapply Forall_impl; [exact H|]. intros c Hc. apply Hc. Qed.

Lemma but_last_snoc {A} (l : list A) x : but_last (l ++ [x]) = l.
Proof.
  unfold but_last. rewrite length_app. cbn [length].
  replace (length l + 1 - 1)%nat with (length l) by lia.
  apply take_app_length.
Qed.

Lemma none_of_not_delimiter chars d s :
  In d (str_of chars) -> Forall (fun c => none_of chars c = true) s ->
  Forall (fun c => c <> d) s.
Proof.
  intros Hd Hs. eapply Forall_impl; [exact Hs|]. intros c Hc ->.
  unfold none_of, one_of in Hc. apply negb_true_iff in Hc.
  rewrite <- not_true_iff_false in Hc. apply Hc.
  apply existsb_exists. exists d. split; [assumption | apply N.eqb_refl].
Qed.

(** A name that matches a tag indicator has exactly two parts. *)
Lemma tag_indicator_parts (d : ascii) asset :
  In (N_of_ascii d) (str_of "^~#!") -> In (N_of_ascii d) (str_of "~#!/") ->
  N_of_ascii d <> 10%N ->
  re_match (Cat (Plus (Cls (none_of "^~#!")))
              (Cat (Cls (chr d)) (Cat (Plus (Cls (none_of "~#!/"))) Dollar)))
    asset = true ->
  exists l t, asset = l ++ N_of_ascii d :: t
              /\ split (N_of_ascii d) asset = [l; t].
Proof.
  intros Hd1 Hd2 Hd3 Hm. apply re_match_lang in Hm.
  apply lang_cat_inv in Hm as (l & s & -> & [_ Hl]%lang_plus_cls & Hm).
  apply lang_cat_inv in Hm
      as (s1 & s2 & -> & (c & -> & ->%chr_eq)%lang_cls_inv & Hm).
  apply lang_cat_inv in Hm
      as (t & e & -> & [_ Ht]%lang_plus_cls & He%lang_dollar).
  exists l, (t ++ e). split; [reflexivity|].
  cbn [app]. rewrite split_app_delimiter, split_no_delimiter; [reflexivity| |].
  - apply Forall_app. split.
    + apply (none_of_not_delimiter "~#!/"); assumption.
    + destruct He as [-> | ->]; repeat constructor. congruence.
  - apply (none_of_not_delimiter "^~#!"); assumption.
Qed.

Lemma owner_indicator_parts asset :
  re_match _OWNER_INDICATOR asset = true ->
  exists l x, asset = l ++ [x] /\ is_ascii x.
Proof.
  intros Hm. apply re_match_lang in Hm.
  apply lang_cat_inv in Hm as (l & s & -> & _ & Hm).
  apply lang_cat_inv in Hm
      as (s1 & e & -> & (c & -> & ->%chr_eq)%lang_cls_inv & He%lang_dollar).
  destruct He as [-> | ->].
  - exists l, (N_of_ascii "!"). split; [reflexivity | reflexivity].
  - exists (l ++ [N_of_ascii "!"]), 10%N. split; [|reflexivity].
    rewrite <- app_assoc. reflexivity.
Qed.

Lemma ascii_class_name c : name_class c = true -> is_ascii c.
Proof. apply name_class_plain. Qed.

Lemma ascii_class_channel c : channel_class c = true -> is_ascii c.
Proof. apply channel_class_plain. Qed.

Lemma ascii_class_newline c : N.eqb 10 c = true -> is_ascii c.
Proof. apply newline_plain. Qed.

Lemma ascii_class_hash c : chr "#" c = true -> is_ascii c.
Proof. class_arith. Qed.

Lemma ascii_class_dollar c : chr "$" c = true -> is_ascii c.
Proof. class_arith. Qed.

Create HintDb ascii_classes.

#[local] Hint Resolve ascii_class_name ascii_class_channel
  ascii_class_newline ascii_class_hash ascii_class_dollar : ascii_classes.

Lemma msg_channel_tag_ascii t :
  _isMsgChannelTagValid t = true -> Forall is_ascii t.
Proof.
  unfold _isMsgChannelTagValid. intros [Hm _]%andb_prop. revert Hm.
  apply match_plain_chars.
  unfold _MSG_CHANNEL_TAG_CHARACTERS, Plus, Dollar. cbn [classes_within].
  auto 10 with ascii_classes.
Qed.

Lemma qualifier_ascii p :
  _isQualifierNameValid p = true -> Forall is_ascii p.
Proof.
  unfold _isQualifierNameValid. intros [Hm _]%andb_prop. revert Hm.
  apply match_plain_chars.
  unfold _QUALIFIER_NAME_CHARACTERS, AtLeast3, Dollar. cbn [classes_within].
  auto 10 with ascii_classes.
Qed.

Lemma sub_qualifier_ascii p :
  _isSubQualifierNameValid p = true -> Forall is_ascii p.
Proof.
  unfold _isSubQualifierNameValid. intros [Hm _]%andb_prop. revert Hm.
  apply match_plain_chars.
  unfold _SUB_QUALIFIER_NAME_CHARACTERS, Plus, Dollar. cbn [classes_within].
  auto 10 with ascii_classes.
Qed.

Lemma restricted_ascii p :
  _isRestrictedNameValid p = true -> Forall is_ascii p.
Proof.
  unfold _isRestrictedNameValid. intros [Hm _]%andb_prop. revert Hm.
  apply match_plain_chars.
  unfold _RESTRICTED_NAME_CHARACTERS, AtLeast3, Dollar. cbn [classes_within].
  auto 10 with ascii_classes.
Qed.

Lemma qualifier_before_tag_ascii s :
  _isQualifierNameValidBeforeTag s = true -> Forall is_ascii s.
Proof.
  unfold _isQualifierNameValidBeforeTag.
  destruct (split _SUB_NAME_DELIMITER s) as [|p ps] eqn:Es;
    [destruct (split_not_nil _ _ Es)|].
  cbn [hd tl].
  destruct (_isQualifierNameValid p) eqn:Ep; [|discriminate]. cbn [negb].
  destruct (2 <? length (p :: ps))%nat; [discriminate|]. intros Hps.
  apply (split_Forall _ _SUB_NAME_DELIMITER); [reflexivity|].
  rewrite Es. constructor; [apply qualifier_ascii, Ep|].
  apply Forall_forall. intros q Hq%list_elem_of_In.
  rewrite forallb_forall in Hps. apply sub_qualifier_ascii, Hps, Hq.
Qed.

(** What an accepted name of each type has passed. *)
Lemma typed_accepted asset t :
  get_error_for_asset_typed asset t = None ->
  match t with
  | ROOT | SUB => _isNameValidBeforeTag asset = true
  | UNIQUE =>
      _isNameValidBeforeTag (hd [] (split _UNIQUE_TAG_DELIMITER asset)) = true
      /\ _isUniqueTagValid
           (List.last (split _UNIQUE_TAG_DELIMITER asset) []) = true
  | MSG_CHANNEL =>
      _isNameValidBeforeTag (hd [] (split _MSG_CHANNEL_DELIMITER asset)) = true
      /\ _isMsgChannelTagValid
           (List.last (split _MSG_CHANNEL_DELIMITER asset) []) = true
  | OWNER => _isNameValidBeforeTag (but_last asset) = true
  | QUALIFIER | SUB_QUALIFIER => _isQualifierNameValidBeforeTag asset = true
  | RESTRICTED => _isRestrictedNameValid asset = true
  end.
Proof.
  unfold get_error_for_asset_typed.
  destruct t;
    repeat match goal with
      | |- context [bool_decide (?a = ?b)] =>
          first [ rewrite (bool_decide_eq_true_2 (a = b)) by reflexivity
                | rewrite (bool_decide_eq_false_2 (a = b)) by discriminate ]
      end;
    cbn [andb orb negb]; cbv zeta;
    repeat match goal with
      | |- (if ?c then _ else _) = None -> _ =>
          let E := fresh "E" in destruct c eqn:E; [try discriminate|]
      | |- (if ?c then _ else _) = None -> _ =>
          let E := fresh "E" in destruct c eqn:E; [|try discriminate]
      end;
    try discriminate; intros _;
    repeat match goal with
      | H : negb _ = false |- _ => apply negb_false_iff in H
      | H : _ || _ = false |- _ => apply orb_false_iff in H as [? ?]
      | H : _ && _ = false |- _ => idtac
      end;
    auto.
Qed.

Lemma tagged_name_ascii (d : ascii) asset (tag_valid : str -> bool) :
  In (N_of_ascii d) (str_of "^~#!") -> In (N_of_ascii d) (str_of "~#!/") ->
  N_of_ascii d <> 10%N -> is_ascii (N_of_ascii d) ->
  (forall t, tag_valid t = true -> Forall is_ascii t) ->
  re_match (Cat (Plus (Cls (none_of "^~#!")))
              (Cat (Cls (chr d)) (Cat (Plus (Cls (none_of "~#!/"))) Dollar)))
    asset = true ->
  _isNameValidBeforeTag (hd [] (split (N_of_ascii d) asset)) = true ->
  tag_valid (List.last (split (N_of_ascii d) asset) []) = true ->
  Forall is_ascii asset.
Proof.
  intros Hd1 Hd2 Hd3 Hd4 Htag Hm.
  destruct (tag_indicator_parts d asset Hd1 Hd2 Hd3 Hm) as (l & t & -> & ->).
  cbn [hd List.last]. intros [_ Hl]%before_tag_chars Ht%Htag.
  apply Forall_app. split; [apply is_ascii_head, Hl|].
  constructor; assumption.
Qed.

Lemma accepted_name_ascii asset :
  get_error_for_asset_name asset = None -> Forall is_ascii asset.
Proof.
  unfold get_error_for_asset_name.
  destruct (40 <? len asset); [discriminate|].
  destruct (re_match _UNIQUE_INDICATOR asset) eqn:E1.
  { intros [Hl Ht]%typed_accepted.
    apply (tagged_name_ascii "#" asset _isUniqueTagValid);
      try assumption; try (vm_compute; intuition congruence).
    intros t Hv. apply is_ascii_tag, (unique_tag_chars _ Hv). }
  destruct (re_match _MSG_CHANNEL_INDICATOR asset) eqn:E2.
  { intros [Hl Ht]%typed_accepted.
    apply (tagged_name_ascii "~" asset _isMsgChannelTagValid);
      try assumption; try (vm_compute; intuition congruence).
    apply msg_channel_tag_ascii. }
  destruct (re_match _OWNER_INDICATOR asset) eqn:E3.
  { intros [_ Hl]%typed_accepted%before_tag_chars.
    destruct (owner_indicator_parts _ E3) as (l & x & -> & Hx).
    rewrite but_last_snoc in Hl. apply Forall_app. split.
    - apply is_ascii_head, Hl.
    - repeat constructor. exact Hx. }
  destruct (re_match _QUALIFIER_INDICATOR asset).
  { intros H%typed_accepted. apply qualifier_before_tag_ascii, H. }
  destruct (re_match _SUB_QUALIFIER_INDICATOR asset).
  { intros H%typed_accepted. apply qualifier_before_tag_ascii, H. }
  destruct (re_match _RESTRICTED_INDICATOR asset).
  { intros H%typed_accepted. apply restricted_ascii, H. }
  destruct (_isAssetNameASubAsset asset);
    intros [_ H]%typed_accepted%before_tag_chars; apply is_ascii_head, H.
Qed.

(** ** Bytes, hexadecimal and integers *)

Lemma b2z_range b : 0 <= b2z b < 256.
Proof.
  unfold b2z. pose proof (Byte.to_N_bounded b). lia.
Qed.

Lemma z2b_b2z b : z2b (b2z b) = b.
Proof.
  unfold z2b. rewrite Z.mod_small by apply b2z_range.
  unfold b2z. rewrite N2Z.id, Byte.of_to_N. reflexivity.
Qed.

Lemma b2z_z2b z : 0 <= z < 256 -> b2z (z2b z) = z.
Proof.
  intros Hz. unfold z2b, b2z. rewrite Z.mod_small by assumption.
  destruct (Byte.of_N (Z.to_N z)) as [b|] eqn:E.
  - apply Byte.to_of_N in E. rewrite E. lia.
  - apply Byte.of_N_None_iff in E. lia.
Qed.

Lemma hex_app a b : hex (a ++ b) = hex a ++ hex b.
Proof. unfold hex. rewrite map_app, concat_app. reflexivity. Qed.

Lemma length_hex b : length (hex b) = (2 * length b)%nat.
Proof.
  induction b as [|x b IH]; [reflexivity|].
  change (hex (x :: b))
    with (hex_digit (b2z x / 16) :: hex_digit (b2z x mod 16) :: hex b).
  cbn [length]. lia.
Qed.

Lemma hex_digit_value z :
  0 <= z < 16 ->
  hex_value (hex_digit z) = Some z /\ is_space (hex_digit z) = false.
Proof.
  intros Hz.
  assert (H : In z (List.map Z.of_nat (seq 0 16))).
  { apply in_map_iff. exists (Z.to_nat z). split; [lia|]. apply in_seq. lia. }
  cbn in H. intuition (subst; split; reflexivity).
Qed.

Lemma fromhex_fuel_hex b : forall fuel,
  (length b < fuel)%nat -> fromhex_fuel fuel (hex b) = Ok b.
Proof.
  induction b as [|x b IH]; intros [|fuel] Hf; cbn in Hf; try lia;
    [reflexivity|].
  pose proof (b2z_range x) as Hx.
  destruct (hex_digit_value (b2z x / 16)) as [Hv1 Hs1];
    [split; [apply Z.div_pos | apply Z.div_lt_upper_bound]; lia|].
  destruct (hex_digit_value (b2z x mod 16)) as [Hv2 _];
    [apply Z.mod_pos_bound; lia|].
  change (hex (x :: b))
    with (hex_digit (b2z x / 16) :: hex_digit (b2z x mod 16) :: hex b).
  cbn [fromhex_fuel]. rewrite Hs1, Hv1, Hv2, IH by lia.
  cbn [mbind result_bind mret result_ret].
  rewrite <- Z.div_mod by lia. rewrite z2b_b2z. reflexivity.
Qed.

Lemma fromhex_hex b : fromhex (hex b) = Ok b.
Proof. apply fromhex_fuel_hex. rewrite length_hex. lia. Qed.

Lemma is_hex_str_hex b : is_hex_str (hex b) = true.
Proof.
  unfold is_hex_str. rewrite fromhex_hex, length_hex. apply Nat.eqb_refl.
Qed.

Lemma length_int_to_bytes_little n i : length (int_to_bytes_little n i) = n.
Proof. revert i. induction n; intros i; cbn; auto. Qed.

Lemma int_from_to_bytes_little n : forall i,
  0 <= i < 256 ^ Z.of_nat n ->
  int_from_bytes_little (int_to_bytes_little n i) = i.
Proof.
  induction n as [|n IH]; intros i Hi.
  - cbn in *. lia.
  - rewrite Nat2Z.inj_succ, Z.pow_succ_r in Hi by lia.
    cbn [int_to_bytes_little int_from_bytes_little].
    rewrite IH.
    + unfold z2b. destruct (Byte.of_N (Z.to_N (i mod 256))) as [b|] eqn:E.
      * unfold b2z. apply Byte.to_of_N in E. rewrite E.
        pose proof (Z.mod_pos_bound i 256). pose proof (Z.div_mod i 256). lia.
      * apply Byte.of_N_None_iff in E.
        pose proof (Z.mod_pos_bound i 256). lia.
    + split; [apply Z.div_pos | apply Z.div_lt_upper_bound]; lia.
Qed.

Lemma int_to_hex_nonneg i n :
  0 <= i < 256 ^ Z.of_nat n ->
  int_to_hex i n = Ok (hex (int_to_bytes_little n i)).
Proof.
  intros Hi. unfold int_to_hex.
  assert (H0 : 0 <= 256 ^ Z.of_nat n / 2) by (apply Z.div_pos; lia).
  replace (i <? _) with false by lia.
  replace (_ <=? i) with false by lia.
  replace (i <? 0) with false by lia. reflexivity.
Qed.

(** ** UTF-8 on ASCII text *)

Lemma length_ascii_bytes s : length (ascii_bytes s) = length s.
Proof. apply length_map. Qed.

Lemma encode_ascii_text s :
  Forall is_ascii s -> encode s = Ok (ascii_bytes s).
Proof.
  induction 1 as [|c s Hc _ IH]; [reflexivity|].
  cbn [encode]. unfold encode_char. unfold is_ascii in Hc.
  replace (Z.of_N c <? 128) with true by lia.
  rewrite IH. reflexivity.
Qed.

Lemma decode_fuel_ascii_text s : forall fuel,
  Forall is_ascii s -> (length s <= fuel)%nat ->
  decode_fuel fuel (ascii_bytes s) = Ok s.
Proof.
  induction s as [|c s IH]; intros fuel Hs Hf; [destruct fuel; reflexivity|].
  inversion Hs as [|? ? Hc Hs']; subst. unfold is_ascii in Hc.
  destruct fuel as [|fuel]; cbn in Hf; [lia|].
  cbn [ascii_bytes List.map decode_fuel decode_char].
  rewrite b2z_z2b by lia.
  replace (Z.of_N c <? 128) with true by lia.
  cbn [drop]. change (List.map _ s) with (ascii_bytes s).
  rewrite IH by (auto; lia). cbn. rewrite N2Z.id. reflexivity.
Qed.

Lemma decode_ascii_text s :
  Forall is_ascii s -> decode (ascii_bytes s) = Ok s.
Proof.
  intros Hs. apply decode_fuel_ascii_text; [assumption|].
  rewrite length_ascii_bytes. lia.
Qed.

(** ** The encoder, step by step *)

Lemma op_push_prefix n :
  0 <= n <= 255 -> _op_push n = Ok (hex (push_prefix n)).
Proof.
  intros Hn. unfold _op_push, push_prefix.
  destruct (n <? opcodes.OP_PUSHDATA1).
  - apply int_to_hex_nonneg. change (256 ^ Z.of_nat 1) with 256. lia.
  - replace (n <=? 255) with true by lia.
    rewrite int_to_hex_nonneg by (change (256 ^ Z.of_nat 1) with 256; lia).
    reflexivity.
Qed.

Lemma construct_asset_script payload :
  (2 <= length payload <= 255)%nat ->
  construct_script
    [Op opcodes.OP_ASSET; Hex (hex payload); Op opcodes.OP_DROP]
  = Ok (hex ([xc0] ++ push_prefix (Z.of_nat (length payload)) ++ payload
             ++ [x75])).
Proof.
  intros Hl. cbn [construct_script]. rewrite is_hex_str_hex.
  unfold push_script. rewrite fromhex_hex. cbn [mbind result_bind].
  destruct payload as [|b0 [|b1 payload]]; cbn in Hl; try lia.
  rewrite op_push_prefix by (cbn [length]; lia).
  cbn [mbind result_bind mret result_ret].
  rewrite !hex_app. rewrite <- !app_assoc. reflexivity.
Qed.

Lemma flag_hex_byte b : flag_hex b = hex [if b then x01 else x00].
Proof. destruct b; reflexivity. Qed.

Lemma length_create_payload asset amount divisions reissuable data :
  length (create_payload asset amount divisions reissuable data)
  = (15 + length asset
     + match data with Some d => S (length d) | None => 1 end)%nat.
Proof.
  unfold create_payload.
  rewrite !length_app, length_ascii_bytes, length_int_to_bytes_little.
  destruct data; cbn [length]; change (length RVN_ASSET_PREFIX) with 3%nat;
    change (length RVN_ASSET_TYPE_CREATE) with 1%nat; lia.
Qed.

Lemma create_payload_length_bound asset amount divisions reissuable data :
  (length asset <= 40)%nat ->
  (data = None \/ exists d, data = Some d /\ length d = 34%nat) ->
  (16 <= length (create_payload asset amount divisions reissuable data)
   <= 91)%nat.
Proof.
  intros Hlen Hdata. rewrite length_create_payload.
  destruct Hdata as [-> | (d & -> & Hd)]; lia.
Qed.

Lemma accepted_name_length asset :
  get_error_for_asset_name asset = None -> (length asset <= 40)%nat.
Proof.
  unfold get_error_for_asset_name, len.
  destruct (40 <? Z.of_nat (length asset)) eqn:E; [discriminate|]. lia.
Qed.

Section CreateScript.
Variable address_to_script : str -> result str.
Variables (address asset : str) (amount divisions : Z) (reissuable : bool)
  (associated_data : option bytes) (base : bytes).
Hypothesis Hbase : address_to_script address = Ok (hex base).
Hypothesis Hname : get_error_for_asset_name asset = None.
Hypothesis Hascii : Forall is_ascii asset.
Hypothesis Hamount : 0 < amount <= DEFAULT_ASSET_AMOUNT_MAX * COIN.
Hypothesis Hdivisions : 0 <= divisions <= 8.
Hypothesis Hdata :
  associated_data = None
  \/ exists d, associated_data = Some d /\ length d = 34%nat.

Let payload :=
  create_payload asset amount divisions reissuable associated_data.

Lemma generate_create_script_bytes :
  generate_create_script address_to_script address asset amount divisions
    reissuable associated_data
  = Ok (hex (base ++ [xc0] ++ push_prefix (Z.of_nat (length payload))
             ++ payload ++ [x75])).
Proof.
  pose proof (accepted_name_length _ Hname) as Hlen.
  assert (Hpl : (16 <= length payload <= 91)%nat)
    by (apply create_payload_length_bound; assumption).
  unfold generate_create_script. rewrite Hname. cbn [truthy].
  replace (negb (0 <? amount) || _) with false by lia.
  replace ((divisions <? 0) || _) with false by lia.
  assert (Hd : truthy associated_data
               && negb (length (default [] associated_data) =? 34)%nat
               = false).
  { destruct Hdata as [-> | (d & -> & Hd)]; [reflexivity|].
    cbn. rewrite Hd. apply andb_false_r. }
  rewrite Hd.
  rewrite (int_to_hex_nonneg (len asset) 1)
    by (unfold len; change (256 ^ Z.of_nat 1) with 256; lia).
  rewrite encode_ascii_text by assumption.
  rewrite (int_to_hex_nonneg amount 8)
    by (change (256 ^ Z.of_nat 8) with 18446744073709551616;
        unfold DEFAULT_ASSET_AMOUNT_MAX, COIN in Hamount; lia).
  rewrite (int_to_hex_nonneg divisions 1)
    by (change (256 ^ Z.of_nat 1) with 256; lia).
  cbn [mbind result_bind mret result_ret].
  match goal with
  | |- context [Hex ?d] =>
      replace d with (hex payload)
  end.
  - rewrite construct_asset_script by lia.
    cbn [mbind result_bind mret result_ret]. rewrite Hbase.
    cbn [mbind result_bind mret result_ret]. rewrite <- hex_app.
    reflexivity.
  - unfold payload, create_payload. rewrite !hex_app, !flag_hex_byte.
    repeat f_equal.
    destruct Hdata as [-> | (d & -> & Hlen34)]; [reflexivity|].
    destruct d; [discriminate|]. reflexivity.
Qed.
End CreateScript.

(** ** The disassembler on a base script followed by an asset script *)


Lemma slice_app_l {A} (l r : list A) a b :
  (b <= length l)%nat -> slice (l ++ r) a b = slice l a b.
Proof.
  intros Hb. unfold slice.
  destruct (Nat.le_gt_cases a b) as [Hab | Hab].
  - rewrite drop_app_le by lia. apply take_app_le. rewrite length_drop. lia.
  - replace (b - a)%nat with 0%nat by lia. reflexivity.
Qed.

Lemma slice_middle {A} (l m r : list A) a b :
  a = length l -> b = (length l + length m)%nat ->
  slice (l ++ m ++ r) a b = m.
Proof.
  intros -> ->. unfold slice. rewrite drop_app_length.
  replace (length l + length m - length l)%nat with (length m) by lia.
  apply take_app_length.
Qed.

Lemma script_GetOp_from_eq fuel b i :
  script_GetOp_from fuel b i =
  if (i <? length b)%nat then
    match fuel with
    | O => Raise RecursionError
    | S fuel' =>
        op ← script_GetOp_step b i;
        rest ← script_GetOp_from fuel' b (snd op);
        mret (op :: rest)
    end
  else Ok [].
Proof. destruct fuel; reflexivity. Qed.

(** More turns than needed change nothing. *)
Lemma script_GetOp_from_more fuel : forall b i ops k,
  script_GetOp_from fuel b i = Ok ops ->
  script_GetOp_from (fuel + k) b i = Ok ops.
Proof.
  induction fuel as [|fuel IH]; intros b i ops k;
    rewrite !script_GetOp_from_eq;
    destruct (i <? length b)%nat eqn:Ei; try discriminate; auto.
  cbn [Nat.add].
  destruct (script_GetOp_step b i) as [op|]; [|discriminate].
  cbn [mbind result_bind].
  destruct (script_GetOp_from fuel b (snd op)) as [rest|] eqn:Er;
    [|discriminate].
  rewrite (IH _ _ _ k Er). auto.
Qed.

(** A turn that stays within [base] is the same turn in [base ++ rest]. *)
Lemma script_GetOp_step_app base rest i op :
  script_GetOp_step base i = Ok op -> (snd op <= length base)%nat ->
  script_GetOp_step (base ++ rest) i = Ok op.
Proof.
  unfold script_GetOp_step.
  destruct (base !! i) as [b|] eqn:Eb; [|discriminate].
  rewrite (lookup_app_l_Some _ _ _ _ Eb).
  destruct (b2z b <=? opcodes.OP_PUSHDATA4); [|auto].
  destruct (b2z b =? opcodes.OP_PUSHDATA1).
  { destruct (base !! S i) as [n|] eqn:En; [|discriminate].
    rewrite (lookup_app_l_Some _ _ _ _ En). cbn [mbind result_bind].
    intros [= <-] Hs. cbn [snd Nat.add] in *. rewrite slice_app_l by lia.
    reflexivity. }
  destruct (b2z b =? opcodes.OP_PUSHDATA2).
  { destruct (S i + 2 <=? length base)%nat eqn:El; [|discriminate].
    apply Nat.leb_le in El.
    replace (S i + 2 <=? length (base ++ rest))%nat with true
      by (symmetry; apply Nat.leb_le; rewrite length_app; lia).
    cbn [mbind result_bind].
    intros [= <-] Hs. cbn [snd Nat.add] in *.
    rewrite (slice_app_l base rest (S i)) by lia.
    rewrite slice_app_l by lia. reflexivity. }
  destruct (b2z b =? opcodes.OP_PUSHDATA4).
  { destruct (S i + 4 <=? length base)%nat eqn:El; [|discriminate].
    apply Nat.leb_le in El.
    replace (S i + 4 <=? length (base ++ rest))%nat with true
      by (symmetry; apply Nat.leb_le; rewrite length_app; lia).
    cbn [mbind result_bind].
    intros [= <-] Hs. cbn [snd Nat.add] in *.
    rewrite (slice_app_l base rest (S i)) by lia.
    rewrite slice_app_l by lia. reflexivity. }
  cbn [mbind result_bind].
  intros [= <-] Hs. cbn [snd Nat.add] in *. rewrite slice_app_l by lia.
  reflexivity.
Qed.

Lemma script_GetOp_from_app base rest fuel : forall i ops g r,
  script_GetOp_from fuel base i = Ok ops ->
  Forall (fun o => (snd o <= length base)%nat) ops ->
  (i <= length base)%nat ->
  script_GetOp_from g (base ++ rest) (length base) = Ok r ->
  script_GetOp_from (g + fuel) (base ++ rest) i = Ok (ops ++ r).
Proof.
  induction fuel as [|fuel IH]; intros i ops g r;
    rewrite (script_GetOp_from_eq _ base);
    destruct (i <? length base)%nat eqn:Ei; try discriminate.
  - intros [= <-] _ Hi Hr. apply Nat.ltb_ge in Ei.
    replace i with (length base) by lia.
    apply script_GetOp_from_more, Hr.
  - destruct (script_GetOp_step base i) as [op|] eqn:Eop; [|discriminate].
    cbn [mbind result_bind].
    destruct (script_GetOp_from fuel base (snd op)) as [ops'|] eqn:Er;
      [|discriminate].
    intros [= <-] Hall Hi Hr. inversion Hall as [|? ? Hop Hall']; subst.
    rewrite Nat.add_succ_r, script_GetOp_from_eq.
    apply Nat.ltb_lt in Ei.
    replace (i <? length (base ++ rest))%nat with true
      by (symmetry; apply Nat.ltb_lt; rewrite length_app; lia).
    rewrite (script_GetOp_step_app _ _ _ _ Eop Hop).
    cbn [mbind result_bind].
    rewrite (IH _ _ _ _ Er Hall' Hop Hr). reflexivity.
  - intros [= <-] _ Hi Hr. apply Nat.ltb_ge in Ei.
    replace i with (length base) by lia.
    apply script_GetOp_from_more, Hr.
Qed.

(** The turns on an opcode above the pushes, on a direct push and on
    [OP_PUSHDATA1]. *)
Lemma script_GetOp_step_plain b i x :
  b !! i = Some x -> opcodes.OP_PUSHDATA4 < b2z x ->
  script_GetOp_step b i = Ok (b2z x, None, S i).
Proof.
  intros Hx Hop. unfold script_GetOp_step. rewrite Hx.
  replace (b2z x <=? opcodes.OP_PUSHDATA4) with false by lia. reflexivity.
Qed.

Lemma script_GetOp_step_direct b i x :
  b !! i = Some x -> b2z x < opcodes.OP_PUSHDATA1 ->
  script_GetOp_step b i
  = Ok (b2z x, Some (slice b (S i) (S i + Z.to_nat (b2z x))),
        (S i + Z.to_nat (b2z x))%nat).
Proof.
  intros Hx Hop. unfold script_GetOp_step. rewrite Hx.
  unfold opcodes.OP_PUSHDATA1 in Hop.
  replace (b2z x <=? opcodes.OP_PUSHDATA4) with true
    by (unfold opcodes.OP_PUSHDATA4; lia).
  replace (b2z x =? opcodes.OP_PUSHDATA1) with false
    by (unfold opcodes.OP_PUSHDATA1; lia).
  replace (b2z x =? opcodes.OP_PUSHDATA2) with false
    by (unfold opcodes.OP_PUSHDATA2; lia).
  replace (b2z x =? opcodes.OP_PUSHDATA4) with false
    by (unfold opcodes.OP_PUSHDATA4; lia).
  reflexivity.
Qed.

Lemma script_GetOp_step_pushdata1 b i y :
  b !! i = Some x4c -> b !! S i = Some y ->
  script_GetOp_step b i
  = Ok (76, Some (slice b (S i + 1) (S i + 1 + Z.to_nat (b2z y))),
        (S i + 1 + Z.to_nat (b2z y))%nat).
Proof.
  intros Hx Hy. unfold script_GetOp_step. rewrite Hx.
  change (b2z x4c) with 76. cbn [Z.leb Z.eqb Z.compare Pos.compare
    Pos.compare_cont opcodes.OP_PUSHDATA4 opcodes.OP_PUSHDATA1 Pos.eqb].
  rewrite Hy. reflexivity.
Qed.

Lemma script_GetOp_from_end fuel b i :
  (length b <= i)%nat -> script_GetOp_from fuel b i = Ok [].
Proof.
  intros Hi. rewrite script_GetOp_from_eq.
  destruct (Nat.ltb_spec i (length b)); [lia | reflexivity].
Qed.

Lemma script_GetOp_from_turn fuel b i op :
  script_GetOp_step b i = Ok op ->
  script_GetOp_from (S fuel) b i
  = (rest ← script_GetOp_from fuel b (snd op); mret (op :: rest)).
Proof.
  intros Hop. rewrite script_GetOp_from_eq.
  destruct (Nat.ltb_spec i (length b)) as [Hi | Hi].
  - rewrite Hop. reflexivity.
  - unfold script_GetOp_step in Hop.
    rewrite (lookup_ge_None_2 _ _ Hi) in Hop. discriminate.
Qed.

(** The three operations of an asset script behind [base]. *)
Lemma asset_script_ops base payload fuel :
  (length payload <= 255)%nat -> (3 <= fuel)%nat ->
  let n := length payload in
  let p := push_prefix (Z.of_nat n) in
  script_GetOp_from fuel (base ++ [xc0] ++ p ++ payload ++ [x75])
    (length base)
  = Ok [(192, None, S (length base));
        (Z.min (Z.of_nat n) 76, Some payload,
         (S (length base) + length p + n)%nat);
        (117, None, S (S (length base) + length p + n))].
Proof.
  intros Hn Hf n p. destruct fuel as [|[|[|fuel]]]; try lia.
  set (L := length base).
  unfold p, push_prefix.
  destruct (Z.of_nat n <? opcodes.OP_PUSHDATA1) eqn:En;
    unfold opcodes.OP_PUSHDATA1 in En.
  - (* a direct push *)
    set (full := base ++ [xc0] ++ [z2b (Z.of_nat n)] ++ payload ++ [x75]).
    assert (Hlen : length full = (L + 3 + n)%nat)
      by (unfold full; rewrite !length_app; cbn [length]; lia).
    assert (H0 : full !! L = Some xc0)
      by (apply list_lookup_middle; reflexivity).
    assert (H1 : full !! S L = Some (z2b (Z.of_nat n))).
    { unfold full. rewrite (app_assoc base). apply list_lookup_middle.
      rewrite length_app. cbn [length]. lia. }
    assert (H2 : full !! (S L + 1 + n)%nat = Some x75).
    { unfold full. rewrite !app_assoc. apply list_lookup_middle.
      rewrite !length_app. cbn [length]. lia. }
    assert (Hb : b2z (z2b (Z.of_nat n)) = Z.of_nat n)
      by (apply b2z_z2b; lia).
    rewrite (script_GetOp_from_turn _ _ _ _
               (script_GetOp_step_plain _ _ _ H0 eq_refl)).
    cbn [snd].
    assert (Hd : b2z (z2b (Z.of_nat n)) < opcodes.OP_PUSHDATA1)
      by (rewrite Hb; unfold opcodes.OP_PUSHDATA1; lia).
    rewrite (script_GetOp_from_turn _ _ _ _
               (script_GetOp_step_direct _ _ _ H1 Hd)).
    cbn [snd]. rewrite Hb, Nat2Z.id.
    assert (Hs : slice full (S (S L)) (S (S L) + n) = payload).
    { unfold full. rewrite 2!app_assoc. apply slice_middle;
        rewrite !length_app; cbn [length]; lia. }
    rewrite Hs.
    replace (S (S L) + n)%nat with (S L + 1 + n)%nat by lia.
    rewrite (script_GetOp_from_turn _ _ _ _
               (script_GetOp_step_plain _ _ _ H2 eq_refl)).
    cbn [snd]. rewrite script_GetOp_from_end by lia.
    cbn [mbind result_bind mret result_ret length].
    rewrite Z.min_l by lia. repeat f_equal; lia.
  - (* OP_PUSHDATA1 *)
    set (full := base ++ [xc0] ++ [x4c; z2b (Z.of_nat n)] ++ payload ++ [x75]).
    assert (Hlen : length full = (L + 4 + n)%nat)
      by (unfold full; rewrite !length_app; cbn [length]; lia).
    assert (H0 : full !! L = Some xc0)
      by (apply list_lookup_middle; reflexivity).
    assert (H1 : full !! S L = Some x4c).
    { unfold full. rewrite (app_assoc base). apply list_lookup_middle.
      rewrite length_app. cbn [length]. lia. }
    assert (H1' : full !! S (S L) = Some (z2b (Z.of_nat n))).
    { unfold full. change ([x4c; z2b (Z.of_nat n)] ++ payload ++ [x75])
        with ([x4c] ++ z2b (Z.of_nat n) :: payload ++ [x75]).
      rewrite !app_assoc. apply list_lookup_middle.
      rewrite !length_app. cbn [length]. lia. }
    assert (H2 : full !! (S L + 2 + n)%nat = Some x75).
    { unfold full. rewrite !app_assoc. apply list_lookup_middle.
      rewrite !length_app. cbn [length]. lia. }
    assert (Hb : b2z (z2b (Z.of_nat n)) = Z.of_nat n)
      by (apply b2z_z2b; lia).
    rewrite (script_GetOp_from_turn _ _ _ _
               (script_GetOp_step_plain _ _ _ H0 eq_refl)).
    cbn [snd].
    rewrite (script_GetOp_from_turn _ _ _ _
               (script_GetOp_step_pushdata1 _ _ _ H1 H1')).
    cbn [snd]. rewrite Hb, Nat2Z.id.
    assert (Hs : slice full (S (S L) + 1) (S (S L) + 1 + n) = payload).
    { unfold full. rewrite 2!app_assoc. apply slice_middle;
        rewrite !length_app; cbn [length]; lia. }
    rewrite Hs.
    replace (S (S L) + 1 + n)%nat with (S L + 2 + n)%nat by lia.
    rewrite (script_GetOp_from_turn _ _ _ _
               (script_GetOp_step_plain _ _ _ H2 eq_refl)).
    cbn [snd]. rewrite script_GetOp_from_end by lia.
    cbn [mbind result_bind mret result_ret length].
    rewrite Z.min_r by lia. repeat f_equal; lia.
Qed.

Lemma script_GetOp_asset_script base ops payload :
  script_GetOp base = Ok ops ->
  Forall (fun o => (snd o <= length base)%nat) ops ->
  (length payload <= 255)%nat ->
  let n := length payload in
  let p := push_prefix (Z.of_nat n) in
  script_GetOp (base ++ [xc0] ++ p ++ payload ++ [x75])
  = Ok (ops ++ [(192, None, S (length base));
                (Z.min (Z.of_nat n) 76, Some payload,
                 (S (length base) + length p + n)%nat);
                (117, None, S (S (length base) + length p + n))]).
Proof.
  intros Hops Hall Hn n p. unfold script_GetOp.
  rewrite length_app, Nat.add_comm.
  apply script_GetOp_from_app; [exact Hops | exact Hall | lia |].
  apply asset_script_ops; [exact Hn|].
  assert (1 <= length p)%nat
    by (unfold p, push_prefix; destruct (_ <? _); cbn; lia).
  rewrite !length_app. cbn [length]. lia.
Qed.

(** ** The byte reader *)

Lemma reads_new d : reads (Util.new (Some d)) d d.
Proof. repeat split. cbn. lia. Qed.

Lemma read_bytes_reads r d x rest :
  reads r d (x ++ rest) ->
  exists r', Util.read_bytes r (length x) = Ok (x, r') /\ reads r' d rest.
Proof.
  intros (Hd & Hc & Hr). unfold Util.read_bytes. rewrite Hd.
  assert (Hl : length (drop (Util.cursor r) d) = (length x + length rest)%nat)
    by (rewrite Hr; apply length_app).
  rewrite length_drop in Hl.
  destruct (Nat.leb_spec (Util.cursor r + length x) (length d)); [|lia].
  eexists. split.
  - unfold slice.
    replace (Util.cursor r + length x - Util.cursor r)%nat with (length x)
      by lia.
    rewrite Hr, take_app_length. reflexivity.
  - repeat split; cbn [Util.data Util.cursor]; [lia|].
    rewrite <- drop_drop, Hr. apply drop_app_length.
Qed.

Lemma read_byte_reads r d b rest :
  reads r d (b :: rest) ->
  exists r', Util.read_byte_as_int r = Ok (b2z b, r') /\ reads r' d rest.
Proof.
  intros (Hd & Hc & Hr). unfold Util.read_byte_as_int. rewrite Hd.
  assert (Hl : length (drop (Util.cursor r) d) = S (length rest))
    by (rewrite Hr; reflexivity).
  rewrite length_drop in Hl.
  assert (Hb : d !! Util.cursor r = Some b).
  { rewrite <- (Nat.add_0_r (Util.cursor r)), <- lookup_drop, Hr.
    reflexivity. }
  rewrite Hb. eexists. split; [reflexivity|].
  repeat split; cbn [Util.data Util.cursor]; [lia|].
  replace (S (Util.cursor r)) with (Util.cursor r + 1)%nat by lia.
  rewrite <- drop_drop, Hr. reflexivity.
Qed.

(** ** The decoder on a create script *)

Lemma byte_eqb_false x y : b2z x <> b2z y -> Byte.eqb x y = false.
Proof.
  intros H. destruct (Byte.eqb x y) eqn:E; [|reflexivity].
  apply Byte.byte_dec_bl in E. congruence.
Qed.

Lemma find_after_push_prefix n rest :
  0 <= n <= 255 ->
  find (push_prefix n ++ RVN_ASSET_PREFIX ++ rest) RVN_ASSET_PREFIX
  = Z.of_nat (length (push_prefix n)).
Proof.
  intros Hn. unfold push_prefix, find.
  change RVN_ASSET_PREFIX with [x72; x76; x6e].
  destruct (n <? opcodes.OP_PUSHDATA1) eqn:En;
    unfold opcodes.OP_PUSHDATA1 in En.
  - cbn [app find_from is_prefix].
    rewrite (byte_eqb_false "r" (z2b n))
      by (rewrite b2z_z2b by lia; change (b2z "r") with 114; lia).
    reflexivity.
  - cbn [app find_from is_prefix].
    change (Byte.eqb "r" x4c) with false. cbn [andb].
    change (Byte.eqb "v" "r") with false. rewrite andb_false_r.
    reflexivity.
Qed.

Lemma scan_skip script decoded ops : forall i todo,
  Forall (fun o => op_of o <> opcodes.OP_ASSET) ops ->
  scan script decoded i (ops ++ todo)
  = scan script decoded (i + length ops) todo.
Proof.
  induction ops as [|[[op v] idx] ops IH]; intros i todo Hall.
  - cbn. rewrite Nat.add_0_r. reflexivity.
  - inversion Hall as [|? ? Hop Hall']; subst. cbn [op_of fst] in Hop.
    cbn [app scan length].
    replace (op =? opcodes.OP_ASSET) with false by lia.
    rewrite IH by assumption. f_equal. lia.
Qed.

Section DecodeCreate.
Variables (asset : str) (amount divisions : Z) (reissuable : bool)
  (associated_data : option bytes).
Hypothesis Hascii : Forall is_ascii asset.
Hypothesis Hlen : (length asset <= 40)%nat.
Hypothesis Hamount : 0 <= amount < 256 ^ Z.of_nat 8.
Hypothesis Hdivisions : 0 <= divisions < 256.
Hypothesis Hdata :
  associated_data = None
  \/ exists d, associated_data = Some d /\ length d = 34%nat.

Let payload :=
  create_payload asset amount divisions reissuable associated_data.
Let p := push_prefix (Z.of_nat (length payload)).

Lemma is_well_formed_create (decoded : list script_op) i op idx :
  decoded !! (i + 1)%nat = Some (op, Some payload, idx) ->
  is_well_formed decoded i (p ++ payload ++ [x75]) = Ok true.
Proof.
  intros Hi.
  assert (Hpl : (16 <= length payload <= 91)%nat)
    by (apply create_payload_length_bound; assumption).
  unfold is_well_formed, item, script_op in *.
  assert (Hlt : (i + 1 <? length decoded)%nat = true)
    by (apply Nat.ltb_lt, (lookup_lt_Some _ _ _ Hi)).
  rewrite Hlt, Hi. cbn [mbind result_bind data_of fst snd].
  rewrite op_push_prefix by lia. cbn [mbind result_bind].
  rewrite fromhex_hex. cbn [mbind result_bind mret result_ret].
  rewrite bool_decide_eq_true_2; reflexivity.
Qed.

Lemma value_script_create (decoded : list script_op) i op idx :
  decoded !! (i + 1)%nat = Some (op, Some payload, idx) ->
  value_script decoded i (p ++ payload ++ [x75])
  = Ok (Ret (MetadataAssetVoutInformation AssetVoutType.CREATE true asset
               amount divisions reissuable associated_data)).
Proof.
  intros Hi.
  assert (Hpl : (16 <= length payload <= 91)%nat)
    by (apply create_payload_length_bound; assumption).
  unfold value_script. rewrite (is_well_formed_create _ _ _ _ Hi).
  cbn [mbind result_bind].
  assert (Hp : p ++ payload ++ [x75]
               = p ++ RVN_ASSET_PREFIX ++ RVN_ASSET_TYPE_CREATE
                 ++ [z2b (len asset)] ++ ascii_bytes asset
                 ++ int_to_bytes_little 8 amount ++ [z2b divisions]
                 ++ [if reissuable then x01 else x00]
                 ++ match associated_data with
                    | Some d => x01 :: d
                    | None => [x00]
                    end ++ [x75]).
  { unfold payload, create_payload. rewrite <- !app_assoc. reflexivity. }
  assert (Hfind : find (p ++ payload ++ [x75]) RVN_ASSET_PREFIX
                  = Z.of_nat (length p))
    by (rewrite Hp; apply find_after_push_prefix; lia).
  rewrite Hfind.
  destruct (Z.ltb_spec (Z.of_nat (length p)) 0); [lia|].
  destruct (Nat.ltb_spec (length (p ++ payload ++ [x75]))
              (length RVN_ASSET_PREFIX + 3)).
  { rewrite !length_app in *. change (length RVN_ASSET_PREFIX) with 3%nat in *.
    lia. }
  rewrite Hp, Nat2Z.id, (app_assoc p), <- length_app, drop_app_length.
  match goal with
  | |- context [Util.new (Some ?d)] => pose proof (reads_new d) as R0
  end.
  destruct (read_bytes_reads _ _ _ _ R0) as (r1 & E1 & R1).
  change (length RVN_ASSET_TYPE_CREATE) with 1%nat in E1.
  rewrite E1. cbn [mbind result_bind].
  rewrite bool_decide_eq_true_2 by reflexivity.
  destruct (read_byte_reads _ _ _ _ R1) as (r2 & E2 & R2).
  rewrite E2. cbn [mbind result_bind].
  rewrite b2z_z2b by (unfold len; lia).
  unfold len. rewrite Nat2Z.id, <- length_ascii_bytes.
  destruct (read_bytes_reads _ _ _ _ R2) as (r3 & E3 & R3).
  rewrite E3. cbn [mbind result_bind].
  rewrite decode_ascii_text by assumption. cbn [mbind result_bind].
  rewrite bool_decide_eq_false_2 by discriminate.
  destruct (read_bytes_reads _ _ _ _ R3) as (r4 & E4 & R4).
  rewrite length_int_to_bytes_little in E4.
  rewrite E4. cbn [mbind result_bind].
  rewrite int_from_to_bytes_little by assumption.
  rewrite bool_decide_eq_false_2 by discriminate.
  destruct (read_byte_reads _ _ _ _ R4) as (r5 & E5 & R5).
  rewrite E5. cbn [mbind result_bind].
  destruct (read_byte_reads _ _ _ _ R5) as (r6 & E6 & R6).
  rewrite E6. cbn [mbind result_bind].
  rewrite bool_decide_eq_true_2 by reflexivity.
  rewrite b2z_z2b by lia.
  assert (Hr : (b2z (if reissuable then x01 else x00) =? 1) = reissuable)
    by (destruct reissuable; reflexivity).
  rewrite Hr.
  destruct Hdata as [Hd | (d & Hd & Hd34)]; rewrite Hd in *.
  - destruct (read_byte_reads _ _ _ _ R6) as (r7 & E7 & R7).
    rewrite E7. reflexivity.
  - destruct (read_byte_reads _ _ _ _ R6) as (r7 & E7 & R7).
    rewrite E7. cbn [mbind result_bind].
    change (b2z x01 =? 1) with true. cbv iota.
    destruct (read_bytes_reads _ _ _ _ R7) as (r8 & E8 & R8).
    rewrite Hd34 in E8. rewrite E8. reflexivity.
Qed.
End DecodeCreate.

(** ** The recursion budgets are never used up *)

Lemma script_GetOp_step_outcome b i :
  (i < length b)%nat ->
  (exists op, script_GetOp_step b i = Ok op /\ (i < snd op)%nat)
  \/ script_GetOp_step b i = Raise MalformedBitcoinScript.
Proof.
  intros Hi. unfold script_GetOp_step.
  destruct (lookup_lt_is_Some_2 b i Hi) as [x ->].
  destruct (b2z x <=? opcodes.OP_PUSHDATA4);
    [|left; eexists; split; [reflexivity | cbn; lia]].
  destruct (b2z x =? opcodes.OP_PUSHDATA1).
  { destruct (b !! S i); [|right; reflexivity].
    left. eexists. split; [reflexivity | cbn; lia]. }
  destruct (b2z x =? opcodes.OP_PUSHDATA2).
  { destruct (S i + 2 <=? length b)%nat; [|right; reflexivity].
    left. eexists. split; [reflexivity | cbn; lia]. }
  destruct (b2z x =? opcodes.OP_PUSHDATA4).
  { destruct (S i + 4 <=? length b)%nat; [|right; reflexivity].
    left. eexists. split; [reflexivity | cbn; lia]. }
  left. eexists. split; [reflexivity | cbn; lia].
Qed.

Lemma script_GetOp_from_outcome fuel : forall b i,
  (length b <= i + fuel)%nat ->
  (exists ops, script_GetOp_from fuel b i = Ok ops)
  \/ script_GetOp_from fuel b i = Raise MalformedBitcoinScript.
Proof.
  induction fuel as [|fuel IH]; intros b i Hf; rewrite script_GetOp_from_eq;
    destruct (Nat.ltb_spec i (length b)) as [Hi | Hi]; eauto; try lia.
  destruct (script_GetOp_step_outcome b i Hi) as [(op & -> & Hop) | ->];
    [|right; reflexivity].
  cbn [mbind result_bind].
  destruct (IH b (snd op) ltac:(lia)) as [[ops ->] | ->]; cbn; eauto.
Qed.

(** The disassembler ends: it returns the operations or signals a
    malformed script. *)
Lemma script_GetOp_outcome b :
  (exists ops, script_GetOp b = Ok ops)
  \/ script_GetOp b = Raise MalformedBitcoinScript.
Proof. apply script_GetOp_from_outcome. lia. Qed.

Lemma decode_char_length b c n :
  decode_char b = Some (c, n) -> (1 <= n)%nat.
Proof.
  unfold decode_char. destruct b as [|b0 t]; [discriminate|].
  repeat match goal with
    | |- context [if ?c then _ else _] => destruct c
    | |- context [match ?l with [] => _ | _ :: _ => _ end] => destruct l
    end; try discriminate; intros [= <- <-]; lia.
Qed.

Lemma decode_fuel_outcome fuel : forall b,
  (length b <= fuel)%nat ->
  (exists s, decode_fuel fuel b = Ok s)
  \/ decode_fuel fuel b = Raise UnicodeDecodeError.
Proof.
  induction fuel as [|fuel IH]; intros [|x b] Hf; cbn [length] in Hf;
    try lia; try (left; eexists; reflexivity).
  cbn [decode_fuel].
  destruct (decode_char (x :: b)) as [[c n]|] eqn:Ec; [|right; reflexivity].
  apply decode_char_length in Ec.
  destruct (IH (drop n (x :: b))) as [[s Hs] | Hs].
  - rewrite length_drop. cbn [length]. lia.
  - rewrite Hs. left. eexists. reflexivity.
  - rewrite Hs. right. reflexivity.
Qed.

(** Decoding ends: it returns the text or signals bytes that are not
    UTF-8. *)
Lemma decode_outcome b :
  (exists s, decode b = Ok s) \/ decode b = Raise UnicodeDecodeError.
Proof. apply decode_fuel_outcome. lia. Qed.

Lemma length_slice_le {A} (s : list A) a b :
  (length (slice s a b) <= b - a)%nat.
Proof. unfold slice. rewrite length_take. lia. Qed.

Section ParseOutcome.
Variables (parse : str -> result obj) (verifier : str).
Hypothesis Hparse :
  forall s, (length s < length verifier)%nat -> parse_outcome (parse s).

Lemma scan_body_outcome i ch st :
  (i < length verifier)%nat ->
  parse_outcome (scan_body parse verifier i ch st).
Proof.
  intros Hi. unfold scan_body.
  destruct (_ && _); [left; eexists; reflexivity|].
  generalize (count_parenthesis i ch (close_name verifier i st)).
  intros st'. unfold close_or_token.
  destruct (last_parenthesis_index st') as [p|].
  - destruct (l_tok st' =? r_tok st')%nat; [|left; eexists; reflexivity].
    destruct (Hparse (slice verifier (p + 1) i)) as [[node ->] | ->].
    + pose proof (length_slice_le verifier (p + 1) i). lia.
    + left. eexists. reflexivity.
    + right. reflexivity.
  - destruct (existsb _ _); left; eexists; reflexivity.
Qed.

Lemma scan_loop_outcome rest : forall i st,
  (i + length rest = length verifier)%nat ->
  parse_outcome (scan_loop parse verifier i rest st).
Proof.
  induction rest as [|ch rest IH]; intros i st Hi; cbn [scan_loop].
  - left. eexists. reflexivity.
  - cbn [length] in Hi.
    destruct (scan_body_outcome i ch st ltac:(lia)) as [[[st'|node] ->] | ->];
      cbn [mbind result_bind].
    + apply IH. lia.
    + left. eexists. reflexivity.
    + right. reflexivity.
Qed.

Lemma parse_body_outcome : parse_outcome (parse_body parse verifier).
Proof.
  unfold parse_body.
  destruct (length verifier =? 0)%nat; [left; eexists; reflexivity|].
  destruct (80 <? length verifier)%nat; [left; eexists; reflexivity|].
  destruct (scan_loop_outcome verifier 0 (mkScan None None 0 0 [])
              ltac:(lia)) as [[[st|node] ->] | ->];
    cbn [mbind result_bind];
    [|left; eexists; reflexivity | right; reflexivity].
  destruct (not_pass _ _ _ _) as [resolved items].
  destruct (negb resolved); [left; eexists; reflexivity|].
  destruct (and_pass _ _ _) as [[[] items_a]|node];
    try (left; eexists; reflexivity).
  destruct (or_pass _ _ _) as [[[] items_o]|node];
    try (left; eexists; reflexivity).
  destruct (1 <? length items_o)%nat; [left; eexists; reflexivity|].
  destruct items_o; [right | left; eexists]; reflexivity.
Qed.
End ParseOutcome.

Lemma parse_string_depth_outcome depth : forall verifier,
  (length verifier < depth)%nat ->
  parse_outcome (parse_string_depth depth verifier).
Proof.
  induction depth as [|depth IH]; intros verifier Hd; [lia|].
  cbn [parse_string_depth]. apply parse_body_outcome.
  intros s Hs. apply IH. lia.
Qed.

Lemma parse_string_outcome verifier : parse_outcome (parse_string verifier).
Proof. apply parse_string_depth_outcome. lia. Qed.

(** ** What the decoder returns *)

(** Case analysis along a chain of binds that ends in [Ok (Ret v)]. *)
Ltac unbind :=
  repeat match goal with
    | |- mbind _ ?m = _ -> _ =>
        let x := fresh "x" in
        destruct m as [x|]; [|discriminate]; cbn [mbind result_bind];
        try destruct x
    | |- (if ?c then _ else _) = _ -> _ => destruct c
    | |- match (if ?c then _ else _) with _ => _ end = _ -> _ => destruct c
    | |- match ?x with _ => _ end = _ -> _ => destruct x
    | |- mret _ = _ -> _ => intros [= <-]
    | |- Ok _ = _ -> _ => intros [= <-]
    | |- Raise _ = _ -> _ => discriminate
    end.

Lemma tag_script_result decoded portion v :
  tag_script decoded portion = Ok (Ret v) -> is_tag v = true.
Proof. unfold tag_script. unbind; reflexivity. Qed.

Lemma value_script_result decoded i portion v :
  value_script decoded i portion = Ok (Ret v) ->
  is_transferable v = true /\ is_tag v = false.
Proof.
  unfold value_script. unbind; split; reflexivity.
Qed.

Lemma scan_result script decoded todo : forall i v,
  scan script decoded i todo = Ok v ->
  v = NoAssetVoutInformation \/ is_tag v = true
  \/ (is_transferable v = true /\ is_tag v = false).
Proof.
  induction todo as [|[[op d] idx] todo IH]; intros i v; cbn [scan].
  - intros [= <-]. auto.
  - destruct (op =? opcodes.OP_ASSET); [|apply IH].
    destruct (i =? 0)%nat.
    + destruct (tag_script decoded (drop idx script)) as [[| |w]|] eqn:E;
        cbn [mbind result_bind]; try discriminate.
      * apply IH.
      * intros [= <-]. auto.
      * intros [= <-]. right. left. eapply tag_script_result, E.
    + destruct (value_script decoded i (drop idx script)) as [[| |w]|] eqn:E;
        cbn [mbind result_bind]; try discriminate.
      * apply IH.
      * intros [= <-]. auto.
      * intros [= <-]. right. right. eapply value_script_result, E.
Qed.

(** A decoded result is the sentinel, a tag, or a transferable result;
    so a result of type NONE is the sentinel. *)
Lemma decoded_result_kinds script v :
  get_asset_info_from_script script = Ok (Some v) ->
  v = NoAssetVoutInformation \/ is_tag v = true
  \/ (is_transferable v = true /\ is_tag v = false).
Proof.
  unfold get_asset_info_from_script.
  destruct (script_GetOp script) as [decoded|[]]; try discriminate.
  destruct (scan script decoded 0 decoded) as [w|[]] eqn:E; try discriminate.
  - intros [= <-]. eapply scan_result, E.
  - intros [= <-]. auto.
Qed.

Lemma decoded_none_is_sentinel script v :
  get_asset_info_from_script script = Ok (Some v) ->
  get_type v = AssetVoutType.NONE -> v = NoAssetVoutInformation.
Proof.
  intros Hv Ht.
  destruct (decoded_result_kinds _ _ Hv) as [H | [H | [H _]]]; [exact H| |];
    destruct v; try discriminate; try reflexivity.
  cbn in Ht. subst. discriminate.
Qed.

(** ** The decoder on garbage *)

(** C2: a script that disassembles without a malformed-script condition
    and carries the marker followed by an owner payload whose name is not
    UTF-8 makes the decoder raise; only running out of bytes, that is an
    [IndexError], is turned into the sentinel. *)
Theorem C2_garbage_name_raises :
  Transaction.script_GetOp garbage_name_script
  = Ok [(81, None, 1%nat); (192, None, 2%nat);
        (6, Some [x72; x76; x6e; x6f; x01; xff], 9%nat); (117, None, 10%nat)]
  /\ get_asset_info_from_script garbage_name_script = Raise UnicodeDecodeError
  /\ get_asset_info_from_script truncated_name_script
     = Ok (Some NoAssetVoutInformation)
  /\ (forall script, get_asset_info_from_script script <> Raise IndexError).
Proof.
  repeat split. intros script. unfold get_asset_info_from_script.
  destruct (script_GetOp_outcome script) as [[decoded ->] | ->];
    [|discriminate].
  destruct (scan script decoded 0 decoded) as [v|[]]; discriminate.
Qed.

(** ** Ordinary base scripts *)

(** The base scripts of the two address types are plain: not empty,
    disassembled completely, without the asset marker. *)
Lemma address_scripts_plain h :
  length h = 20%nat ->
  plain_base_script (p2pkh_script h) = true
  /\ plain_base_script (p2sh_script h) = true.
Proof.
  intros Hh.
  do 21 (destruct h as [|? h]; try discriminate).
  split; vm_compute; reflexivity.
Qed.

(** ** Round trip of a create script *)

Lemma lookup_second_after {A} (l : list A) a b c :
  (l ++ [a; b; c]) !! (length l + 1)%nat = Some b.
Proof.
  rewrite lookup_app_r by lia.
  replace (length l + 1 - length l)%nat with 1%nat by lia. reflexivity.
Qed.

(** C1: for a name the validator accepts, an amount in
    (0, 21,000,000,000 * COIN], divisions in [0, 8] and associated data
    that is absent or 34 bytes long, the script of [generate_create_script]
    over an ordinary base script decodes to a CREATE result with the same
    name, amount, divisions, reissuable flag and associated data, and with
    [well_formed_script] true. *)
Theorem C1_create_round_trip
  (address_to_script : str -> result str) (address asset : str)
  (amount divisions : Z) (reissuable : bool)
  (associated_data : option bytes) (base : bytes) :
  address_to_script address = Ok (hex base) ->
  plain_base_script base = true ->
  get_error_for_asset_name asset = None ->
  0 < amount <= DEFAULT_ASSET_AMOUNT_MAX * COIN ->
  0 <= divisions <= 8 ->
  (associated_data = None
   \/ exists d, associated_data = Some d /\ length d = 34%nat) ->
  exists script b,
    generate_create_script address_to_script address asset amount divisions
      reissuable associated_data = Ok script
    /\ fromhex script = Ok b
    /\ get_asset_info_from_script b
       = Ok (Some (MetadataAssetVoutInformation AssetVoutType.CREATE true
                     asset amount divisions reissuable associated_data)).
Proof.
  intros Hbase Hplain Hname Hamount Hdiv Hdata.
  pose proof (accepted_name_ascii _ Hname) as Hascii.
  pose proof (accepted_name_length _ Hname) as Hlen.
  assert (Hamount' : 0 <= amount < 256 ^ Z.of_nat 8)
    by (change (256 ^ Z.of_nat 8) with 18446744073709551616;
        unfold DEFAULT_ASSET_AMOUNT_MAX, COIN in Hamount; lia).
  assert (Hdiv' : 0 <= divisions < 256) by lia.
  set (payload := create_payload asset amount divisions reissuable
                    associated_data).
  assert (Hpl : (16 <= length payload <= 91)%nat)
    by (apply create_payload_length_bound; assumption).
  set (p := push_prefix (Z.of_nat (length payload))).
  exists (hex (base ++ [xc0] ++ p ++ payload ++ [x75])),
         (base ++ [xc0] ++ p ++ payload ++ [x75]).
  split; [|split].
  - apply generate_create_script_bytes; assumption.
  - apply fromhex_hex.
  - unfold plain_base_script in Hplain.
    destruct (Transaction.script_GetOp base) as [[|o ops]|] eqn:Eops;
      try discriminate.
    assert (Hall : Forall (fun o => op_of o <> opcodes.OP_ASSET
                                    /\ (snd o <= length base)%nat) (o :: ops)).
    { apply Forall_forall. intros x Hx%list_elem_of_In.
      rewrite forallb_forall in Hplain.
      apply Hplain in Hx. apply andb_prop in Hx as [H1 H2].
      split; [|apply Nat.leb_le, H2].
      apply negb_true_iff in H1. lia. }
    unfold get_asset_info_from_script, p.
    rewrite (script_GetOp_asset_script base (o :: ops) payload Eops)
      by first [lia | eapply Forall_impl; [exact Hall|]; intros x Hx; apply Hx].
    fold p.
    rewrite scan_skip
      by (eapply Forall_impl; [exact Hall|]; intros x Hx; apply Hx).
    cbn [scan]. change (192 =? opcodes.OP_ASSET) with true. cbv iota.
    cbn [Nat.add length Nat.eqb].
    assert (Hdrop : drop (S (length base))
                      (base ++ [xc0] ++ p ++ payload ++ [x75])
                    = p ++ payload ++ [x75]).
    { rewrite (app_assoc base).
      replace (S (length base)) with (length (base ++ [xc0]))
        by (rewrite length_app; cbn [length]; lia).
      apply drop_app_length. }
    rewrite Hdrop.
    unfold p, payload.
    erewrite value_script_create; try eassumption; [reflexivity|].
    apply (lookup_second_after (o :: ops)).
Qed.

Lemma C1_create_round_trip_witness :
  exists script b,
    generate_create_script (fun _ => Ok (hex p2pkh_example)) (str_of "address")
      (str_of "FOO") (100 * COIN) 0 true None = Ok script
    /\ fromhex script = Ok b
    /\ get_asset_info_from_script b
       = Ok (Some (MetadataAssetVoutInformation AssetVoutType.CREATE true
                     (str_of "FOO") (100 * COIN) 0 true None)).
Proof.
  apply (C1_create_round_trip (fun _ => Ok (hex p2pkh_example))
           (str_of "address") (str_of "FOO") (100 * COIN) 0 true None
           p2pkh_example);
    [reflexivity | reflexivity | reflexivity | vm_compute; split; congruence
    | lia | left; reflexivity].
Defined.

(* ================================================================= *)
(** * Further properties of the code *)

(** ** The decoder behind an ordinary base script *)

Lemma can_read_amount_reads r d rest n :
  reads r d rest ->
  Util.can_read_amount r n = Ok (n <=? length rest)%nat.
Proof.
  intros (Hd & Hc & Hr). unfold Util.can_read_amount. rewrite Hd. f_equal.
  assert (Hl : length rest = (length d - Util.cursor r)%nat)
    by (rewrite <- Hr, length_drop; reflexivity).
  destruct (Nat.leb_spec (Util.cursor r + n) (length d));
    destruct (Nat.leb_spec n (length rest)); try reflexivity; lia.
Qed.

Lemma is_well_formed_push (decoded : list script_op) i op idx payload :
  (length payload <= 255)%nat ->
  decoded !! (i + 1)%nat = Some (op, Some payload, idx) ->
  is_well_formed decoded i
    (push_prefix (Z.of_nat (length payload)) ++ payload ++ [x75]) = Ok true.
Proof.
  intros Hpl Hi.
  unfold is_well_formed, item, script_op in *.
  assert (Hlt : (i + 1 <? length decoded)%nat = true)
    by (apply Nat.ltb_lt, (lookup_lt_Some _ _ _ Hi)).
  rewrite Hlt, Hi. cbn [mbind result_bind data_of fst snd].
  rewrite op_push_prefix by lia. cbn [mbind result_bind].
  rewrite fromhex_hex. cbn [mbind result_bind mret result_ret].
  rewrite bool_decide_eq_true_2; reflexivity.
Qed.

(** What the decoder makes of an asset script behind a plain base script
    is what [value_script] makes of the asset portion. *)
Lemma decode_behind_base base payload v :
  plain_base_script base = true -> (length payload <= 255)%nat ->
  (forall (decoded : list script_op) i op idx,
      decoded !! (i + 1)%nat = Some (op, Some payload, idx) ->
      value_script decoded i
        (push_prefix (Z.of_nat (length payload)) ++ payload ++ [x75])
      = Ok (Ret v)) ->
  get_asset_info_from_script
    (base ++ [xc0] ++ push_prefix (Z.of_nat (length payload)) ++ payload
     ++ [x75]) = Ok (Some v).
Proof.
  intros Hplain Hpl Hvalue.
  set (p := push_prefix (Z.of_nat (length payload))).
  unfold plain_base_script in Hplain.
  destruct (Transaction.script_GetOp base) as [[|o ops]|] eqn:Eops;
    try discriminate.
  assert (Hall : Forall (fun o => op_of o <> opcodes.OP_ASSET
                                  /\ (snd o <= length base)%nat) (o :: ops)).
  { apply Forall_forall. intros x Hx%list_elem_of_In.
    rewrite forallb_forall in Hplain.
    apply Hplain in Hx. apply andb_prop in Hx as [H1 H2].
    split; [|apply Nat.leb_le, H2].
    apply negb_true_iff in H1. lia. }
  unfold get_asset_info_from_script, p.
  rewrite (script_GetOp_asset_script base (o :: ops) payload Eops)
    by first [lia | eapply Forall_impl; [exact Hall|]; intros x Hx; apply Hx].
  fold p.
  rewrite scan_skip
    by (eapply Forall_impl; [exact Hall|]; intros x Hx; apply Hx).
  cbn [scan]. change (192 =? opcodes.OP_ASSET) with true. cbv iota.
  cbn [Nat.add length Nat.eqb].
  assert (Hdrop : drop (S (length base))
                    (base ++ [xc0] ++ p ++ payload ++ [x75])
                  = p ++ payload ++ [x75]).
  { rewrite (app_assoc base).
    replace (S (length base)) with (length (base ++ [xc0]))
      by (rewrite length_app; cbn [length]; lia).
    apply drop_app_length. }
  rewrite Hdrop. unfold p.
  erewrite Hvalue; [reflexivity|].
  apply (lookup_second_after (o :: ops)).
Qed.

(** The start of [value_script] on a payload: the prefix is found behind
    the push prefix and the reader stands on the operation byte. *)
Lemma value_script_prefix payload' :
  (1 <= length payload')%nat ->
  (length (RVN_ASSET_PREFIX ++ payload') <= 255)%nat ->
  let payload := RVN_ASSET_PREFIX ++ payload' in
  let portion := push_prefix (Z.of_nat (length payload)) ++ payload ++ [x75] in
  (find portion RVN_ASSET_PREFIX <? 0) = false
  /\ (length portion <? length RVN_ASSET_PREFIX + 3)%nat = false
  /\ drop (Z.to_nat (find portion RVN_ASSET_PREFIX) + length RVN_ASSET_PREFIX)
       portion = payload' ++ [x75].
Proof.
  intros Hne Hpl payload portion.
  assert (Hpl' : (length payload <= 255)%nat) by exact Hpl.
  set (p := push_prefix (Z.of_nat (length payload))).
  assert (Hp1 : (1 <= length p)%nat)
    by (unfold p, push_prefix; destruct (_ <? _); cbn; lia).
  assert (Hfind : find portion RVN_ASSET_PREFIX = Z.of_nat (length p)).
  { unfold portion, payload. rewrite <- app_assoc.
    apply find_after_push_prefix. lia. }
  rewrite Hfind. repeat split.
  - lia.
  - apply Nat.ltb_ge. unfold portion. fold p. unfold payload.
    rewrite !length_app. change (length RVN_ASSET_PREFIX) with 3%nat.
    cbn [length]. lia.
  - rewrite Nat2Z.id. unfold portion, payload. fold p.
    rewrite <- app_assoc, (app_assoc p), <- length_app.
    apply drop_app_length.
Qed.

(** Lengths of the pieces of a payload. *)
Ltac payload_length :=
  rewrite ?length_app, ?length_ascii_bytes, ?length_int_to_bytes_little;
  change (length RVN_ASSET_PREFIX) with 3%nat;
  change (length RVN_ASSET_TYPE_CREATE) with 1%nat;
  change (length RVN_ASSET_TYPE_OWNER) with 1%nat;
  change (length RVN_ASSET_TYPE_TRANSFER) with 1%nat;
  change (length RVN_ASSET_TYPE_REISSUE) with 1%nat;
  cbn [length].

(** The operation byte and the name of a payload, as [value_script] reads
    them. *)
Ltac value_script_start Hi Hne Hpl :=
  unfold value_script;
  rewrite (is_well_formed_push _ _ _ _ _ Hpl Hi);
  cbn [mbind result_bind];
  let Hf := fresh "Hf" in
  let Hl := fresh "Hl" in
  let Hd := fresh "Hd" in
  destruct (value_script_prefix _ Hne Hpl) as (Hf & Hl & Hd);
  cbv zeta in Hf, Hl, Hd; rewrite Hf, Hl, Hd; clear Hf Hl Hd.

Ltac next_bytes R :=
  let r := fresh "r" in
  let E := fresh "E" in
  let R' := fresh "R" in
  destruct (read_bytes_reads _ _ _ _ R) as (r & E & R');
  rewrite ?length_int_to_bytes_little in E;
  change (length RVN_ASSET_TYPE_CREATE) with 1%nat in E;
  change (length RVN_ASSET_TYPE_OWNER) with 1%nat in E;
  change (length RVN_ASSET_TYPE_TRANSFER) with 1%nat in E;
  change (length RVN_ASSET_TYPE_REISSUE) with 1%nat in E;
  cbn [length] in E;
  rewrite E;
  cbn [mbind result_bind]; clear E.

Ltac next_byte R :=
  let r := fresh "r" in
  let E := fresh "E" in
  let R' := fresh "R" in
  destruct (read_byte_reads _ _ _ _ R) as (r & E & R');
  rewrite E; cbn [mbind result_bind]; clear E.

(** ** Round trip of an owner script *)

Lemma value_script_owner (decoded : list script_op) i op idx asset :
  Forall is_ascii asset -> (length asset <= 250)%nat ->
  decoded !! (i + 1)%nat = Some (op, Some (owner_payload asset), idx) ->
  value_script decoded i
    (push_prefix (Z.of_nat (length (owner_payload asset)))
     ++ owner_payload asset ++ [x75])
  = Ok (Ret (OwnerAssetVoutInformation true asset)).
Proof.
  intros Hascii Hlen Hi. unfold owner_payload in *.
  assert (Hne : (1 <= length (RVN_ASSET_TYPE_OWNER ++ [z2b (len asset)]
                               ++ ascii_bytes asset))%nat)
    by (payload_length; lia).
  assert (Hpl : (length (RVN_ASSET_PREFIX ++ RVN_ASSET_TYPE_OWNER
                         ++ [z2b (len asset)] ++ ascii_bytes asset)
                 <= 255)%nat)
    by (payload_length; lia).
  value_script_start Hi Hne Hpl.
  rewrite <- !app_assoc.
  match goal with
  | |- context [Util.new (Some ?d)] => pose proof (reads_new d) as R0
  end.
  next_bytes R0.
  rewrite bool_decide_eq_false_2 by discriminate.
  rewrite bool_decide_eq_true_2 by reflexivity.
  next_byte R.
  rewrite b2z_z2b by (unfold len; lia).
  unfold len. rewrite Nat2Z.id, <- length_ascii_bytes.
  next_bytes R1.
  rewrite decode_ascii_text by assumption. cbn [mbind result_bind].
  rewrite bool_decide_eq_true_2 by reflexivity. reflexivity.
Qed.

(** ** Owner names *)

Lemma typed_OWNER asset :
  get_error_for_asset_typed asset OWNER =
  if MAX_NAME_LENGTH <? len asset
  then Some (msg_max_length MAX_NAME_LENGTH)
  else if negb (_isNameValidBeforeTag (but_last asset))
  then Some (gettext (str_of "Owner name contains invalid characters (Valid characters are: A-Z 0-9 _ .) (special characters can't be the first or last characters)"))
  else None.
Proof. reflexivity. Qed.

(** A name that a type accepts is within the length that the type
    allows. *)
Lemma typed_accepted_length asset t :
  get_error_for_asset_typed asset t = None ->
  len asset <= MAX_NAME_LENGTH
  /\ (t = ROOT \/ t = SUB -> len asset <= MAX_NAME_LENGTH - 1).
Proof.
  unfold get_error_for_asset_typed.
  destruct t;
    repeat match goal with
      | |- context [bool_decide (?a = ?b)] =>
          first [ rewrite (bool_decide_eq_true_2 (a = b)) by reflexivity
                | rewrite (bool_decide_eq_false_2 (a = b)) by discriminate ]
      end;
    cbn [andb orb negb];
    repeat match goal with
      | |- (if ?c && ?d then _ else _) = None -> _ =>
          destruct (c && d); [discriminate|]
      | |- (if contains ?c ?d then _ else _) = None -> _ =>
          destruct (contains c d); [discriminate|]
      | |- (if negb ?c then _ else _) = None -> _ =>
          destruct (negb c); [discriminate|]
      end;
    match goal with
    | |- (if ?a <? ?b then _ else _) = None -> _ =>
        destruct (Z.ltb_spec a b); [discriminate|]
    end;
    intros _; split; try lia; intros [|]; try discriminate;
    unfold MAX_NAME_LENGTH in *; lia.
Qed.

Lemma not_bang_head c : none_of "^~#!" c = true -> c <> 33%N.
Proof. class_arith. Qed.

Lemma not_bang_tag c : none_of "~#!/" c = true -> c <> 33%N.
Proof. class_arith. Qed.

Lemma not_bang_name c : name_class c = true -> c <> 33%N.
Proof. class_arith. Qed.

Lemma not_bang_chr (a : ascii) c :
  N_of_ascii a <> 33%N -> chr a c = true -> c <> 33%N.
Proof. intros Ha ->%chr_eq. exact Ha. Qed.

Lemma not_bang_newline c : N.eqb 10 c = true -> c <> 33%N.
Proof. intros <-%N.eqb_eq. discriminate. Qed.

(** No pattern whose classes exclude [!] matches a name that ends
    in [!]. *)
Lemma no_match_with_bang r l :
  classes_within (fun c => c <> 33%N) r ->
  re_match r (l ++ [ASSET_OWNER_IDENTIFIER]) = false.
Proof.
  intros Hc. destruct (re_match r _) eqn:E; [|reflexivity].
  apply (match_plain_chars _ _ _ Hc) in E.
  apply Forall_app in E as [_ E]. inversion E as [|? ? Hb _]; subst.
  destruct Hb. reflexivity.
Qed.

Ltac no_bang_classes :=
  cbn [classes_within];
  repeat apply conj; try exact I; intros c Hc;
  first [ apply (not_bang_head c Hc) | apply (not_bang_tag c Hc)
        | apply (not_bang_name c Hc) | apply (not_bang_newline c Hc)
        | (eapply not_bang_chr; [|exact Hc]; vm_compute; discriminate) ].

Lemma owner_indicator_matches l :
  l <> [] -> Forall head_char l ->
  re_match _OWNER_INDICATOR (l ++ [ASSET_OWNER_IDENTIFIER]) = true.
Proof.
  intros Hl Hcl. apply re_match_lang. unfold _OWNER_INDICATOR.
  constructor.
  - apply lang_plus_cls. split; [assumption|].
    eapply Forall_impl; [exact Hcl|]. intros c Hc. apply Hc.
  - rewrite <- (app_nil_r [ASSET_OWNER_IDENTIFIER]).
    constructor; [constructor; reflexivity | apply lang_dollar; auto].
Qed.

(** A name that ends in [!] is accepted exactly when what stands before
    the [!] passes the root/sub test and has at most 31 characters. *)
Lemma owner_name_accepted l :
  get_error_for_asset_name (l ++ [ASSET_OWNER_IDENTIFIER]) = None
  <-> _isNameValidBeforeTag l = true /\ len l <= MAX_NAME_LENGTH - 1.
Proof.
  assert (Hlen : len (l ++ [ASSET_OWNER_IDENTIFIER]) = len l + 1)
    by (unfold len; rewrite length_app; cbn [length]; lia).
  unfold get_error_for_asset_name.
  rewrite (no_match_with_bang _UNIQUE_INDICATOR)
    by (unfold _UNIQUE_INDICATOR, Plus, Dollar; no_bang_classes).
  rewrite (no_match_with_bang _MSG_CHANNEL_INDICATOR)
    by (unfold _MSG_CHANNEL_INDICATOR, Plus, Dollar; no_bang_classes).
  rewrite (no_match_with_bang _QUALIFIER_INDICATOR)
    by (unfold _QUALIFIER_INDICATOR, AtLeast3, Dollar; no_bang_classes).
  rewrite (no_match_with_bang _SUB_QUALIFIER_INDICATOR)
    by (unfold _SUB_QUALIFIER_INDICATOR, Plus, Dollar; no_bang_classes).
  rewrite (no_match_with_bang _RESTRICTED_INDICATOR)
    by (unfold _RESTRICTED_INDICATOR, AtLeast3, Dollar; no_bang_classes).
  split.
  - destruct (40 <? _); [discriminate|].
    destruct (re_match _OWNER_INDICATOR _).
    + intros H. split.
      * apply typed_accepted in H. rewrite but_last_snoc in H. exact H.
      * apply typed_accepted_length in H as [H _]. lia.
    + intros H. exfalso.
      assert (Hv : _isNameValidBeforeTag (l ++ [ASSET_OWNER_IDENTIFIER]) = true)
        by (destruct (_isAssetNameASubAsset _); apply typed_accepted in H;
            exact H).
      apply before_tag_chars in Hv as [_ Hv].
      apply Forall_app in Hv as [_ Hv]. inversion Hv as [|? ? [Hb _] _]; subst.
      discriminate Hb.
  - intros [Hv Hl]. unfold MAX_NAME_LENGTH in *.
    destruct (Z.ltb_spec 40 (len (l ++ [ASSET_OWNER_IDENTIFIER]))); [lia|].
    destruct (before_tag_chars _ Hv) as [Hn Hc].
    rewrite owner_indicator_matches by assumption.
    rewrite typed_OWNER. unfold MAX_NAME_LENGTH.
    destruct (Z.ltb_spec 32 (len (l ++ [ASSET_OWNER_IDENTIFIER]))); [lia|].
    rewrite but_last_snoc, Hv. reflexivity.
Qed.

Lemma construct_owner_script name base :
  get_error_for_asset_name name = None ->
  (n ← int_to_hex (len name) 1;
   a ← encode name;
   asset_script ← construct_script
     [Op opcodes.OP_ASSET;
      Hex (hex RVN_ASSET_PREFIX ++ hex RVN_ASSET_TYPE_OWNER ++ n ++ hex a);
      Op opcodes.OP_DROP];
   mret (hex base ++ asset_script))
  = Ok (hex (base ++ [xc0]
             ++ push_prefix (Z.of_nat (length (owner_payload name)))
             ++ owner_payload name ++ [x75])).
Proof.
  intros Hname.
  pose proof (accepted_name_ascii _ Hname) as Hascii.
  pose proof (accepted_name_length _ Hname) as Hlen.
  rewrite (int_to_hex_nonneg (len name) 1)
    by (unfold len; change (256 ^ Z.of_nat 1) with 256; lia).
  rewrite encode_ascii_text by assumption.
  cbn [mbind result_bind mret result_ret].
  rewrite <- !hex_app.
  change (int_to_bytes_little 1 (len name)) with [z2b (len name)].
  change (RVN_ASSET_PREFIX ++ RVN_ASSET_TYPE_OWNER ++ [z2b (len name)]
          ++ ascii_bytes name) with (owner_payload name).
  rewrite construct_asset_script
    by (unfold owner_payload; payload_length; lia).
  cbn [mbind result_bind mret result_ret]. rewrite <- hex_app. reflexivity.
Qed.

Lemma generate_owner_script_bytes l base :
  get_error_for_asset_name (l ++ [ASSET_OWNER_IDENTIFIER]) = None ->
  let name := l ++ [ASSET_OWNER_IDENTIFIER] in
  let script :=
    hex (base ++ [xc0]
         ++ push_prefix (Z.of_nat (length (owner_payload name)))
         ++ owner_payload name ++ [x75]) in
  generate_owner_script_from_base l (hex base) = Ok script
  /\ generate_owner_script_from_base name (hex base) = Ok script.
Proof.
  intros Hname name script.
  destruct (proj1 (owner_name_accepted l) Hname) as [Hv _].
  destruct (before_tag_chars _ Hv) as [Hn Hc].
  unfold generate_owner_script_from_base, last_item. split.
  - destruct (last l) as [x|] eqn:El; [|apply last_None in El; contradiction].
    apply last_Some in El as [l' ->].
    apply Forall_app in Hc as [_ Hc]. inversion Hc as [|? ? [Hx _] _]; subst.
    apply not_bang_head in Hx.
    cbn [mbind result_bind].
    replace (x =? ASSET_OWNER_IDENTIFIER)%N with false
      by (symmetry; apply N.eqb_neq; exact Hx).
    change (negb false) with true. cbv iota. rewrite Hname.
    apply construct_owner_script, Hname.
  - unfold script, name. rewrite last_snoc.
    cbn [mbind result_bind]. rewrite N.eqb_refl.
    change (negb true) with false. cbv iota.
    rewrite Hname. apply construct_owner_script, Hname.
Qed.

(** X1: for every name [l] such that [l!] is accepted, the owner encoder
    gives the same script for [l] and for [l!], and behind an ordinary base
    script that script decodes to a well-formed owner result for [l!]. *)
Theorem owner_script_round_trip (l : str) (base : bytes) :
  plain_base_script base = true ->
  get_error_for_asset_name (l ++ [ASSET_OWNER_IDENTIFIER]) = None ->
  exists script b,
    generate_owner_script_from_base l (hex base) = Ok script
    /\ generate_owner_script_from_base (l ++ [ASSET_OWNER_IDENTIFIER])
         (hex base) = Ok script
    /\ fromhex script = Ok b
    /\ get_asset_info_from_script b
       = Ok (Some (OwnerAssetVoutInformation true
                     (l ++ [ASSET_OWNER_IDENTIFIER]))).
Proof.
  intros Hplain Hname.
  pose proof (accepted_name_ascii _ Hname) as Hascii.
  pose proof (accepted_name_length _ Hname) as Hlen.
  destruct (generate_owner_script_bytes l base Hname) as [H1 H2].
  cbv zeta in H1, H2.
  eexists _, _. split; [exact H1|]. split; [exact H2|].
  split; [apply fromhex_hex|].
  apply decode_behind_base; [assumption | |].
  - unfold owner_payload; payload_length; lia.
  - intros decoded i op idx Hi.
    apply (value_script_owner decoded i op idx); [assumption | lia | exact Hi].
Qed.

Lemma owner_script_round_trip_witness :
  exists script b,
    generate_owner_script_from_base (str_of "FOO") (hex p2pkh_example)
    = Ok script
    /\ generate_owner_script_from_base (str_of "FOO!") (hex p2pkh_example)
       = Ok script
    /\ fromhex script = Ok b
    /\ get_asset_info_from_script b
       = Ok (Some (OwnerAssetVoutInformation true (str_of "FOO!"))).
Proof.
  apply (owner_script_round_trip (str_of "FOO") p2pkh_example);
    reflexivity.
Defined.

(** ** Round trip of a transfer script *)

Lemma int_to_hex_wrap i n :
  - (256 ^ Z.of_nat n / 2) <= i < 256 ^ Z.of_nat n ->
  int_to_hex i n
  = Ok (hex (int_to_bytes_little n (i mod 256 ^ Z.of_nat n))).
Proof.
  intros Hi. unfold int_to_hex.
  assert (HR : 0 < 256 ^ Z.of_nat n) by (apply Z.pow_pos_nonneg; lia).
  assert (H0 : 256 ^ Z.of_nat n / 2 <= 256 ^ Z.of_nat n)
    by (apply Z.div_le_upper_bound; lia).
  replace (i <? - _) with false by lia.
  replace (_ <=? i) with false by lia.
  destruct (Z.ltb_spec i 0).
  - do 3 f_equal. apply Z.mod_unique with (q := -1); lia.
  - rewrite Z.mod_small by lia. reflexivity.
Qed.

Lemma AssetMemo_hex_bytes m :
  memo_ok (Some m) -> AssetMemo_hex m = Ok (hex (memo_bytes m)).
Proof.
  intros [_ Ht]. unfold AssetMemo_hex, memo_bytes, wire_timestamp.
  destruct (memo_timestamp m) as [t|]; [|rewrite app_nil_r; reflexivity].
  destruct (t =? 0); [rewrite app_nil_r; reflexivity|].
  rewrite int_to_hex_nonneg
    by (change (256 ^ Z.of_nat 8) with (2 ^ 64); exact Ht).
  cbn [mbind result_bind mret result_ret]. rewrite hex_app. reflexivity.
Qed.

Lemma length_memo_wire memo :
  memo_ok memo -> (length (memo_wire memo) <= 42)%nat.
Proof.
  destruct memo as [m|]; [|cbn; lia]. intros [Hd _].
  unfold memo_wire, memo_bytes. rewrite length_app, Hd.
  destruct (wire_timestamp m); rewrite ?length_int_to_bytes_little;
    cbn [length]; lia.
Qed.

Lemma asset_portion_of_transfer_script_bytes asset amount memo :
  Forall is_ascii asset -> (length asset <= 200)%nat ->
  - 2 ^ 63 <= amount < 2 ^ 64 -> memo_ok memo ->
  let payload := transfer_payload asset (amount mod 2 ^ 64) (memo_wire memo) in
  _asset_portion_of_transfer_script asset amount memo
  = Ok (hex ([xc0] ++ push_prefix (Z.of_nat (length payload)) ++ payload
             ++ [x75])).
Proof.
  intros Hascii Hlen Hamount Hmemo payload.
  pose proof (length_memo_wire memo Hmemo) as Hm.
  unfold _asset_portion_of_transfer_script.
  rewrite (int_to_hex_nonneg (len asset) 1)
    by (unfold len; change (256 ^ Z.of_nat 1) with 256; lia).
  rewrite encode_ascii_text by assumption.
  rewrite (int_to_hex_wrap amount 8)
    by (change (256 ^ Z.of_nat 8) with (2 ^ 64);
        change (2 ^ 64 / 2) with (2 ^ 63); exact Hamount).
  change (256 ^ Z.of_nat 8) with (2 ^ 64).
  assert (Hmh : match memo with
                | Some m => AssetMemo_hex m
                | None => Ok []
                end = Ok (hex (memo_wire memo)))
    by (destruct memo as [m|]; [apply AssetMemo_hex_bytes, Hmemo | reflexivity]).
  rewrite Hmh. cbn [mbind result_bind mret result_ret].
  rewrite <- !hex_app.
  change (int_to_bytes_little 1 (len asset)) with [z2b (len asset)].
  change (RVN_ASSET_PREFIX ++ RVN_ASSET_TYPE_TRANSFER ++ [z2b (len asset)]
          ++ ascii_bytes asset ++ int_to_bytes_little 8 (amount mod 2 ^ 64)
          ++ memo_wire memo) with payload.
  apply construct_asset_script.
  unfold payload, transfer_payload. payload_length. lia.
Qed.

Lemma value_script_transfer (decoded : list script_op) i op idx asset amount
  memo :
  Forall is_ascii asset -> (length asset <= 200)%nat ->
  0 <= amount < 2 ^ 64 -> memo_ok memo ->
  let payload := transfer_payload asset amount (memo_wire memo) in
  decoded !! (i + 1)%nat = Some (op, Some payload, idx) ->
  value_script decoded i
    (push_prefix (Z.of_nat (length payload)) ++ payload ++ [x75])
  = Ok (Ret (TransferAssetVoutInformation true asset amount
               (memo_data <$> memo) (memo ≫= wire_timestamp))).
Proof.
  intros Hascii Hlen Hamount Hmemo payload Hi.
  pose proof (length_memo_wire memo Hmemo) as Hm.
  unfold payload, transfer_payload in *.
  match type of Hi with
  | _ = Some (_, Some (RVN_ASSET_PREFIX ++ ?p), _) =>
      assert (Hne : (1 <= length p)%nat) by (payload_length; lia);
      assert (Hpl : (length (RVN_ASSET_PREFIX ++ p) <= 255)%nat)
        by (payload_length; lia)
  end.
  value_script_start Hi Hne Hpl.
  rewrite <- !app_assoc.
  match goal with
  | |- context [Util.new (Some ?d)] => pose proof (reads_new d) as R0
  end.
  next_bytes R0.
  rewrite 2!bool_decide_eq_false_2 by discriminate.
  rewrite bool_decide_eq_true_2 by reflexivity.
  next_byte R.
  rewrite b2z_z2b by (unfold len; lia).
  unfold len. rewrite Nat2Z.id, <- length_ascii_bytes.
  next_bytes R1.
  rewrite decode_ascii_text by assumption. cbn [mbind result_bind].
  rewrite bool_decide_eq_false_2 by discriminate.
  next_bytes R2.
  rewrite int_from_to_bytes_little
    by (change (256 ^ Z.of_nat 8) with (2 ^ 64); exact Hamount).
  rewrite bool_decide_eq_true_2 by reflexivity.
  rewrite (can_read_amount_reads _ _ _ 34 R3). cbn [mbind result_bind].
  destruct memo as [m|]; cbn [memo_wire fmap option_fmap option_map mbind
    option_bind] in *; [|reflexivity].
  destruct Hmemo as [Hd Ht]. unfold memo_bytes in *.
  rewrite <- app_assoc in R3 |- *. rewrite length_app, Hd.
  cbn [Nat.leb]. cbv iota.
  destruct (read_bytes_reads _ _ _ _ R3) as (r4 & E4 & R4).
  rewrite Hd in E4. rewrite E4. cbn [mbind result_bind]. clear E4.
  rewrite (can_read_amount_reads _ _ _ 8 R4). cbn [mbind result_bind].
  destruct (wire_timestamp m) as [t|] eqn:Ew; [|reflexivity].
  rewrite length_app, length_int_to_bytes_little. cbn [Nat.leb]. cbv iota.
  destruct (read_bytes_reads _ _ _ _ R4) as (r5 & E5 & R5).
  rewrite length_int_to_bytes_little in E5.
  rewrite E5. cbn [mbind result_bind mret result_ret].
  rewrite int_from_to_bytes_little; [reflexivity|].
  change (256 ^ Z.of_nat 8) with (2 ^ 64).
  unfold wire_timestamp in Ew.
  destruct (memo_timestamp m) as [t'|]; [|discriminate].
  destruct (t' =? 0); [discriminate|]. injection Ew as <-. exact Ht.
Qed.

Lemma transfer_portion_round_trip asset amount memo base :
  plain_base_script base = true ->
  Forall is_ascii asset -> (length asset <= 200)%nat ->
  - 2 ^ 63 <= amount < 2 ^ 64 -> memo_ok memo ->
  exists portion b,
    _asset_portion_of_transfer_script asset amount memo = Ok portion
    /\ fromhex (hex base ++ portion) = Ok b
    /\ get_asset_info_from_script b
       = Ok (Some (TransferAssetVoutInformation true asset (amount mod 2 ^ 64)
                     (memo_data <$> memo) (memo ≫= wire_timestamp))).
Proof.
  intros Hplain Hascii Hlen Hamount Hmemo.
  pose proof (length_memo_wire memo Hmemo) as Hm.
  eexists _, _. split; [|split].
  - apply asset_portion_of_transfer_script_bytes; assumption.
  - rewrite <- hex_app. apply fromhex_hex.
  - apply decode_behind_base; [assumption | |].
    + unfold transfer_payload; payload_length; lia.
    + intros decoded i op idx Hi.
      apply (value_script_transfer decoded i op idx); try assumption.
      apply Z.mod_pos_bound. lia.
Qed.

(** X2: the transfer encoder takes every ASCII name of at most 200
    characters and every amount from -2^63 up to 2^64 - 1; behind an
    ordinary base script its script decodes to a well-formed transfer of
    the same name, without memo, whose amount is the given one modulo 2^64:
    the same amount when it is not negative, 2^64 more when it is. *)
Theorem transfer_script_round_trip (asset : str) (amount : Z) (base : bytes) :
  plain_base_script base = true ->
  Forall is_ascii asset -> (length asset <= 200)%nat ->
  - 2 ^ 63 <= amount < 2 ^ 64 ->
  exists script b,
    generate_transfer_script_from_base asset amount (hex base) = Ok script
    /\ fromhex script = Ok b
    /\ get_asset_info_from_script b
       = Ok (Some (TransferAssetVoutInformation true asset
                     (amount mod 2 ^ 64) None None))
    /\ (0 <= amount -> amount mod 2 ^ 64 = amount)
    /\ (amount < 0 -> amount mod 2 ^ 64 = amount + 2 ^ 64).
Proof.
  intros Hplain Hascii Hlen Hamount.
  destruct (transfer_portion_round_trip asset amount None base)
    as (portion & b & Hp & Hb & Hd); try assumption; [exact I|].
  exists (hex base ++ portion), b.
  unfold generate_transfer_script_from_base. rewrite Hp.
  repeat split; try assumption.
  - intros H. apply Z.mod_small. lia.
  - intros H. symmetry. apply Z.mod_unique with (q := -1); lia.
Qed.

Lemma transfer_script_round_trip_witness :
  exists script b,
    generate_transfer_script_from_base (str_of "FOO") (-1) (hex p2pkh_example)
    = Ok script
    /\ fromhex script = Ok b
    /\ get_asset_info_from_script b
       = Ok (Some (TransferAssetVoutInformation true (str_of "FOO")
                     (2 ^ 64 - 1) None None)).
Proof.
  destruct (transfer_script_round_trip (str_of "FOO") (-1) p2pkh_example)
    as (script & b & H1 & H2 & H3 & _);
    [reflexivity | apply is_ascii_forallb; reflexivity | vm_compute; lia | lia |].
  exists script, b. auto.
Defined.

(** X3: the asset portion of a transfer script with a memo of 34 bytes,
    appended to an ordinary base script, decodes to a well-formed transfer
    with the same name, amount and memo data; the timestamp comes back when
    the memo has one that is not zero, and is absent otherwise. *)
Theorem transfer_memo_round_trip (asset : str) (amount : Z) (memo : AssetMemo)
  (base : bytes) :
  plain_base_script base = true ->
  Forall is_ascii asset -> (length asset <= 200)%nat ->
  0 <= amount < 2 ^ 64 ->
  length (memo_data memo) = 34%nat ->
  match memo_timestamp memo with
  | Some t => 0 <= t < 2 ^ 64
  | None => True
  end ->
  exists portion b,
    _asset_portion_of_transfer_script asset amount (Some memo) = Ok portion
    /\ fromhex (hex base ++ portion) = Ok b
    /\ get_asset_info_from_script b
       = Ok (Some (TransferAssetVoutInformation true asset amount
                     (Some (memo_data memo))
                     (match memo_timestamp memo with
                      | Some t => if t =? 0 then None else Some t
                      | None => None
                      end))).
Proof.
  intros Hplain Hascii Hlen Hamount Hd Ht.
  destruct (transfer_portion_round_trip asset amount (Some memo) base)
    as (portion & b & Hp & Hb & Hdec); try assumption; [lia | split; assumption|].
  exists portion, b. rewrite Z.mod_small in Hdec by lia. auto.
Qed.

Lemma transfer_memo_round_trip_witness :
  exists portion b,
    _asset_portion_of_transfer_script (str_of "FOO") 5
      (Some (mkAssetMemo (repeat x01 34) (Some 0))) = Ok portion
    /\ fromhex (hex p2pkh_example ++ portion) = Ok b
    /\ get_asset_info_from_script b
       = Ok (Some (TransferAssetVoutInformation true (str_of "FOO") 5
                     (Some (repeat x01 34)) None)).
Proof.
  apply (transfer_memo_round_trip (str_of "FOO") 5
           (mkAssetMemo (repeat x01 34) (Some 0)) p2pkh_example);
    [reflexivity | apply is_ascii_forallb; reflexivity | vm_compute; lia | lia
    | reflexivity | cbn; lia].
Defined.

(** ** Round trip of a reissue script *)

Section ReissueScript.
Variable address_to_script : str -> result str.
Variables (address asset : str) (amount divisions : Z) (reissuable : bool)
  (associated_data : option bytes) (base : bytes).
Hypothesis Hbase : address_to_script address = Ok (hex base).
Hypothesis Hname : get_error_for_asset_name asset = None.
Hypothesis Hamount : 0 <= amount <= DEFAULT_ASSET_AMOUNT_MAX * COIN.
Hypothesis Hdivisions : 0 <= divisions <= 8 \/ divisions = 255.
Hypothesis Hdata :
  associated_data = None
  \/ exists d, associated_data = Some d /\ length d = 34%nat.

Let payload :=
  reissue_payload asset amount divisions reissuable associated_data.

Lemma length_reissue_payload : (15 <= length payload <= 89)%nat.
Proof.
  pose proof (accepted_name_length _ Hname) as Hlen.
  unfold payload, reissue_payload. payload_length.
  destruct Hdata as [-> | (d & -> & Hd)]; cbn [from_option id length]; lia.
Qed.

Lemma generate_reissue_script_bytes :
  generate_reissue_script address_to_script address asset amount divisions
    reissuable associated_data
  = Ok (hex (base ++ [xc0] ++ push_prefix (Z.of_nat (length payload))
             ++ payload ++ [x75])).
Proof.
  pose proof (accepted_name_length _ Hname) as Hlen.
  pose proof (accepted_name_ascii _ Hname) as Hascii.
  pose proof length_reissue_payload as Hpl.
  unfold generate_reissue_script. rewrite Hname. cbn [truthy].
  replace (negb (0 <=? amount) || _) with false by lia.
  assert (Hdv : ((divisions <? 0) || (8 <? divisions))
                 && negb (divisions =? 255) = false).
  { destruct Hdivisions as [H | ->]; [|reflexivity].
    replace ((divisions <? 0) || _) with false by lia. reflexivity. }
  rewrite Hdv.
  assert (Hd : truthy associated_data
               && negb (length (default [] associated_data) =? 34)%nat
               = false).
  { destruct Hdata as [-> | (d & -> & Hd)]; [reflexivity|].
    cbn. rewrite Hd. apply andb_false_r. }
  rewrite Hd.
  rewrite (int_to_hex_nonneg (len asset) 1)
    by (unfold len; change (256 ^ Z.of_nat 1) with 256; lia).
  rewrite encode_ascii_text by assumption.
  rewrite (int_to_hex_nonneg amount 8)
    by (change (256 ^ Z.of_nat 8) with 18446744073709551616;
        unfold DEFAULT_ASSET_AMOUNT_MAX, COIN in Hamount; lia).
  rewrite (int_to_hex_nonneg divisions 1)
    by (change (256 ^ Z.of_nat 1) with 256; lia).
  cbn [mbind result_bind mret result_ret].
  match goal with
  | |- context [Hex ?d] =>
      replace d with (hex payload)
  end.
  - rewrite construct_asset_script by lia.
    cbn [mbind result_bind mret result_ret]. rewrite Hbase.
    cbn [mbind result_bind mret result_ret]. rewrite <- hex_app.
    reflexivity.
  - unfold payload, reissue_payload. rewrite !hex_app, !flag_hex_byte.
    repeat f_equal.
    destruct Hdata as [-> | (d & -> & Hlen34)]; [reflexivity|].
    destruct d; [discriminate|]. reflexivity.
Qed.

Lemma value_script_reissue (decoded : list script_op) i op idx :
  decoded !! (i + 1)%nat = Some (op, Some payload, idx) ->
  value_script decoded i
    (push_prefix (Z.of_nat (length payload)) ++ payload ++ [x75])
  = Ok (Ret (MetadataAssetVoutInformation AssetVoutType.REISSUE true asset
               amount divisions reissuable associated_data)).
Proof.
  intros Hi.
  pose proof (accepted_name_length _ Hname) as Hlen.
  pose proof (accepted_name_ascii _ Hname) as Hascii.
  pose proof length_reissue_payload as Hpl'.
  unfold payload, reissue_payload in *.
  match type of Hi with
  | _ = Some (_, Some (RVN_ASSET_PREFIX ++ ?p), _) =>
      assert (Hne : (1 <= length p)%nat) by (payload_length; lia);
      assert (Hpl : (length (RVN_ASSET_PREFIX ++ p) <= 255)%nat) by lia
  end.
  value_script_start Hi Hne Hpl.
  rewrite <- !app_assoc.
  match goal with
  | |- context [Util.new (Some ?d)] => pose proof (reads_new d) as R0
  end.
  next_bytes R0.
  rewrite 3!bool_decide_eq_false_2 by discriminate.
  rewrite bool_decide_eq_true_2 by reflexivity.
  next_byte R.
  rewrite b2z_z2b by (unfold len; lia).
  unfold len. rewrite Nat2Z.id, <- length_ascii_bytes.
  next_bytes R1.
  rewrite decode_ascii_text by assumption. cbn [mbind result_bind].
  rewrite bool_decide_eq_false_2 by discriminate.
  next_bytes R2.
  rewrite int_from_to_bytes_little
    by (change (256 ^ Z.of_nat 8) with 18446744073709551616;
        unfold DEFAULT_ASSET_AMOUNT_MAX, COIN in Hamount; lia).
  rewrite bool_decide_eq_false_2 by discriminate.
  next_byte R3. next_byte R4.
  rewrite bool_decide_eq_false_2 by discriminate.
  rewrite bool_decide_eq_true_2 by reflexivity.
  rewrite b2z_z2b by lia.
  assert (Hr : (b2z (if reissuable then x01 else x00) =? 1) = reissuable)
    by (destruct reissuable; reflexivity).
  rewrite Hr.
  rewrite (can_read_amount_reads _ _ _ 34 R5). cbn [mbind result_bind].
  destruct Hdata as [Hd | (d & Hd & Hd34)]; rewrite Hd in *;
    cbn [from_option id] in *; [reflexivity|].
  rewrite length_app, Hd34. cbn [Nat.leb]. cbv iota.
  destruct (read_bytes_reads _ _ _ _ R5) as (r6 & E6 & R6).
  rewrite Hd34 in E6. rewrite E6. reflexivity.
Qed.
End ReissueScript.

(** X4: for a name the validator accepts, an amount in
    [0, 21,000,000,000 * COIN], divisions in [0, 8] or equal to 255, and
    associated data that is absent or 34 bytes long, the script of
    [generate_reissue_script] over an ordinary base script decodes to a
    well-formed REISSUE result with the same fields. *)
Theorem reissue_script_round_trip
  (address_to_script : str -> result str) (address asset : str)
  (amount divisions : Z) (reissuable : bool)
  (associated_data : option bytes) (base : bytes) :
  address_to_script address = Ok (hex base) ->
  plain_base_script base = true ->
  get_error_for_asset_name asset = None ->
  0 <= amount <= DEFAULT_ASSET_AMOUNT_MAX * COIN ->
  0 <= divisions <= 8 \/ divisions = 255 ->
  (associated_data = None
   \/ exists d, associated_data = Some d /\ length d = 34%nat) ->
  exists script b,
    generate_reissue_script address_to_script address asset amount divisions
      reissuable associated_data = Ok script
    /\ fromhex script = Ok b
    /\ get_asset_info_from_script b
       = Ok (Some (MetadataAssetVoutInformation AssetVoutType.REISSUE true
                     asset amount divisions reissuable associated_data)).
Proof.
  intros Hbase Hplain Hname Hamount Hdiv Hdata.
  eexists _, _. split; [|split].
  - apply (generate_reissue_script_bytes address_to_script address asset
             amount divisions reissuable associated_data base); assumption.
  - apply fromhex_hex.
  - apply decode_behind_base; [assumption | |].
    + pose proof (length_reissue_payload asset amount divisions reissuable
                    associated_data Hname Hdata). lia.
    + intros decoded i op idx Hi.
      apply (value_script_reissue asset amount divisions reissuable
               associated_data Hname Hamount Hdiv Hdata decoded i op idx Hi).
Qed.

Lemma reissue_script_round_trip_witness :
  exists script b,
    generate_reissue_script (fun _ => Ok (hex p2pkh_example)) (str_of "address")
      (str_of "FOO") 0 255 false None = Ok script
    /\ fromhex script = Ok b
    /\ get_asset_info_from_script b
       = Ok (Some (MetadataAssetVoutInformation AssetVoutType.REISSUE true
                     (str_of "FOO") 0 255 false None)).
Proof.
  apply (reissue_script_round_trip (fun _ => Ok (hex p2pkh_example))
           (str_of "address") (str_of "FOO") 0 255 false None
           p2pkh_example);
    [reflexivity | reflexivity | reflexivity | vm_compute; split; congruence
    | right; reflexivity | left; reflexivity].
Defined.

(** ** Tag scripts *)

Lemma script_GetOp_step_op pre x post :
  opcodes.OP_PUSHDATA4 < b2z x ->
  script_GetOp_step (pre ++ x :: post) (length pre)
  = Ok (b2z x, None, S (length pre)).
Proof.
  intros Hx. apply script_GetOp_step_plain; [|exact Hx].
  apply list_lookup_middle. reflexivity.
Qed.

Lemma script_GetOp_step_push pre data post :
  (length data <= 255)%nat ->
  let p := push_prefix (Z.of_nat (length data)) in
  script_GetOp_step (pre ++ p ++ data ++ post) (length pre)
  = Ok (Z.min (Z.of_nat (length data)) 76, Some data,
        (length pre + length p + length data)%nat).
Proof.
  intros Hn p. set (n := length data) in *. set (L := length pre).
  unfold p, push_prefix.
  destruct (Z.of_nat n <? opcodes.OP_PUSHDATA1) eqn:En;
    unfold opcodes.OP_PUSHDATA1 in En.
  - set (full := pre ++ [z2b (Z.of_nat n)] ++ data ++ post).
    assert (H1 : full !! L = Some (z2b (Z.of_nat n)))
      by (apply list_lookup_middle; reflexivity).
    assert (Hb : b2z (z2b (Z.of_nat n)) = Z.of_nat n)
      by (apply b2z_z2b; lia).
    assert (Hd : b2z (z2b (Z.of_nat n)) < opcodes.OP_PUSHDATA1)
      by (rewrite Hb; unfold opcodes.OP_PUSHDATA1; lia).
    rewrite (script_GetOp_step_direct _ _ _ H1 Hd).
    rewrite Hb, Nat2Z.id.
    assert (Hs : slice full (S L) (S L + n) = data).
    { unfold full. rewrite app_assoc. apply slice_middle;
        rewrite !length_app; cbn [length]; lia. }
    rewrite Hs, Z.min_l by lia. cbn [length]. do 2 f_equal. lia.
  - set (full := pre ++ [x4c; z2b (Z.of_nat n)] ++ data ++ post).
    assert (H1 : full !! L = Some x4c)
      by (apply list_lookup_middle; reflexivity).
    assert (H1' : full !! S L = Some (z2b (Z.of_nat n))).
    { unfold full. change ([x4c; z2b (Z.of_nat n)] ++ data ++ post)
        with ([x4c] ++ z2b (Z.of_nat n) :: data ++ post).
      rewrite app_assoc. apply list_lookup_middle.
      rewrite length_app. cbn [length]. lia. }
    assert (Hb : b2z (z2b (Z.of_nat n)) = Z.of_nat n)
      by (apply b2z_z2b; lia).
    rewrite (script_GetOp_step_pushdata1 _ _ _ H1 H1').
    rewrite Hb, Nat2Z.id.
    assert (Hs : slice full (S L + 1) (S L + 1 + n) = data).
    { unfold full. rewrite app_assoc. apply slice_middle;
        rewrite !length_app; cbn [length]; lia. }
    rewrite Hs, Z.min_r by lia. cbn [length]. do 2 f_equal. lia.
Qed.

Lemma script_GetOp_enough b n ops :
  (n <= length b)%nat -> script_GetOp_from n b 0 = Ok ops ->
  script_GetOp b = Ok ops.
Proof.
  intros Hn Hops. unfold script_GetOp.
  replace (length b) with (n + (length b - n))%nat by lia.
  apply script_GetOp_from_more, Hops.
Qed.

Lemma length_push_prefix n : (1 <= length (push_prefix n) <= 2)%nat.
Proof. unfold push_prefix. destruct (_ <? _); cbn; lia. Qed.

Lemma push_script_bytes data :
  (2 <= length data <= 255)%nat ->
  push_script (hex data)
  = Ok (hex (push_prefix (Z.of_nat (length data)) ++ data)).
Proof.
  intros Hl. unfold push_script. rewrite fromhex_hex.
  cbn [mbind result_bind].
  destruct data as [|b0 [|b1 data]]; cbn in Hl; try lia.
  rewrite op_push_prefix by (cbn [length]; lia).
  cbn [mbind result_bind mret result_ret]. rewrite hex_app. reflexivity.
Qed.

(** The three operations of a tag script: the marker, one operation
    [x], and a push. *)
Lemma tag_script_ops (x : bytes) (o : Z) (d : option bytes) data :
  (1 <= length x)%nat -> (length data <= 255)%nat ->
  script_GetOp_step (xc0 :: x ++ push_prefix (Z.of_nat (length data)) ++ data)
    1 = Ok (o, d, S (length x)) ->
  script_GetOp (xc0 :: x ++ push_prefix (Z.of_nat (length data)) ++ data)
  = Ok [(192, None, 1%nat); (o, d, S (length x));
        (Z.min (Z.of_nat (length data)) 76, Some data,
         (S (length x) + length (push_prefix (Z.of_nat (length data)))
          + length data)%nat)].
Proof.
  intros Hx1 Hn Hx.
  set (p := push_prefix (Z.of_nat (length data))) in *.
  set (full := xc0 :: x ++ p ++ data).
  pose proof (length_push_prefix (Z.of_nat (length data))) as Hp.
  fold p in Hp.
  assert (Hlen : length full = (S (length x) + length p + length data)%nat)
    by (unfold full; cbn [length]; rewrite !length_app; lia).
  apply (script_GetOp_enough _ 3); [lia|].
  rewrite (script_GetOp_from_turn _ _ _ _
             (script_GetOp_step_op [] xc0 (x ++ p ++ data) eq_refl)).
  cbn [snd length].
  rewrite (script_GetOp_from_turn _ _ _ _ Hx). cbn [snd].
  assert (H2 : script_GetOp_step full (S (length x))
               = Ok (Z.min (Z.of_nat (length data)) 76, Some data,
                     (S (length x) + length p + length data)%nat)).
  { pose proof (script_GetOp_step_push (xc0 :: x) data [] Hn) as H.
    cbv zeta in H. fold p in H. rewrite app_nil_r in H. exact H. }
  rewrite (script_GetOp_from_turn _ _ _ _ H2). cbn [snd].
  rewrite script_GetOp_from_end by lia. reflexivity.
Qed.

(** *** Null tags *)

Lemma scan_tag_script script (decoded : list script_op) d idx todo :
  decoded = (192, d, idx) :: todo ->
  scan script decoded 0 decoded
  = (flow ← tag_script decoded (drop idx script);
     match flow return result BaseAssetVoutInformation with
     | Ret v => Ok v
     | Break => Ok NoAssetVoutInformation
     | Continue => scan script decoded 1 todo
     end).
Proof. intros ->. reflexivity. Qed.

Lemma flag_byte_read (flag : bool) :
  negb (b2z (if flag then x01 else x00) =? 0) = flag.
Proof. destruct flag; reflexivity. Qed.

Lemma generate_null_tag_bytes asset h (flag : bool) :
  get_error_for_asset_name asset = None -> length h = 20%nat ->
  let data := tag_operand asset (if flag then x01 else x00) in
  generate_null_tag asset (hex h) flag
  = Ok (hex (xc0 :: (push_prefix 20 ++ h)
             ++ push_prefix (Z.of_nat (length data)) ++ data)).
Proof.
  intros Hname Hh data.
  pose proof (accepted_name_ascii _ Hname) as Hascii.
  pose proof (accepted_name_length _ Hname) as Hlen.
  unfold generate_null_tag. rewrite Hname.
  unfold len at 1. rewrite length_hex, Hh. cbn [negb Nat.mul Nat.add].
  change (Z.of_nat 40 =? 40) with true. cbn [negb].
  rewrite (int_to_hex_nonneg (len asset) 1)
    by (unfold len; change (256 ^ Z.of_nat 1) with 256; lia).
  rewrite encode_ascii_text by assumption.
  cbn [mbind result_bind mret result_ret].
  rewrite flag_hex_byte, <- !hex_app.
  change (int_to_bytes_little 1 (len asset) ++ ascii_bytes asset
          ++ [if flag then x01 else x00]) with data.
  assert (Hd : (2 <= length data <= 255)%nat)
    by (unfold data, tag_operand; payload_length; lia).
  cbn [construct_script]. rewrite !is_hex_str_hex.
  rewrite (push_script_bytes h) by lia. rewrite Hh.
  rewrite (push_script_bytes data) by exact Hd.
  cbn [mbind result_bind mret result_ret].
  rewrite app_nil_r, <- !hex_app. reflexivity.
Qed.

Lemma tag_operand_read r d asset flag rest :
  Forall is_ascii asset -> (length asset <= 255)%nat ->
  reads r d (tag_operand asset flag ++ rest) ->
  ('(asset_length, reader) ← Util.read_byte_as_int r;
   '(asset_b, reader) ← Util.read_bytes reader (Z.to_nat asset_length);
   '(f, reader) ← Util.read_byte_as_int reader;
   Ok (asset_b, f))
  = Ok (ascii_bytes asset, b2z flag).
Proof.
  intros Hascii Hlen R0. unfold tag_operand in R0.
  rewrite <- !app_assoc in R0.
  next_byte R0.
  rewrite b2z_z2b by (unfold len; lia).
  unfold len. rewrite Nat2Z.id, <- length_ascii_bytes.
  next_bytes R. next_byte R1. reflexivity.
Qed.

(** X5: for a name the validator accepts and the lower-case hex of a hash
    of 20 bytes, the script of [generate_null_tag] decodes to a null tag
    with the same name, hash and flag. *)
Theorem null_tag_round_trip (asset : str) (h : bytes) (flag : bool) :
  get_error_for_asset_name asset = None -> length h = 20%nat ->
  exists script b,
    generate_null_tag asset (hex h) flag = Ok script
    /\ fromhex script = Ok b
    /\ get_asset_info_from_script b
       = Ok (Some (NullTagAssetVoutInformation asset (hex h) flag)).
Proof.
  intros Hname Hh.
  pose proof (accepted_name_ascii _ Hname) as Hascii.
  pose proof (accepted_name_length _ Hname) as Hlen.
  set (data := tag_operand asset (if flag then x01 else x00)).
  assert (Hd : (2 <= length data <= 75)%nat)
    by (unfold data, tag_operand; payload_length; lia).
  eexists _, _. split; [|split].
  - apply generate_null_tag_bytes; assumption.
  - apply fromhex_hex.
  - fold data. unfold get_asset_info_from_script.
    assert (Hx : script_GetOp_step
                   (xc0 :: (push_prefix 20 ++ h)
                    ++ push_prefix (Z.of_nat (length data)) ++ data) 1
                 = Ok (20, Some h, S (length (push_prefix 20 ++ h)))).
    { pose proof (script_GetOp_step_push [xc0] h
                    (push_prefix (Z.of_nat (length data)) ++ data)) as H.
      rewrite Hh in H. cbv zeta in H. specialize (H ltac:(lia)).
      rewrite length_app, Hh. exact H. }
    assert (Hx1 : (1 <= length (push_prefix 20 ++ h))%nat)
      by (rewrite length_app; lia).
    assert (Hd255 : (length data <= 255)%nat) by lia.
    rewrite (tag_script_ops _ _ _ _ Hx1 Hd255 Hx).
    erewrite scan_tag_script by reflexivity.
    change (drop 1 (xc0 :: ?l)) with l.
    unfold tag_script, item. cbn [lookup list_lookup mbind result_bind op_of fst].
    change (20 =? opcodes.OP_RESERVED) with false. cbv iota.
    change (push_prefix 20) with [x14]. rewrite <- !app_assoc.
    match goal with
    | |- context [Util.new (Some ?d)] => pose proof (reads_new d) as R0
    end.
    next_byte R0. change (negb (b2z x14 =? 20)) with false. cbv iota.
    rewrite <- Hh. next_bytes R.
    assert (Hp : push_prefix (Z.of_nat (length data))
                 = [z2b (Z.of_nat (length data))])
      by (unfold push_prefix; replace (_ <? _) with true
            by (unfold opcodes.OP_PUSHDATA1; lia); reflexivity).
    rewrite Hp in R1 |- *. cbn [app] in R1.
    next_byte R1.
    rewrite <- (app_nil_r data) in R2.
    pose proof (tag_operand_read _ _ asset _ [] Hascii ltac:(lia) R2) as Hread.
    destruct (Util.read_byte_as_int r1) as [[asset_length reader]|];
      [|discriminate]. cbn [mbind result_bind] in Hread |- *.
    destruct (Util.read_bytes reader _) as [[asset_b reader']|];
      [|discriminate]. cbn [mbind result_bind] in Hread |- *.
    destruct (Util.read_byte_as_int reader') as [[f reader'']|];
      [|discriminate]. cbn [mbind result_bind] in Hread |- *.
    injection Hread as -> ->.
    rewrite decode_ascii_text by assumption.
    cbn [mbind result_bind mret result_ret].
    rewrite flag_byte_read. reflexivity.
Qed.

Lemma null_tag_round_trip_witness :
  exists script b,
    generate_null_tag (str_of "#KYC") (hex (repeat x07 20)) true = Ok script
    /\ fromhex script = Ok b
    /\ get_asset_info_from_script b
       = Ok (Some (NullTagAssetVoutInformation (str_of "#KYC")
                     (hex (repeat x07 20)) true)).
Proof.
  apply (null_tag_round_trip (str_of "#KYC") (repeat x07 20) true);
    reflexivity.
Defined.

(** *** Verifier tags *)

Lemma generate_verifier_tag_bytes verifier_string :
  Forall is_ascii verifier_string ->
  (1 <= length verifier_string <= 75)%nat ->
  let data := verifier_operand verifier_string in
  generate_verifier_tag verifier_string
  = Ok (hex (xc0 :: [x50] ++ push_prefix (Z.of_nat (length data)) ++ data)).
Proof.
  intros Hascii Hlen data. unfold generate_verifier_tag.
  replace (len verifier_string <=? MAX_VERIFIER_STING_LENGTH) with true
    by (unfold len, MAX_VERIFIER_STING_LENGTH; lia).
  cbn [negb].
  rewrite (int_to_hex_nonneg (len verifier_string) 1)
    by (unfold len; change (256 ^ Z.of_nat 1) with 256; lia).
  rewrite encode_ascii_text by assumption.
  cbn [mbind result_bind mret result_ret]. rewrite <- hex_app.
  change (int_to_bytes_little 1 (len verifier_string)
          ++ ascii_bytes verifier_string) with data.
  assert (Hd : (2 <= length data <= 255)%nat)
    by (unfold data, verifier_operand; payload_length; lia).
  cbn [construct_script]. rewrite is_hex_str_hex.
  rewrite (push_script_bytes data) by exact Hd.
  cbn [mbind result_bind mret result_ret].
  rewrite app_nil_r. reflexivity.
Qed.

(** X6: for an ASCII verifier string of at most 75 characters, the script
    of [generate_verifier_tag] decodes to a verifier tag with the same
    string, unless the string is empty: the tag script of the empty string
    makes the decoder raise [StopIteration]. *)
Theorem verifier_tag_round_trip (verifier_string : str) :
  Forall is_ascii verifier_string ->
  (length verifier_string <= 75)%nat ->
  exists script b,
    generate_verifier_tag verifier_string = Ok script
    /\ fromhex script = Ok b
    /\ get_asset_info_from_script b
       = match verifier_string with
         | [] => Raise StopIteration
         | _ => Ok (Some (VerifierTagAssetVoutInformation verifier_string))
         end.
Proof.
  intros Hascii Hlen.
  assert (Hcase : verifier_string = [] \/ (1 <= length verifier_string)%nat)
    by (destruct verifier_string; [left; reflexivity | right; cbn; lia]).
  destruct Hcase as [-> | Hne].
  { exists (str_of "c05000"), [xc0; x50; x00]. repeat split. }
  set (data := verifier_operand verifier_string).
  assert (Hd : (2 <= length data <= 76)%nat)
    by (unfold data, verifier_operand; payload_length; lia).
  eexists _, _. split; [|split].
  - apply generate_verifier_tag_bytes; [assumption | lia].
  - apply fromhex_hex.
  - fold data. unfold get_asset_info_from_script.
    assert (Hd255 : (length data <= 255)%nat) by lia.
    rewrite (tag_script_ops [x50] 80 None data ltac:(cbn; lia) Hd255 eq_refl).
    erewrite scan_tag_script by reflexivity.
    change (drop 1 (xc0 :: ?l)) with l.
    unfold tag_script, item.
    cbn [lookup list_lookup mbind result_bind op_of data_of fst snd].
    change (80 =? opcodes.OP_RESERVED) with true. cbv iota.
    replace (Z.min (Z.of_nat (length data)) 76 =? opcodes.OP_RESERVED)
      with false by (unfold opcodes.OP_RESERVED; lia).
    unfold script_GetOp_next.
    replace (0 <? length data)%nat with true
      by (symmetry; apply Nat.ltb_lt; lia).
    assert (Hb : b2z (z2b (len verifier_string)) = len verifier_string)
      by (apply b2z_z2b; unfold len; lia).
    rewrite (script_GetOp_step_direct data 0 (z2b (len verifier_string)))
      by first [reflexivity
               | rewrite Hb; unfold len, opcodes.OP_PUSHDATA1; lia].
    rewrite Hb. unfold len at 1 2. rewrite Nat2Z.id.
    cbn [mbind result_bind data_of fst snd decode_opt].
    assert (Hs : slice data 1 (1 + length verifier_string)
                 = ascii_bytes verifier_string).
    { unfold data, verifier_operand.
      rewrite <- (app_nil_r (ascii_bytes verifier_string)) at 1.
      apply slice_middle; [reflexivity|].
      rewrite length_ascii_bytes. reflexivity. }
    rewrite Hs, decode_ascii_text by assumption.
    cbn [mbind result_bind mret result_ret].
    destruct verifier_string; [cbn in Hne; lia | reflexivity].
Qed.

Lemma verifier_tag_round_trip_witness :
  exists script b,
    generate_verifier_tag (str_of "KYC&!BANNED") = Ok script
    /\ fromhex script = Ok b
    /\ get_asset_info_from_script b
       = Ok (Some (VerifierTagAssetVoutInformation (str_of "KYC&!BANNED"))).
Proof.
  apply (verifier_tag_round_trip (str_of "KYC&!BANNED"));
    [apply is_ascii_forallb; reflexivity | vm_compute; lia].
Defined.

(** *** Freeze tags *)

(** X7: a freeze tag script (the marker, two reserved opcodes, and the push
    of the length of an ASCII name, the name and a flag byte) decodes to a
    freeze tag with that name, whose flag is set exactly when the flag byte
    is not zero. *)
Theorem freeze_tag_decoded (asset : str) (flag : byte) :
  Forall is_ascii asset -> (length asset <= 253)%nat ->
  get_asset_info_from_script (freeze_tag_script asset flag)
  = Ok (Some (FreezeTagAssetVoutInformation asset (negb (b2z flag =? 0)))).
Proof.
  intros Hascii Hlen. unfold freeze_tag_script, get_asset_info_from_script.
  set (data := tag_operand asset flag).
  set (p := push_prefix (Z.of_nat (length data))).
  assert (Hd : (2 <= length data <= 255)%nat)
    by (unfold data, tag_operand; payload_length; lia).
  pose proof (length_push_prefix (Z.of_nat (length data))) as Hp. fold p in Hp.
  set (full := [xc0; x50; x50] ++ p ++ data).
  assert (Hfull : length full = (3 + length p + length data)%nat)
    by (unfold full; rewrite !length_app; reflexivity).
  assert (Hops : script_GetOp full
                 = Ok [(192, None, 1%nat); (80, None, 2%nat);
                       (80, None, 3%nat);
                       (Z.min (Z.of_nat (length data)) 76, Some data,
                        (3 + length p + length data)%nat)]).
  { assert (H0 : script_GetOp_step full 0 = Ok (192, None, 1%nat))
      by exact (script_GetOp_step_op [] xc0 ([x50; x50] ++ p ++ data) eq_refl).
    assert (H1 : script_GetOp_step full 1 = Ok (80, None, 2%nat))
      by exact (script_GetOp_step_op [xc0] x50 ([x50] ++ p ++ data) eq_refl).
    assert (H2 : script_GetOp_step full 2 = Ok (80, None, 3%nat))
      by exact (script_GetOp_step_op [xc0; x50] x50 (p ++ data) eq_refl).
    assert (H3 : script_GetOp_step full 3
                 = Ok (Z.min (Z.of_nat (length data)) 76, Some data,
                       (3 + length p + length data)%nat)).
    { pose proof (script_GetOp_step_push [xc0; x50; x50] data []
                    ltac:(lia)) as H.
      cbv zeta in H. fold p in H. rewrite app_nil_r in H. exact H. }
    apply (script_GetOp_enough _ 4); [lia|].
    rewrite (script_GetOp_from_turn _ _ _ _ H0). cbn [snd].
    rewrite (script_GetOp_from_turn _ _ _ _ H1). cbn [snd].
    rewrite (script_GetOp_from_turn _ _ _ _ H2). cbn [snd].
    rewrite (script_GetOp_from_turn _ _ _ _ H3). cbn [snd].
    rewrite script_GetOp_from_end by lia. reflexivity. }
  rewrite Hops. erewrite scan_tag_script by reflexivity.
  unfold tag_script, item.
  cbn [lookup list_lookup mbind result_bind op_of data_of fst snd].
  change (80 =? opcodes.OP_RESERVED) with true. cbv iota.
  assert (R0 : reads (Util.new (Some data)) data (tag_operand asset flag ++ []))
    by (rewrite app_nil_r; apply reads_new).
  pose proof (tag_operand_read _ _ asset _ [] Hascii ltac:(lia) R0) as Hread.
  destruct (Util.read_byte_as_int (Util.new (Some data)))
    as [[asset_length reader]|]; [|discriminate].
  cbn [mbind result_bind] in Hread |- *.
  destruct (Util.read_bytes reader _) as [[asset_b reader']|];
    [|discriminate]. cbn [mbind result_bind] in Hread |- *.
  destruct (Util.read_byte_as_int reader') as [[f reader'']|];
    [|discriminate]. cbn [mbind result_bind] in Hread |- *.
  injection Hread as -> ->.
  rewrite decode_ascii_text by assumption. reflexivity.
Qed.

Lemma freeze_tag_decoded_witness :
  get_asset_info_from_script (freeze_tag_script (str_of "$GOLD") x02)
  = Ok (Some (FreezeTagAssetVoutInformation (str_of "$GOLD") true)).
Proof.
  apply (freeze_tag_decoded (str_of "$GOLD") x02);
    [apply is_ascii_forallb; reflexivity | vm_compute; lia].
Defined.

(** ** What the encoders refuse *)

Lemma typed_error_nonempty asset t e :
  get_error_for_asset_typed asset t = Some e -> e <> [].
Proof.
  unfold get_error_for_asset_typed, msg_max_length, msg_min_length, gettext.
  cbv zeta.
  repeat match goal with
    | |- (if ?c then _ else _) = Some _ -> _ => destruct c
    end;
    try discriminate; intros [= <-]; vm_compute; discriminate.
Qed.

(** The validator never answers with an empty message: a name is rejected
    exactly when the answer is true as a condition. *)
Lemma error_truthy asset :
  truthy (get_error_for_asset_name asset) = false
  <-> get_error_for_asset_name asset = None.
Proof.
  split; [|intros ->; reflexivity].
  destruct (get_error_for_asset_name asset) as [e|] eqn:E; [|reflexivity].
  assert (He : e <> []).
  { revert E. unfold get_error_for_asset_name.
    repeat match goal with
      | |- (if ?c then _ else _) = Some _ -> _ => destruct c
      end;
      try apply typed_error_nonempty.
    intros [= <-]. vm_compute. discriminate. }
  destruct e; [contradiction | discriminate].
Qed.

Lemma data_accepted (associated_data : option bytes) :
  truthy associated_data
  && negb (length (default [] associated_data) =? 34)%nat = false ->
  associated_data = None \/ associated_data = Some []
  \/ exists d, associated_data = Some d /\ length d = 34%nat.
Proof.
  destruct associated_data as [[|x d]|]; auto.
  cbn [truthy andb from_option id]. intros H%negb_false_iff%Nat.eqb_eq.
  right. right. eauto.
Qed.

(** X8: [generate_create_script] returns a script only for a name that the
    validator accepts, an amount in (0, 21,000,000,000 * COIN], divisions
    in [0, 8] and associated data that is absent, empty or 34 bytes long;
    the script then starts with the base script of the address. *)
Theorem create_script_only_when_valid
  (address_to_script : str -> result str) (address asset : str)
  (amount divisions : Z) (reissuable : bool)
  (associated_data : option bytes) (script : str) :
  generate_create_script address_to_script address asset amount divisions
    reissuable associated_data = Ok script ->
  get_error_for_asset_name asset = None
  /\ 0 < amount <= DEFAULT_ASSET_AMOUNT_MAX * COIN
  /\ 0 <= divisions <= 8
  /\ (associated_data = None \/ associated_data = Some []
      \/ exists d, associated_data = Some d /\ length d = 34%nat)
  /\ exists base_script asset_script,
       address_to_script address = Ok base_script
       /\ script = base_script ++ asset_script.
Proof.
  unfold generate_create_script.
  destruct (truthy (get_error_for_asset_name asset)) eqn:En; [discriminate|].
  destruct (negb (0 <? amount) || _) eqn:Ea; [discriminate|].
  destruct ((divisions <? 0) || _) eqn:Ed; [discriminate|].
  destruct (truthy associated_data && _) eqn:Eh; [discriminate|].
  destruct (int_to_hex (len asset) 1) as [n|]; [|discriminate].
  cbn [mbind result_bind].
  destruct (encode asset) as [a|]; [|discriminate]. cbn [mbind result_bind].
  destruct (int_to_hex amount 8) as [amt|]; [|discriminate].
  cbn [mbind result_bind].
  destruct (int_to_hex divisions 1) as [d|]; [|discriminate].
  cbn [mbind result_bind].
  destruct (construct_script _) as [asset_script|]; [|discriminate].
  cbn [mbind result_bind].
  destruct (address_to_script address) as [base_script|]; [|discriminate].
  cbn [mbind result_bind mret result_ret]. intros [= <-].
  split; [apply error_truthy, En|].
  split; [lia|]. split; [lia|]. split; [apply data_accepted, Eh|]. eauto.
Qed.

Lemma create_script_only_when_valid_witness :
  get_error_for_asset_name (str_of "FOO") = None
  /\ 0 < 100 * COIN <= DEFAULT_ASSET_AMOUNT_MAX * COIN.
Proof.
  destruct (create_script_only_when_valid (fun _ => Ok (hex p2pkh_example))
              (str_of "address") (str_of "FOO") (100 * COIN) 0 true None
              _ eq_refl) as (H1 & H2 & _).
  split; assumption.
Defined.

(** X9: [generate_reissue_script] returns a script only for a name that
    the validator accepts, an amount in [0, 21,000,000,000 * COIN],
    divisions in [0, 8] or equal to 255, and associated data that is
    absent, empty or 34 bytes long. *)
Theorem reissue_script_only_when_valid
  (address_to_script : str -> result str) (address asset : str)
  (amount divisions : Z) (reissuable : bool)
  (associated_data : option bytes) (script : str) :
  generate_reissue_script address_to_script address asset amount divisions
    reissuable associated_data = Ok script ->
  get_error_for_asset_name asset = None
  /\ 0 <= amount <= DEFAULT_ASSET_AMOUNT_MAX * COIN
  /\ (0 <= divisions <= 8 \/ divisions = 255)
  /\ (associated_data = None \/ associated_data = Some []
      \/ exists d, associated_data = Some d /\ length d = 34%nat)
  /\ exists base_script asset_script,
       address_to_script address = Ok base_script
       /\ script = base_script ++ asset_script.
Proof.
  unfold generate_reissue_script.
  destruct (truthy (get_error_for_asset_name asset)) eqn:En; [discriminate|].
  destruct (negb (0 <=? amount) || _) eqn:Ea; [discriminate|].
  destruct (((divisions <? 0) || _) && _) eqn:Ed; [discriminate|].
  destruct (truthy associated_data && _) eqn:Eh; [discriminate|].
  destruct (int_to_hex (len asset) 1) as [n|]; [|discriminate].
  cbn [mbind result_bind].
  destruct (encode asset) as [a|]; [|discriminate]. cbn [mbind result_bind].
  destruct (int_to_hex amount 8) as [amt|]; [|discriminate].
  cbn [mbind result_bind].
  destruct (int_to_hex divisions 1) as [d|]; [|discriminate].
  cbn [mbind result_bind].
  destruct (construct_script _) as [asset_script|]; [|discriminate].
  cbn [mbind result_bind].
  destruct (address_to_script address) as [base_script|]; [|discriminate].
  cbn [mbind result_bind mret result_ret]. intros [= <-].
  split; [apply error_truthy, En|].
  split; [lia|]. split; [lia|]. split; [apply data_accepted, Eh|]. eauto.
Qed.

Lemma reissue_script_only_when_valid_witness :
  get_error_for_asset_name (str_of "FOO") = None
  /\ (0 <= 255 <= 8 \/ 255 = 255).
Proof.
  destruct (reissue_script_only_when_valid (fun _ => Ok (hex p2pkh_example))
              (str_of "address") (str_of "FOO") 0 255 false None
              _ eq_refl) as (H1 & _ & H3 & _).
  split; assumption.
Defined.

(** ** The patterns on text without a newline *)

Lemma lang_cat_dollar body s :
  Forall (fun c => c <> 10%N) s ->
  lang (Cat body Dollar) s <-> lang body s.
Proof.
  intros Hs. split.
  - intros (s1 & s2 & -> & H1 & [-> | ->]%lang_dollar)%lang_cat_inv.
    + rewrite app_nil_r. exact H1.
    + apply Forall_app in Hs as [_ Hs]. inversion Hs as [|? ? Hc _]; subst.
      congruence.
  - intros H. rewrite <- (app_nil_r s). constructor; [exact H|].
    apply lang_dollar. auto.
Qed.

Lemma lang_at_least_3 p s :
  lang (AtLeast3 (Cls p)) s
  <-> (3 <= length s)%nat /\ Forall (fun c => p c = true) s.
Proof.
  unfold AtLeast3. split.
  - intros (s1 & t1 & -> & (c1 & -> & H1)%lang_cls_inv
            & (s2 & t2 & -> & (c2 & -> & H2)%lang_cls_inv
               & (s3 & t3 & -> & (c3 & -> & H3)%lang_cls_inv
                  & Hr%lang_star_cls)%lang_cat_inv)%lang_cat_inv)%lang_cat_inv.
    cbn. split; [lia|]. repeat constructor; assumption.
  - intros [Hl H]. destruct s as [|c1 [|c2 [|c3 s]]]; cbn in Hl; try lia.
    inversion H as [|? ? H1 H']; subst. inversion H' as [|? ? H2 H'']; subst.
    inversion H'' as [|? ? H3 Hr]; subst.
    change (c1 :: c2 :: c3 :: s) with ([c1] ++ [c2] ++ [c3] ++ s).
    repeat (constructor; [constructor; assumption|]).
    apply lang_star_cls, Hr.
Qed.

Lemma lang_star_dot s : lang (Star Dot) s <-> Forall (fun c => c <> 10%N) s.
Proof.
  unfold Dot. rewrite lang_star_cls. split; intros H;
    (eapply Forall_impl; [exact H|]); intros c Hc.
  - apply negb_true_iff, N.eqb_neq in Hc. exact Hc.
  - apply negb_true_iff, N.eqb_neq. exact Hc.
Qed.

Lemma lang_lit w s : lang (Lit w) s <-> s = w.
Proof.
  revert s. induction w as [|c w IH]; intros s; cbn [Lit].
  - split; [inversion 1; reflexivity | intros ->; constructor].
  - split.
    + intros (s1 & s2 & -> & (c' & -> & ->%N.eqb_eq)%lang_cls_inv
              & ->%IH)%lang_cat_inv. reflexivity.
    + intros ->. change (c :: w) with ([c] ++ w).
      constructor; [constructor; apply N.eqb_refl | apply IH; reflexivity].
Qed.

Lemma double_punctuation_spec s :
  double_punctuation s = true
  <-> exists l a b r, s = l ++ a :: b :: r
                      /\ punctuation a = true /\ punctuation b = true.
Proof.
  induction s as [|a s IH]; cbn [double_punctuation].
  - split; [discriminate|]. intros (l & ? & ? & ? & H & _).
    destruct l; discriminate.
  - destruct s as [|b s].
    + split; [discriminate|]. intros (l & ? & ? & ? & H & _).
      destruct l as [|? [|? ?]]; discriminate.
    + rewrite orb_true_iff, andb_true_iff, IH. split.
      * intros [[Ha Hb] | (l & x & y & r & -> & Hx & Hy)].
        -- exists [], a, b, s. auto.
        -- exists (a :: l), x, y, r. auto.
      * intros (l & x & y & r & E & Hx & Hy). destruct l as [|a' l].
        -- injection E as -> -> ->. auto.
        -- injection E as -> E. right. exists l, x, y, r. auto.
Qed.

Lemma match_double_punctuation s :
  Forall (fun c => c <> 10%N) s ->
  re_match _DOUBLE_PUNCTUATION s = double_punctuation s.
Proof.
  intros Hs. apply eq_true_iff_eq.
  rewrite re_match_lang, double_punctuation_spec. unfold _DOUBLE_PUNCTUATION.
  split.
  - intros (l & t & -> & Hl & Ht)%lang_cat_inv.
    apply lang_cat_inv in Ht as (m & t' & -> & Hm & Ht').
    unfold AtLeast2 in Hm.
    apply lang_cat_inv in Hm
        as (? & m1 & -> & (a & -> & Ha)%lang_cls_inv & Hm).
    apply lang_cat_inv in Hm
        as (? & m2 & -> & (b & -> & Hb)%lang_cls_inv & Hm).
    exists l, a, b, (m2 ++ t'). repeat split; assumption.
  - intros (l & a & b & r & -> & Ha & Hb).
    apply Forall_app in Hs as [Hl Hr].
    inversion Hr as [|? ? _ Hr']; subst. inversion Hr' as [|? ? _ Hr'']; subst.
    constructor; [apply lang_star_dot, Hl|].
    change (a :: b :: r) with (([a] ++ [b] ++ []) ++ r).
    constructor.
    + unfold AtLeast2. repeat (constructor; [constructor; assumption|]).
      constructor.
    + apply lang_cat_dollar; [assumption|]. apply lang_star_dot, Hr''.
Qed.

Lemma match_leading_punctuation s :
  Forall (fun c => c <> 10%N) s ->
  re_match _LEADING_PUNCTUATION s = leading_punctuation s.
Proof.
  intros Hs. apply eq_true_iff_eq.
  rewrite re_match_lang. unfold _LEADING_PUNCTUATION, leading_punctuation.
  split.
  - intros (? & t & -> & (a & -> & Ha)%lang_cls_inv & _)%lang_cat_inv.
    exact Ha.
  - destruct s as [|a s]; [discriminate|]. intros Ha.
    inversion Hs as [|? ? _ Hs']; subst.
    change (a :: s) with ([a] ++ s). constructor; [constructor; exact Ha|].
    apply lang_cat_dollar; [assumption|]. apply lang_star_dot, Hs'.
Qed.

Lemma match_trailing_punctuation s :
  Forall (fun c => c <> 10%N) s ->
  re_match _TRAILING_PUNCTUATION s = trailing_punctuation s.
Proof.
  intros Hs. apply eq_true_iff_eq.
  rewrite re_match_lang. unfold _TRAILING_PUNCTUATION, trailing_punctuation.
  split.
  - intros (l & t & -> & Hl & Ht)%lang_cat_inv.
    apply Forall_app in Hs as [_ Ht'].
    apply (lang_cat_dollar _ _ Ht') in Ht as (a & -> & Ha)%lang_cls_inv.
    rewrite last_snoc. exact Ha.
  - destruct (last s) as [a|] eqn:El; [|discriminate]. intros Ha.
    apply last_Some in El as [l ->].
    apply Forall_app in Hs as [Hl Ha'].
    constructor; [apply lang_star_dot, Hl|].
    apply lang_cat_dollar; [assumption|]. constructor. exact Ha.
Qed.

Lemma match_bad_name w s :
  Forall (fun c => c <> 10%N) s ->
  lang (bad_name w) s <-> s = str_of w.
Proof.
  intros Hs. unfold bad_name. rewrite lang_cat_dollar by assumption.
  apply lang_lit.
Qed.

Lemma match_bad_names s :
  Forall (fun c => c <> 10%N) s ->
  re_match _BAD_NAMES s = true <-> In s reserved_names.
Proof.
  intros Hs. rewrite re_match_lang. unfold _BAD_NAMES, reserved_names.
  cbn [List.map In].
  split.
  - intros H.
    repeat match goal with
      | H : lang (Alt _ _) _ |- _ =>
          inversion H; subst; clear H
      | H : lang (bad_name _) _ |- _ =>
          apply (match_bad_name _ _ Hs) in H
      end; auto 20.
  - intros H.
    repeat match goal with
      | H : _ \/ _ |- _ => destruct H as [H | H]
      end;
      try contradiction; symmetry in H;
      apply (match_bad_name _ _ Hs) in H;
      repeat first [apply lang_alt_l; exact H | apply lang_alt_r].
    exact H.
Qed.

(** ** Which names the validator accepts *)

Lemma name_class_no_newline s :
  Forall (fun c => name_class c = true) s -> Forall (fun c => c <> 10%N) s.
Proof.
  intros H. eapply Forall_impl; [exact H|]. intros c. class_arith.
Qed.

Lemma root_valid_spec s :
  Forall (fun c => name_class c = true) s ->
  _isRootNameValid s = true
  <-> (3 <= length s)%nat /\ double_punctuation s = false
      /\ leading_punctuation s = false /\ trailing_punctuation s = false
      /\ ~ In s reserved_names.
Proof.
  intros Hs. pose proof (name_class_no_newline s Hs) as Hn.
  unfold _isRootNameValid, _isMatchAny. cbn [existsb].
  rewrite match_double_punctuation, match_leading_punctuation,
    match_trailing_punctuation by assumption.
  rewrite orb_false_r, andb_true_iff, negb_true_iff, !orb_false_iff.
  rewrite re_match_lang. unfold _ROOT_NAME_CHARACTERS.
  rewrite lang_cat_dollar, lang_at_least_3 by assumption.
  rewrite <- (not_true_iff_false (re_match _BAD_NAMES s)),
    match_bad_names by assumption.
  tauto.
Qed.

Lemma root_valid_length s :
  _isRootNameValid s = true -> (3 <= length s)%nat.
Proof.
  unfold _isRootNameValid. intros [Hm _]%andb_prop.
  apply re_match_lang in Hm. unfold _ROOT_NAME_CHARACTERS in Hm.
  apply lang_cat_inv in Hm as (s1 & s2 & -> & [H _]%lang_at_least_3 & _).
  rewrite length_app. lia.
Qed.

(** What each indicator needs: a tag delimiter inside the name, or a
    marker at its start. *)
Lemma lang_needs_char r1 (a : ascii) r2 s :
  lang (Cat r1 (Cat (Cls (chr a)) r2)) s -> In (N_of_ascii a) s.
Proof.
  intros (s1 & s2 & -> & _
          & (? & s3 & -> & (c & -> & ->%chr_eq)%lang_cls_inv & _)%lang_cat_inv
         )%lang_cat_inv.
  apply in_or_app. right. left. reflexivity.
Qed.

Lemma lang_starts_char (a : ascii) r s :
  lang (Cat (Cls (chr a)) r) s -> head s = Some (N_of_ascii a).
Proof.
  intros (? & s2 & -> & (c & -> & ->%chr_eq)%lang_cls_inv & _)%lang_cat_inv.
  reflexivity.
Qed.

Lemma unique_indicator_hash s :
  re_match _UNIQUE_INDICATOR s = true ->
  In _UNIQUE_TAG_DELIMITER s /\ head s <> Some _UNIQUE_TAG_DELIMITER.
Proof.
  intros H%re_match_lang. split; [apply (lang_needs_char _ _ _ _ H)|].
  unfold _UNIQUE_INDICATOR in H.
  apply lang_cat_inv in H as (l & t & -> & [Hn Hl]%lang_plus_cls & _).
  destruct l as [|c l]; [contradiction|].
  inversion Hl as [|? ? Hc _]; subst. cbn. intros [= ->]. discriminate.
Qed.

Lemma msg_channel_indicator_tilde s :
  re_match _MSG_CHANNEL_INDICATOR s = true -> In _MSG_CHANNEL_DELIMITER s.
Proof. intros H%re_match_lang. apply (lang_needs_char _ _ _ _ H). Qed.

Lemma owner_indicator_bang s :
  re_match _OWNER_INDICATOR s = true -> In ASSET_OWNER_IDENTIFIER s.
Proof. intros H%re_match_lang. apply (lang_needs_char _ _ _ _ H). Qed.

Lemma qualifier_indicator_hash s :
  re_match _QUALIFIER_INDICATOR s = true ->
  head s = Some _QUALIFIER_TAG_DELIMITER.
Proof. intros H%re_match_lang. apply (lang_starts_char _ _ _ H). Qed.

Lemma sub_qualifier_indicator_slash s :
  re_match _SUB_QUALIFIER_INDICATOR s = true -> In _SUB_NAME_DELIMITER s.
Proof.
  intros H%re_match_lang. unfold _SUB_QUALIFIER_INDICATOR in H.
  apply lang_cat_inv in H as (s1 & s2 & -> & _ & H).
  apply in_or_app. right. apply (lang_needs_char _ _ _ _ H).
Qed.

Lemma restricted_indicator_dollar s :
  re_match _RESTRICTED_INDICATOR s = true ->
  head s = Some _RESTRICTED_TAG_DELIMITER.
Proof. intros H%re_match_lang. apply (lang_starts_char _ _ _ H). Qed.

Lemma contains_In d s : contains d s = true <-> In d s.
Proof.
  unfold contains. rewrite existsb_exists. split.
  - intros (x & Hx & ->%N.eqb_eq). exact Hx.
  - intros H. exists d. split; [exact H | apply N.eqb_refl].
Qed.

Lemma split_plain d s : ~ In d s -> split d s = [s].
Proof.
  intros H. apply split_no_delimiter, Forall_forall.
  intros c Hc%list_elem_of_In ->. contradiction.
Qed.

Lemma typed_ROOT asset :
  get_error_for_asset_typed asset ROOT =
  if contains _SUB_NAME_DELIMITER asset
  then Some (gettext (str_of "Not a root asset."))
  else if MAX_NAME_LENGTH - 1 <? len asset
  then Some (msg_max_length (MAX_NAME_LENGTH - 1))
  else if negb (_isAssetNameASubAsset asset)
          && (len asset <? MIN_ASSET_LENGTH)
  then Some msg_min_length
  else
    let valid := _isNameValidBeforeTag asset in
    if negb valid && _isAssetNameASubAsset asset
       && (len asset <? MIN_ASSET_LENGTH)
    then Some (gettext (str_of "Name must have at least "
           ++ str_of_int MIN_ASSET_LENGTH
           ++ str_of " characters (Valid characters are: A-Z 0-9 _ .)"))
    else if negb valid
    then Some (gettext (str_of "Name contains invalid characters (Valid characters are: A-Z 0-9 _ .) (special characters can't be the first or last characters)"))
    else None.
Proof. reflexivity. Qed.

(** A name without any delimiter or marker is judged as a root name. *)
Lemma unmarked_name_accepted s :
  ~ In _SUB_NAME_DELIMITER s -> ~ In _UNIQUE_TAG_DELIMITER s ->
  ~ In _MSG_CHANNEL_DELIMITER s -> ~ In ASSET_OWNER_IDENTIFIER s ->
  head s <> Some _RESTRICTED_TAG_DELIMITER ->
  get_error_for_asset_name s = None
  <-> len s <= MAX_NAME_LENGTH - 1 /\ _isRootNameValid s = true.
Proof.
  intros Hslash Hhash Htilde Hbang Hdollar.
  assert (Hsub : _isAssetNameASubAsset s = false).
  { unfold _isAssetNameASubAsset. rewrite split_plain by assumption.
    cbn. destruct (_isRootNameValid s); reflexivity. }
  assert (Hvalid : _isNameValidBeforeTag s = _isRootNameValid s).
  { unfold _isNameValidBeforeTag. rewrite split_plain by assumption.
    cbn. apply andb_true_r. }
  unfold get_error_for_asset_name.
  destruct (re_match _UNIQUE_INDICATOR s) eqn:E1;
    [apply unique_indicator_hash in E1 as [E1 _]; contradiction|].
  destruct (re_match _MSG_CHANNEL_INDICATOR s) eqn:E2;
    [apply msg_channel_indicator_tilde in E2; contradiction|].
  destruct (re_match _OWNER_INDICATOR s) eqn:E3;
    [apply owner_indicator_bang in E3; contradiction|].
  destruct (re_match _QUALIFIER_INDICATOR s) eqn:E4.
  { apply qualifier_indicator_hash in E4. destruct Hhash.
    destruct s; [discriminate|]. injection E4 as ->. left. reflexivity. }
  destruct (re_match _SUB_QUALIFIER_INDICATOR s) eqn:E5;
    [apply sub_qualifier_indicator_slash in E5; contradiction|].
  destruct (re_match _RESTRICTED_INDICATOR s) eqn:E6;
    [apply restricted_indicator_dollar in E6; contradiction|].
  rewrite Hsub, typed_ROOT, Hsub, Hvalid. cbv zeta.
  replace (contains _SUB_NAME_DELIMITER s) with false
    by (symmetry; apply not_true_iff_false; rewrite contains_In; assumption).
  cbn [negb andb]. rewrite andb_false_r.
  unfold MAX_NAME_LENGTH, MIN_ASSET_LENGTH.
  destruct (Z.ltb_spec 40 (len s)).
  { split; [discriminate | intros [H' _]; lia]. }
  destruct (Z.ltb_spec (32 - 1) (len s)).
  { split; [discriminate | intros [H' _]; lia]. }
  destruct (_isRootNameValid s) eqn:Ev.
  - apply root_valid_length in Ev. unfold len in *.
    destruct (Z.ltb_spec (Z.of_nat (length s)) 3); [lia|].
    cbn [negb andb]. split; intros; [split; [lia | reflexivity] | reflexivity].
  - destruct (len s <? 3); cbn [negb]; split; try discriminate;
      intros [_ H']; discriminate.
Qed.

(** *** A newline at the end of a name *)

Lemma lang_newline_tail r :
  ends_in_dollar r -> forall s,
  Forall (fun c => c <> 10%N) s -> (lang r (s ++ [10%N]) <-> lang r s).
Proof.
  induction 1 as [|r1 r2 Hc _ IH|r1 r2 _ IH1 _ IH2]; intros s Hs.
  - rewrite !lang_dollar. split.
    + intros [H | H]; [destruct s; discriminate|].
      left. destruct s as [|c [|c' s]]; [reflexivity | discriminate|].
      destruct s; discriminate.
    + intros [-> | ->]; [right; reflexivity|].
      inversion Hs as [|? ? Hn _]; subst. congruence.
  - split.
    + intros (s1 & s2 & E & H1 & H2)%lang_cat_inv.
      pose proof (lang_classes_within _ _ _ H1 Hc) as Hs1.
      destruct (decide (s2 = [])) as [-> | Hne].
      { rewrite app_nil_r in E. subst s1.
        apply Forall_app in Hs1 as [_ Hs1].
        inversion Hs1 as [|? ? Hn _]; subst. congruence. }
      destruct (exists_last Hne) as (s2' & x & ->).
      rewrite app_assoc in E. apply app_inj_tail in E as [-> <-].
      apply Forall_app in Hs as [_ Hs2].
      constructor; [exact H1 | apply IH; assumption].
    + intros (s1 & s2 & -> & H1 & H2)%lang_cat_inv.
      apply Forall_app in Hs as [_ Hs2].
      rewrite <- app_assoc. constructor; [exact H1 | apply IH; assumption].
  - split; intros H; inversion H; subst;
      solve [apply lang_alt_l, IH1; assumption
            | apply lang_alt_r, IH2; assumption
            | apply lang_alt_l; apply IH1; assumption
            | apply lang_alt_r; apply IH2; assumption].
Qed.

Lemma match_newline_tail r s :
  ends_in_dollar r -> Forall (fun c => c <> 10%N) s ->
  re_match r (s ++ [10%N]) = re_match r s.
Proof.
  intros Hr Hs. apply eq_true_iff_eq. rewrite !re_match_lang.
  apply lang_newline_tail; assumption.
Qed.

Lemma no_newline_name c : name_class c = true -> c <> 10%N.
Proof. class_arith. Qed.

Lemma no_newline_unique_tag c : unique_tag_class c = true -> c <> 10%N.
Proof. class_arith. Qed.

Lemma no_newline_channel c : channel_class c = true -> c <> 10%N.
Proof. class_arith. Qed.

Lemma no_newline_punctuation c : punctuation c = true -> c <> 10%N.
Proof. class_arith. Qed.

Lemma no_newline_dot c : negb (N.eqb c 10) = true -> c <> 10%N.
Proof. intros H%negb_true_iff%N.eqb_neq. exact H. Qed.

Lemma no_newline_letter (x : N) c : x <> 10%N -> N.eqb x c = true -> c <> 10%N.
Proof. intros Hx <-%N.eqb_eq. exact Hx. Qed.

Lemma no_newline_one_of chars c :
  forallb (fun x => negb (N.eqb x 10)) (str_of chars) = true ->
  one_of chars c = true -> c <> 10%N.
Proof.
  unfold one_of. rewrite forallb_forall, existsb_exists.
  intros H (x & Hx & ->%N.eqb_eq). apply H in Hx.
  apply negb_true_iff, N.eqb_neq in Hx. exact Hx.
Qed.

(** Every pattern of the validity tests ends in [$]. *)
Ltac ends_in_dollar :=
  repeat first
    [ apply ends_dollar
    | apply ends_alt
    | apply ends_cat;
      [ cbn [classes_within]; repeat apply conj; try exact I; intros c Hc;
        first [ apply (no_newline_name c Hc)
              | apply (no_newline_unique_tag c Hc)
              | apply (no_newline_channel c Hc)
              | apply (no_newline_punctuation c Hc)
              | apply (no_newline_dot c Hc)
              | (eapply no_newline_one_of; [|exact Hc]; reflexivity)
              | (eapply no_newline_letter; [|exact Hc]; discriminate) ]
      | ] ].

Lemma root_valid_newline_tail s :
  Forall (fun c => c <> 10%N) s ->
  _isRootNameValid (s ++ [10%N]) = _isRootNameValid s.
Proof.
  intros Hs. unfold _isRootNameValid, _isMatchAny. cbn [existsb].
  rewrite !match_newline_tail; try assumption; try reflexivity.
  - unfold _BAD_NAMES, bad_name. cbn [Lit str_of]. vm_compute str_of.
    cbn [Lit]. ends_in_dollar.
  - unfold _TRAILING_PUNCTUATION, Dot. ends_in_dollar.
  - unfold _LEADING_PUNCTUATION, Dot. ends_in_dollar.
  - unfold _DOUBLE_PUNCTUATION, AtLeast2, Dot. ends_in_dollar.
  - unfold _ROOT_NAME_CHARACTERS, AtLeast3. ends_in_dollar.
Qed.

Lemma name_class_Forall s :
  forallb name_class s = true -> Forall (fun c => name_class c = true) s.
Proof.
  rewrite forallb_forall, Forall_forall.
  intros H c Hc%list_elem_of_In. auto.
Qed.

Lemma name_class_not_in (d : N) s :
  name_class d = false -> Forall (fun c => name_class c = true) s ->
  ~ In d s.
Proof.
  intros Hd Hs Hin%list_elem_of_In. rewrite Forall_forall in Hs.
  apply Hs in Hin. congruence.
Qed.

(** X10: a name made of the characters A-Z, 0-9, [.] and [_] only is
    accepted exactly when it has 3 to 31 characters, no two punctuation
    characters in a row, no punctuation at either end, and is not one of
    the reserved names. *)
Theorem root_name_accepted (s : str) :
  forallb name_class s = true ->
  get_error_for_asset_name s = None
  <-> 3 <= len s <= MAX_NAME_LENGTH - 1
      /\ double_punctuation s = false
      /\ leading_punctuation s = false
      /\ trailing_punctuation s = false
      /\ ~ In s reserved_names.
Proof.
  intros Hs%name_class_Forall.
  rewrite unmarked_name_accepted, root_valid_spec by
    first [ assumption
          | apply name_class_not_in; [reflexivity | assumption]
          | destruct s as [|c s]; [discriminate|];
            inversion Hs as [|? ? Hc _]; subst; cbn; intros [= ->];
            discriminate ].
  unfold len. intuition lia.
Qed.

Lemma root_name_accepted_witness :
  get_error_for_asset_name (str_of "A.B_C") = None.
Proof.
  apply (proj2 (root_name_accepted (str_of "A.B_C") eq_refl)).
  vm_compute. repeat split; try congruence.
  intros H. repeat destruct H as [H | H]; try discriminate. exact H.
Defined.

(** X11: a newline at the end does not stop a name from being accepted: for
    a name [s] made of the characters A-Z, 0-9, [.] and [_], the name [s]
    followed by a newline is accepted exactly when [s] is accepted and has
    at most 30 characters. *)
Theorem root_name_with_newline_accepted (s : str) :
  forallb name_class s = true ->
  get_error_for_asset_name (s ++ [10%N]) = None
  <-> get_error_for_asset_name s = None /\ len s <= MAX_NAME_LENGTH - 2.
Proof.
  intros Hs%name_class_Forall.
  pose proof (name_class_no_newline s Hs) as Hn.
  assert (Hlen : len (s ++ [10%N]) = len s + 1)
    by (unfold len; rewrite length_app; cbn [length]; lia).
  assert (Hno : forall d : N, name_class d = false -> d <> 10%N ->
                              ~ In d (s ++ [10%N])).
  { intros d Hd Hd' [H | [H | []]]%in_app_or.
    - exact (name_class_not_in d s Hd Hs H).
    - congruence. }
  assert (Hhead : forall d : N, name_class d = false -> d <> 10%N ->
                  forall t, Forall (fun c => name_class c = true \/ c = 10%N) t ->
                  head t <> Some d).
  { intros d Hd Hd' [|c t] Ht; [discriminate|].
    inversion Ht as [|? ? Hc _]; subst. cbn. intros [= ->].
    destruct Hc; congruence. }
  rewrite (unmarked_name_accepted (s ++ [10%N])), root_valid_newline_tail,
    (unmarked_name_accepted s) by
    first [ assumption
          | apply Hno; [reflexivity | discriminate]
          | apply name_class_not_in; [reflexivity | assumption]
          | apply Hhead; [reflexivity | discriminate |];
            rewrite ?Forall_app; repeat split;
            first [ eapply Forall_impl; [exact Hs|]; intros c Hc; left; exact Hc
                  | repeat constructor; right; reflexivity ] ].
  rewrite Hlen. unfold MAX_NAME_LENGTH. intuition lia.
Qed.

Lemma root_name_with_newline_accepted_witness :
  get_error_for_asset_name (str_of "ABC" ++ [10%N]) = None.
Proof.
  apply (proj2 (root_name_with_newline_accepted (str_of "ABC") eq_refl)).
  split; [reflexivity | vm_compute; congruence].
Defined.

(** *** Restricted names and qualifiers *)

Lemma typed_RESTRICTED asset :
  get_error_for_asset_typed asset RESTRICTED =
  if MAX_NAME_LENGTH <? len asset
  then Some (msg_max_length MAX_NAME_LENGTH)
  else if negb (_isRestrictedNameValid asset)
  then Some (gettext (str_of "Restricted name contains invalid characters (Valid characters are: A-Z 0-9 _ .) ($ must be the first character, _ . special characters can't be the first or last characters)"))
  else None.
Proof. reflexivity. Qed.

Lemma typed_QUALIFIER asset :
  get_error_for_asset_typed asset QUALIFIER =
  if MAX_NAME_LENGTH <? len asset
  then Some (msg_max_length MAX_NAME_LENGTH)
  else if contains _SUB_NAME_DELIMITER asset
  then Some (gettext (str_of "Not a qualifier"))
  else if len asset <? 4
  then Some msg_min_length
  else if negb (_isQualifierNameValidBeforeTag asset)
  then Some (gettext (str_of "Qualifier name contains invalid characters (Valid characters are: A-Z 0-9 _ .) (# must be the first character, _ . special characters can't be the first or last characters)"))
  else None.
Proof. reflexivity. Qed.

Lemma lang_marked (a : ascii) r body :
  lang (Cat (Cls (chr a)) r) (N_of_ascii a :: body) <-> lang r body.
Proof.
  split.
  - intros (? & s2 & E & (c & -> & Hc)%lang_cls_inv & H)%lang_cat_inv.
    injection E as _ ->. exact H.
  - intros H. change (N_of_ascii a :: body) with ([N_of_ascii a] ++ body).
    constructor; [constructor; apply N.eqb_refl | exact H].
Qed.

Lemma match_marked_name (a : ascii) body :
  Forall (fun c => name_class c = true) body ->
  re_match (Cat (Cls (chr a)) (Cat (AtLeast3 (Cls name_class)) Dollar))
    (N_of_ascii a :: body) = (3 <=? length body)%nat.
Proof.
  intros Hb. apply eq_true_iff_eq.
  rewrite re_match_lang, lang_marked, lang_cat_dollar, lang_at_least_3,
    Nat.leb_le by (apply name_class_no_newline, Hb).
  tauto.
Qed.

(** A name that starts with a marker is no root name. *)
Lemma marked_not_before_tag (m : N) body :
  name_class m = false -> m <> 10%N -> m <> _SUB_NAME_DELIMITER ->
  _isNameValidBeforeTag (m :: body) = false.
Proof.
  intros Hm Hm' Hm''. apply not_true_iff_false. intros H.
  unfold _isNameValidBeforeTag in H. cbn [split] in H.
  replace (m =? _SUB_NAME_DELIMITER)%N with false in H
    by (symmetry; apply N.eqb_neq; exact Hm'').
  assert (Hroot : exists p, _isRootNameValid (m :: p) = true).
  { destruct (split _SUB_NAME_DELIMITER body) as [|p ps];
      apply andb_prop in H as [H _]; eauto. }
  destruct Hroot as [p Hp]. unfold _isRootNameValid in Hp.
  apply andb_prop in Hp as [Hp _].
  apply (match_plain_chars (fun c => name_class c = true \/ c = 10%N)) in Hp.
  - inversion Hp as [|? ? [Hc | Hc] _]; subst; congruence.
  - unfold _ROOT_NAME_CHARACTERS, AtLeast3, Dollar. cbn [classes_within].
    repeat apply conj; try exact I; intros c Hc; auto.
    right. apply N.eqb_eq in Hc. auto.
Qed.

Lemma marked_rejected_as_root (m : N) body :
  name_class m = false -> m <> 10%N -> m <> _SUB_NAME_DELIMITER ->
  get_error_for_asset_typed (m :: body)
    (if _isAssetNameASubAsset (m :: body) then SUB else ROOT) <> None.
Proof.
  intros Hm Hm' Hm'' H.
  pose proof (marked_not_before_tag m body Hm Hm' Hm'') as Hv.
  destruct (_isAssetNameASubAsset (m :: body));
    apply typed_accepted in H; congruence.
Qed.

Lemma marked_double_punctuation (m : N) body :
  punctuation m = false ->
  double_punctuation (m :: body) = double_punctuation body.
Proof.
  intros Hm. cbn [double_punctuation]. rewrite Hm.
  destruct body; reflexivity.
Qed.

Lemma marked_trailing_punctuation (m : N) body :
  body <> [] -> trailing_punctuation (m :: body) = trailing_punctuation body.
Proof.
  intros Hb. unfold trailing_punctuation.
  destruct body; [contradiction | reflexivity].
Qed.

Lemma marked_no_delimiter (m d : N) body :
  m <> d -> name_class d = false ->
  Forall (fun c => name_class c = true) body -> ~ In d (m :: body).
Proof.
  intros Hm Hd Hb [H | H]; [contradiction|].
  exact (name_class_not_in d body Hd Hb H).
Qed.

(** X12: a name [$body] whose body is made of the characters A-Z, 0-9, [.]
    and [_] is accepted exactly when the body has 3 to 31 characters, no
    two punctuation characters in a row and no punctuation at its end;
    neither a punctuation character right behind the [$] nor a reserved
    word as body makes the validator reject it. *)
Theorem restricted_name_accepted (body : str) :
  forallb name_class body = true ->
  get_error_for_asset_name (_RESTRICTED_TAG_DELIMITER :: body) = None
  <-> 3 <= len body <= MAX_NAME_LENGTH - 1
      /\ double_punctuation body = false
      /\ trailing_punctuation body = false.
Proof.
  intros Hb%name_class_Forall.
  pose proof (name_class_no_newline body Hb) as Hn.
  set (s := _RESTRICTED_TAG_DELIMITER :: body).
  assert (Hns : Forall (fun c => c <> 10%N) s)
    by (constructor; [discriminate | exact Hn]).
  assert (Hlen : len s = len body + 1)
    by (unfold len, s; cbn [length]; lia).
  unfold get_error_for_asset_name.
  destruct (re_match _UNIQUE_INDICATOR s) eqn:E1.
  { apply unique_indicator_hash in E1 as [E1 _].
    exfalso. revert E1. unfold s.
    apply marked_no_delimiter; [discriminate | reflexivity | exact Hb]. }
  destruct (re_match _MSG_CHANNEL_INDICATOR s) eqn:E2.
  { apply msg_channel_indicator_tilde in E2.
    exfalso. revert E2. unfold s.
    apply marked_no_delimiter; [discriminate | reflexivity | exact Hb]. }
  destruct (re_match _OWNER_INDICATOR s) eqn:E3.
  { apply owner_indicator_bang in E3.
    exfalso. revert E3. unfold s.
    apply marked_no_delimiter; [discriminate | reflexivity | exact Hb]. }
  destruct (re_match _QUALIFIER_INDICATOR s) eqn:E4;
    [apply qualifier_indicator_hash in E4; discriminate|].
  destruct (re_match _SUB_QUALIFIER_INDICATOR s) eqn:E5.
  { apply sub_qualifier_indicator_slash in E5.
    exfalso. revert E5. unfold s.
    apply marked_no_delimiter; [discriminate | reflexivity | exact Hb]. }
  pose proof (match_marked_name "$" body Hb) as E6.
  change (re_match _RESTRICTED_INDICATOR s = (3 <=? length body)%nat) in E6.
  rewrite E6. unfold MAX_NAME_LENGTH, len in *.
  destruct (Z.ltb_spec 40 (Z.of_nat (length s))).
  { split; [discriminate | lia]. }
  destruct (Nat.leb_spec 3 (length body)) as [H3 | H3].
  - rewrite typed_RESTRICTED. unfold MAX_NAME_LENGTH, len.
    destruct (Z.ltb_spec 32 (Z.of_nat (length s))).
    { split; [discriminate | lia]. }
    unfold _isRestrictedNameValid, _isMatchAny. cbn [existsb].
    change (re_match _RESTRICTED_NAME_CHARACTERS s)
      with (re_match _RESTRICTED_INDICATOR s).
    rewrite E6, match_double_punctuation, match_leading_punctuation,
      match_trailing_punctuation by assumption.
    unfold s at 1 2 3.
    rewrite marked_double_punctuation by reflexivity.
    rewrite marked_trailing_punctuation by (intros ->; cbn in H3; lia).
    change (leading_punctuation (_RESTRICTED_TAG_DELIMITER :: body))
      with false.
    destruct (Nat.leb_spec 3 (length body)); [|lia].
    assert (Hbad : re_match _BAD_NAMES s = false).
    { apply not_true_iff_false. rewrite match_bad_names by assumption.
      intros Hin. vm_compute in Hin.
      repeat destruct Hin as [Hin | Hin]; try discriminate. exact Hin. }
    rewrite Hbad. cbn [andb orb negb]. rewrite !orb_false_r.
    destruct (double_punctuation body), (trailing_punctuation body);
      cbn [andb orb negb]; split; try discriminate; try (intros; lia);
      intuition (try discriminate; try lia).
  - split; [|lia]. intros H'. exfalso.
    revert H'. apply (marked_rejected_as_root _ body);
      [reflexivity | discriminate | discriminate].
Qed.

Lemma restricted_name_accepted_witness :
  get_error_for_asset_name (str_of "$.RAVEN") = None.
Proof.
  apply (proj2 (restricted_name_accepted (str_of ".RAVEN") eq_refl)).
  vm_compute. repeat split; congruence.
Defined.

Lemma match_qualifier_leading_punctuation body :
  Forall (fun c => c <> 10%N) body ->
  re_match _QUALIFIER_LEADING_PUNCTUATION (_QUALIFIER_TAG_DELIMITER :: body)
  = leading_punctuation body.
Proof.
  intros Hb. apply eq_true_iff_eq.
  rewrite re_match_lang. unfold _QUALIFIER_LEADING_PUNCTUATION. split.
  - intros (? & t & E & (c & -> & Hc)%lang_cls_inv & H)%lang_cat_inv.
    injection E as _ ->.
    apply lang_cat_inv in H as (? & t' & -> & (a & -> & Ha)%lang_cls_inv & _).
    exact Ha.
  - destruct body as [|a body]; [discriminate|]. cbn [leading_punctuation].
    intros Ha. inversion Hb as [|? ? _ Hb']; subst.
    change (_QUALIFIER_TAG_DELIMITER :: a :: body)
      with ([_QUALIFIER_TAG_DELIMITER] ++ [a] ++ body).
    constructor; [constructor; reflexivity|].
    constructor; [constructor; exact Ha|].
    apply lang_cat_dollar; [assumption|]. apply lang_star_dot, Hb'.
Qed.

(** X13: a name [#body] whose body is made of the characters A-Z, 0-9, [.]
    and [_] is accepted exactly when the body has 3 to 31 characters, no
    two punctuation characters in a row, no punctuation at either end, and
    the name is not a reserved one. *)
Theorem qualifier_name_accepted (body : str) :
  forallb name_class body = true ->
  get_error_for_asset_name (_QUALIFIER_TAG_DELIMITER :: body) = None
  <-> 3 <= len body <= MAX_NAME_LENGTH - 1
      /\ double_punctuation body = false
      /\ leading_punctuation body = false
      /\ trailing_punctuation body = false
      /\ ~ In (_QUALIFIER_TAG_DELIMITER :: body) reserved_names.
Proof.
  intros Hb%name_class_Forall.
  pose proof (name_class_no_newline body Hb) as Hn.
  set (s := _QUALIFIER_TAG_DELIMITER :: body).
  assert (Hns : Forall (fun c => c <> 10%N) s)
    by (constructor; [discriminate | exact Hn]).
  assert (Hlen : len s = len body + 1)
    by (unfold len, s; cbn [length]; lia).
  assert (Hslash : ~ In _SUB_NAME_DELIMITER s)
    by (apply marked_no_delimiter; [discriminate | reflexivity | exact Hb]).
  unfold get_error_for_asset_name.
  destruct (re_match _UNIQUE_INDICATOR s) eqn:E1.
  { apply unique_indicator_hash in E1 as [_ E1]. destruct E1. reflexivity. }
  destruct (re_match _MSG_CHANNEL_INDICATOR s) eqn:E2.
  { apply msg_channel_indicator_tilde in E2.
    exfalso. revert E2. unfold s.
    apply marked_no_delimiter; [discriminate | reflexivity | exact Hb]. }
  destruct (re_match _OWNER_INDICATOR s) eqn:E3.
  { apply owner_indicator_bang in E3.
    exfalso. revert E3. unfold s.
    apply marked_no_delimiter; [discriminate | reflexivity | exact Hb]. }
  pose proof (match_marked_name "#" body Hb) as E4.
  change (re_match _QUALIFIER_INDICATOR s = (3 <=? length body)%nat) in E4.
  rewrite E4. unfold MAX_NAME_LENGTH, len in *.
  destruct (Z.ltb_spec 40 (Z.of_nat (length s))).
  { split; [discriminate | lia]. }
  destruct (Nat.leb_spec 3 (length body)) as [H3 | H3].
  - rewrite typed_QUALIFIER. unfold MAX_NAME_LENGTH, len.
    destruct (Z.ltb_spec 32 (Z.of_nat (length s))).
    { split; [discriminate | lia]. }
    replace (contains _SUB_NAME_DELIMITER s) with false
      by (symmetry; apply not_true_iff_false; rewrite contains_In;
          assumption).
    destruct (Z.ltb_spec (Z.of_nat (length s)) 4); [lia|].
    unfold _isQualifierNameValidBeforeTag.
    rewrite split_plain by assumption. cbn [hd tl length forallb].
    change (2 <? 1)%nat with false.
    unfold _isQualifierNameValid, _isMatchAny. cbn [existsb].
    change (re_match _QUALIFIER_NAME_CHARACTERS s)
      with (re_match _QUALIFIER_INDICATOR s).
    rewrite E4, match_double_punctuation, match_trailing_punctuation
      by assumption.
    unfold s at 1 2 3.
    rewrite marked_double_punctuation by reflexivity.
    rewrite match_qualifier_leading_punctuation by assumption.
    rewrite marked_trailing_punctuation by (intros ->; cbn in H3; lia).
    destruct (Nat.leb_spec 3 (length body)); [|lia].
    fold s. rewrite orb_false_r.
    destruct (re_match _BAD_NAMES s) eqn:Ebad.
    + apply match_bad_names in Ebad; [|assumption].
      rewrite !orb_true_r. cbn [andb negb]. split; [discriminate|tauto].
    + assert (Hnot : ~ In s reserved_names).
      { intros Hin. apply match_bad_names in Hin; [|assumption]. congruence. }
      rewrite !orb_false_r.
      destruct (double_punctuation body), (leading_punctuation body),
        (trailing_punctuation body);
        cbn [andb orb negb]; split; try discriminate;
        intuition (try discriminate; try lia).
  - split; [|lia]. intros H'. exfalso. revert H'.
    destruct (re_match _SUB_QUALIFIER_INDICATOR s) eqn:E5;
      [apply sub_qualifier_indicator_slash in E5; contradiction|].
    destruct (re_match _RESTRICTED_INDICATOR s) eqn:E6;
      [apply restricted_indicator_dollar in E6; discriminate|].
    apply (marked_rejected_as_root _ body);
      [reflexivity | discriminate | discriminate].
Qed.

Lemma qualifier_name_accepted_witness :
  get_error_for_asset_name (str_of "#KYC") = None.
Proof.
  apply (proj2 (qualifier_name_accepted (str_of "KYC") eq_refl)).
  vm_compute. repeat split; try congruence.
  intros H. repeat destruct H as [H | H]; try discriminate. exact H.
Defined.

(** *** Message channels *)

Lemma typed_MSG_CHANNEL asset :
  get_error_for_asset_typed asset MSG_CHANNEL =
  if MAX_NAME_LENGTH <? len asset
  then Some (msg_max_length MAX_NAME_LENGTH)
  else
    let parts := split _MSG_CHANNEL_DELIMITER asset in
    if (length parts =? 1)%nat
    then Some (gettext (str_of "Not a message channel."))
    else if MAX_CHANNEL_NAME_LENGTH <? len (List.last parts [])
    then Some (gettext (str_of "Channel name is greater than max length of "
           ++ str_of_int MAX_CHANNEL_NAME_LENGTH ++ str_of "."))
    else if negb (_isNameValidBeforeTag (hd [] parts))
            || negb (_isMsgChannelTagValid (List.last parts []))
    then Some (gettext (str_of "Message Channel name contains invalid characters (Valid characters are: A-Z 0-9 _ .) (special characters can't be the first or last characters)"))
    else None.
Proof. reflexivity. Qed.

Lemma msg_channel_tag_chars t :
  _isMsgChannelTagValid t = true -> t <> [] /\ Forall tag_char t.
Proof.
  unfold _isMsgChannelTagValid. intros [Hm _]%andb_prop. split.
  - intros ->. discriminate.
  - revert Hm. apply match_plain_chars.
    unfold _MSG_CHANNEL_TAG_CHARACTERS, Plus, Dollar. cbn [classes_within].
    repeat apply conj; try exact I; intros c Hc;
      first [apply channel_class_plain, Hc | apply newline_tag, Hc].
Qed.

Lemma msg_channel_indicator_matches l t :
  l <> [] -> Forall head_char l -> t <> [] -> Forall tag_char t ->
  re_match _MSG_CHANNEL_INDICATOR (l ++ _MSG_CHANNEL_DELIMITER :: t) = true.
Proof.
  intros Hl Hcl Ht Hct. apply re_match_lang. unfold _MSG_CHANNEL_INDICATOR.
  constructor.
  - apply lang_plus_cls. split; [assumption|].
    eapply Forall_impl; [exact Hcl|]. intros c Hc. apply Hc.
  - change (_MSG_CHANNEL_DELIMITER :: t)
      with ([_MSG_CHANNEL_DELIMITER] ++ t).
    constructor; [constructor; reflexivity|].
    rewrite <- (app_nil_r t). constructor.
    + apply lang_plus_cls. split; [assumption|].
      eapply Forall_impl; [exact Hct|]. intros c Hc. apply Hc.
    + apply lang_dollar. auto.
Qed.

Lemma not_tilde_head c : none_of "^~#!" c = true -> c <> 126%N.
Proof. class_arith. Qed.

Lemma not_tilde_tag c : none_of "~#!/" c = true -> c <> 126%N.
Proof. class_arith. Qed.

(** X14: a name [left~tag] whose left side passes the root/sub test and
    whose tag passes the channel-tag test is accepted exactly when the tag
    has at most 12 characters and the whole name at most 32. *)
Theorem msg_channel_name_accepted (left tag : str) :
  _isNameValidBeforeTag left = true ->
  _isMsgChannelTagValid tag = true ->
  get_error_for_asset_name (left ++ _MSG_CHANNEL_DELIMITER :: tag) = None
  <-> len tag <= MAX_CHANNEL_NAME_LENGTH
      /\ len (left ++ _MSG_CHANNEL_DELIMITER :: tag) <= MAX_NAME_LENGTH.
Proof.
  intros Hl Ht.
  destruct (before_tag_chars _ Hl) as [Hln Hlc].
  destruct (msg_channel_tag_chars _ Ht) as [Htn Htc].
  set (s := left ++ _MSG_CHANNEL_DELIMITER :: tag).
  unfold get_error_for_asset_name.
  assert (E1 : re_match _UNIQUE_INDICATOR s = false).
  { destruct (re_match _UNIQUE_INDICATOR s) eqn:E; [|reflexivity].
    apply (match_plain_chars (fun c => c <> 126%N)) in E.
    - apply Forall_app in E as [_ E]. inversion E as [|? ? Hc _]; subst.
      destruct Hc. reflexivity.
    - unfold _UNIQUE_INDICATOR, Plus, Dollar. cbn [classes_within].
      repeat apply conj; try exact I; intros c Hc;
        first [ apply (not_tilde_head c Hc) | apply (not_tilde_tag c Hc)
              | apply chr_eq in Hc; subst; discriminate
              | apply N.eqb_eq in Hc; subst; discriminate ]. }
  rewrite E1. unfold s at 2. rewrite msg_channel_indicator_matches by assumption.
  assert (Hsplit : split _MSG_CHANNEL_DELIMITER s = [left; tag]).
  { unfold s. rewrite split_app_delimiter, split_no_delimiter; [reflexivity| |].
    - apply (tag_char_not_delimiter _MSG_CHANNEL_DELIMITER) in Htc;
        [assumption | vm_compute; tauto].
    - apply (head_char_not_delimiter _MSG_CHANNEL_DELIMITER) in Hlc;
        [assumption | vm_compute; tauto]. }
  rewrite typed_MSG_CHANNEL. cbv zeta. rewrite !Hsplit.
  cbn [length hd List.last Nat.eqb]. rewrite Hl, Ht. cbn [negb orb].
  unfold MAX_NAME_LENGTH, MAX_CHANNEL_NAME_LENGTH.
  destruct (Z.ltb_spec 40 (len s)); [split; [discriminate | lia]|].
  destruct (Z.ltb_spec 32 (len s)); [split; [discriminate | lia]|].
  destruct (Z.ltb_spec 12 (len tag)); [split; [discriminate | lia]|].
  split; [intros _; split; assumption | reflexivity].
Qed.

Lemma msg_channel_name_accepted_witness :
  get_error_for_asset_name (str_of "ABC~news_1") = None.
Proof.
  apply (proj2 (msg_channel_name_accepted (str_of "ABC") (str_of "news_1")
                  eq_refl eq_refl)).
  vm_compute. split; congruence.
Defined.

(** *** Owner names *)

(** X15: a name that ends in [!] is accepted exactly when what stands
    before the [!] passes the root/sub test and has at most 31
    characters. *)
Theorem owner_name_accepted_iff (l : str) :
  get_error_for_asset_name (l ++ [ASSET_OWNER_IDENTIFIER]) = None
  <-> _isNameValidBeforeTag l = true /\ len l <= MAX_NAME_LENGTH - 1.
Proof. apply owner_name_accepted. Qed.

(** *** The shape of an accepted name *)

Lemma split_hd_length d s : (length (hd [] (split d s)) <= length s)%nat.
Proof.
  induction s as [|c s IH]; cbn [split]; [cbn; lia|].
  destruct (c =? d)%N; [cbn; lia|].
  destruct (split d s) as [|p ps]; cbn in *; lia.
Qed.

Lemma valid_before_tag_length s :
  _isNameValidBeforeTag s = true -> (3 <= length s)%nat.
Proof.
  unfold _isNameValidBeforeTag.
  pose proof (split_hd_length _SUB_NAME_DELIMITER s) as Hl.
  destruct (split _SUB_NAME_DELIMITER s) as [|p ps] eqn:Es;
    [destruct (split_not_nil _ _ Es)|].
  cbn [hd] in Hl. intros [Hp _]%andb_prop. apply root_valid_length in Hp. lia.
Qed.

Lemma marked_valid_length (a : ascii) s :
  re_match (Cat (Cls (chr a)) (Cat (AtLeast3 (Cls name_class)) Dollar)) s
  = true -> (4 <= length s)%nat.
Proof.
  intros H%re_match_lang.
  apply lang_cat_inv in H as (? & t & -> & (c & -> & _)%lang_cls_inv & H).
  apply lang_cat_inv in H as (s1 & s2 & -> & [H _]%lang_at_least_3 & _).
  cbn [length app]. rewrite length_app. lia.
Qed.

Lemma length_but_last {A} (s : list A) : (length (but_last s) <= length s)%nat.
Proof. unfold but_last. rewrite length_take. lia. Qed.

Lemma typed_accepted_min_length asset t :
  get_error_for_asset_typed asset t = None -> (3 <= length asset)%nat.
Proof.
  intros H. apply typed_accepted in H. destruct t.
  - apply valid_before_tag_length, H.
  - apply valid_before_tag_length, H.
  - destruct H as [H _]. apply valid_before_tag_length in H.
    pose proof (split_hd_length _MSG_CHANNEL_DELIMITER asset). lia.
  - apply valid_before_tag_length in H.
    pose proof (length_but_last asset). lia.
  - destruct H as [H _]. apply valid_before_tag_length in H.
    pose proof (split_hd_length _UNIQUE_TAG_DELIMITER asset). lia.
  - unfold _isQualifierNameValidBeforeTag in H.
    destruct (_isQualifierNameValid _) eqn:E; [|discriminate].
    unfold _isQualifierNameValid in E. apply andb_prop in E as [E _].
    apply marked_valid_length in E.
    pose proof (split_hd_length _SUB_NAME_DELIMITER asset). lia.
  - unfold _isQualifierNameValidBeforeTag in H.
    destruct (_isQualifierNameValid _) eqn:E; [|discriminate].
    unfold _isQualifierNameValid in E. apply andb_prop in E as [E _].
    apply marked_valid_length in E.
    pose proof (split_hd_length _SUB_NAME_DELIMITER asset). lia.
  - unfold _isRestrictedNameValid in H. apply andb_prop in H as [E _].
    apply marked_valid_length in E. lia.
Qed.

Lemma accepted_name_typed asset :
  get_error_for_asset_name asset = None ->
  exists t, get_error_for_asset_typed asset t = None.
Proof.
  unfold get_error_for_asset_name.
  repeat match goal with
    | |- (if ?c then _ else _) = None -> _ => destruct c
    end; try discriminate; eauto.
Qed.

(** X16: a name that the validator accepts has 3 to 32 characters, all of
    them ASCII; so its UTF-8 encoding has one byte for each character (the
    length that the encoders write in front of it) and decodes back to the
    name. *)
Theorem accepted_name_shape (asset : str) :
  get_error_for_asset_name asset = None ->
  3 <= len asset <= MAX_NAME_LENGTH
  /\ Forall is_ascii asset
  /\ exists b, encode asset = Ok b /\ length b = length asset
               /\ decode b = Ok asset.
Proof.
  intros Hname.
  pose proof (accepted_name_ascii _ Hname) as Hascii.
  destruct (accepted_name_typed _ Hname) as [t Ht].
  pose proof (typed_accepted_min_length _ _ Ht) as Hmin.
  destruct (typed_accepted_length _ _ Ht) as [Hmax _].
  split; [unfold len in *; lia|]. split; [assumption|].
  exists (ascii_bytes asset).
  split; [apply encode_ascii_text, Hascii|].
  split; [apply length_ascii_bytes | apply decode_ascii_text, Hascii].
Qed.

Lemma accepted_name_shape_witness :
  3 <= len (str_of "ABC/DEF#tag") <= MAX_NAME_LENGTH.
Proof.
  apply (accepted_name_shape (str_of "ABC/DEF#tag") eq_refl).
Defined.

(** ** The verifier expression engine: errors *)

Lemma sound_Str s : sound (Str s).
Proof. intros e H. discriminate. Qed.

Lemma sound_var_node name : sound (var_node name).
Proof. intros e _ _. reflexivity. Qed.

Lemma sound_syntax_error msg : msg <> [] -> sound (syntax_error msg).
Proof.
  intros Hm e. cbn. intros [= <-]. unfold gettext.
  destruct msg; [contradiction | discriminate].
Qed.

Lemma sound_not x : sound x -> sound (Node NOT (Some x) None None).
Proof.
  intros Hx e. cbn [error]. rewrite bool_decide_eq_false_2 by discriminate.
  destruct (error x) as [l_error|] eqn:El; [|discriminate].
  cbn [mbind result_bind].
  destruct (truthy l_error) eqn:Et; [intros [= <-]; congruence|].
  intros _ _. cbn. apply (Hx _ El Et).
Qed.

Lemma sound_binary op l r :
  op = AND \/ op = OR -> sound l -> sound r ->
  sound (Node op (Some l) (Some r) None).
Proof.
  intros Hop Hl Hr e. cbn [error].
  rewrite bool_decide_eq_false_2 by (destruct Hop; subst; discriminate).
  destruct (error l) as [l_error|] eqn:El; [|discriminate].
  cbn [mbind result_bind].
  destruct (truthy l_error) eqn:Etl; [intros [= <-]; congruence|].
  destruct (error r) as [r_error|] eqn:Er; [|discriminate].
  cbn [mbind result_bind].
  destruct (truthy r_error) eqn:Etr; [intros [= <-]; congruence|].
  intros _ _. cbn [well_formed truthy negb andb].
  rewrite (Hl _ El Etl), (Hr _ Er Etr). destruct Hop; subst; reflexivity.
Qed.

Lemma not_pass_sound items : forall is_not resolved acc,
  Forall sound items -> Forall sound acc ->
  Forall sound (snd (not_pass items is_not resolved acc)).
Proof.
  induction items as [|item items IH]; intros is_not resolved acc Hi Ha;
    cbn [not_pass]; [exact Ha|].
  inversion Hi as [|? ? Hitem Hitems]; subst.
  destruct (is_token "!" item); [apply IH; assumption|].
  destruct is_not; apply IH; try assumption; apply Forall_app; split;
    try assumption; repeat constructor; [apply sound_not|]; assumption.
Qed.

Lemma pop_sound acc (x : obj) acc' :
  pop acc = Some (x, acc') -> Forall sound acc ->
  sound x /\ Forall sound acc'.
Proof.
  unfold pop. destruct (last acc) as [y|] eqn:El; [|discriminate].
  intros [= <- <-] Ha. apply last_Some in El as [l ->].
  rewrite length_app. cbn [length].
  replace (length l + 1 - 1)%nat with (length l) by lia.
  rewrite take_app_length. apply Forall_app in Ha as [Hl Hy].
  inversion Hy; subst. auto.
Qed.

Lemma binary_pass_sound tok op no_left items : forall looking acc,
  op = AND \/ op = OR -> str_of no_left <> [] ->
  Forall sound items -> Forall sound acc ->
  match binary_pass tok op no_left items looking acc with
  | Next (_, acc') => Forall sound acc'
  | Return node => sound node
  end.
Proof.
  intros looking acc Hop Hmsg. revert looking acc.
  induction items as [|item items IH]; intros looking acc Hi Ha;
    cbn [binary_pass]; [exact Ha|].
  inversion Hi as [|? ? Hitem Hitems]; subst.
  destruct (is_token tok item); [apply IH; assumption|].
  destruct looking.
  - destruct (pop acc) as [[item_l acc']|] eqn:Ep.
    + destruct (pop_sound _ _ _ Ep Ha) as [Hl Ha'].
      apply IH; [assumption|]. apply Forall_app. split; [assumption|].
      repeat constructor. apply sound_binary; assumption.
    + apply sound_syntax_error, Hmsg.
  - apply IH; [assumption|]. apply Forall_app. split; [assumption|].
    repeat constructor. assumption.
Qed.

Section ParseSound.
Variables (parse : str -> result obj) (verifier : str).
Hypothesis Hparse : forall s t, parse s = Ok t -> sound t.

Lemma scan_body_sound i ch st :
  Forall sound (top_level_parenthesized st) ->
  match scan_body parse verifier i ch st with
  | Ok (Next st') => Forall sound (top_level_parenthesized st')
  | Ok (Return node) => sound node
  | Raise _ => True
  end.
Proof.
  intros Hst. unfold scan_body.
  destruct (_ && _); [exact Hst|].
  assert (Hc : Forall sound (top_level_parenthesized
                               (count_parenthesis i ch
                                  (close_name verifier i st)))).
  { unfold count_parenthesis, close_name.
    destruct (last_parenthesis_index st), (last_name_index st);
      repeat match goal with
        | |- context [if ?c then _ else _] => destruct c
        end;
      cbn [top_level_parenthesized]; try assumption;
      apply Forall_app; split; try assumption;
      repeat constructor; apply sound_var_node. }
  revert Hc. generalize (count_parenthesis i ch (close_name verifier i st)).
  intros st' Hst'. unfold close_or_token.
  destruct (last_parenthesis_index st') as [p|].
  - destruct (l_tok st' =? r_tok st')%nat; [|exact Hst'].
    destruct (parse _) as [node|] eqn:En; [|exact I].
    cbn [mbind result_bind mret result_ret top_level_parenthesized].
    apply Forall_app. split; [assumption|]. repeat constructor.
    eapply Hparse, En.
  - destruct (existsb _ _).
    + cbn [top_level_parenthesized]. apply Forall_app. split; [assumption|].
      repeat constructor. apply sound_Str.
    + apply sound_syntax_error. vm_compute. discriminate.
Qed.

Lemma scan_loop_sound rest : forall i st,
  Forall sound (top_level_parenthesized st) ->
  match scan_loop parse verifier i rest st with
  | Ok (Next st') => Forall sound (top_level_parenthesized st')
  | Ok (Return node) => sound node
  | Raise _ => True
  end.
Proof.
  induction rest as [|ch rest IH]; intros i st Hst; cbn [scan_loop];
    [exact Hst|].
  pose proof (scan_body_sound i ch st Hst) as Hb.
  destruct (scan_body parse verifier i ch st) as [[st'|node]|];
    cbn [mbind result_bind]; [apply IH; exact Hb | exact Hb | exact I].
Qed.

Lemma parse_body_sound t : parse_body parse verifier = Ok t -> sound t.
Proof.
  unfold parse_body.
  destruct (length verifier =? 0)%nat;
    [intros [= <-]; apply sound_syntax_error; vm_compute; discriminate|].
  destruct (80 <? length verifier)%nat;
    [intros [= <-]; apply sound_syntax_error; vm_compute; discriminate|].
  pose proof (scan_loop_sound verifier 0 (mkScan None None 0 0 [])
                (Forall_nil_2 _)) as Hs.
  destruct (scan_loop _ _ _ _ _) as [[st|node]|]; cbn [mbind result_bind];
    [|intros [= <-]; exact Hs | discriminate].
  match goal with
  | |- context [not_pass ?items _ _ _] =>
      assert (Hitems : Forall sound items)
  end.
  { destruct (last_name_index st); [|exact Hs].
    destruct (re_match _ _); [|exact Hs].
    apply Forall_app. split; [exact Hs|].
    apply Forall_singleton, sound_var_node. }
  match goal with
  | |- context [not_pass ?items ?a ?b ?c] =>
      pose proof (not_pass_sound items a b c Hitems (Forall_nil_2 _)) as Hn;
      destruct (not_pass items a b c) as [resolved items_n]
  end.
  cbn [snd] in Hn.
  destruct (negb resolved);
    [intros [= <-]; apply sound_syntax_error; vm_compute; discriminate|].
  pose proof (binary_pass_sound "&" AND "No left side of AND statement"
                items_n false [] (or_introl eq_refl)
                ltac:(vm_compute; discriminate) Hn (Forall_nil_2 _)) as Ha.
  unfold and_pass.
  destruct (binary_pass "&" AND _ items_n false []) as [[looking items_a]|node];
    [|intros [= <-]; exact Ha].
  destruct looking;
    [intros [= <-]; apply sound_syntax_error; vm_compute; discriminate|].
  pose proof (binary_pass_sound "|" OR "No left side of OR statement"
                items_a false [] (or_intror eq_refl)
                ltac:(vm_compute; discriminate) Ha (Forall_nil_2 _)) as Ho.
  unfold or_pass.
  destruct (binary_pass "|" OR _ items_a false []) as [[looking items_o]|node];
    [|intros [= <-]; exact Ho].
  destruct looking;
    [intros [= <-]; apply sound_syntax_error; vm_compute; discriminate|].
  destruct (1 <? length items_o)%nat;
    [intros [= <-]; apply sound_syntax_error; vm_compute; discriminate|].
  destruct items_o as [|node items_o]; [discriminate|].
  intros [= <-]. inversion Ho; subst. assumption.
Qed.
End ParseSound.

Lemma parse_string_depth_sound depth : forall verifier t,
  parse_string_depth depth verifier = Ok t -> sound t.
Proof.
  induction depth as [|depth IH]; intros verifier t; [discriminate|].
  cbn [parse_string_depth]. apply parse_body_sound. exact IH.
Qed.

(** X17: when [error] gives no message for a tree that [parse_string]
    returns, the tree is well formed, and its evaluation under any
    bindings returns a truth value or raises the missing-key error of one
    of its variables that is absent from the bindings. *)
Theorem parsed_without_error_is_well_formed (verifier : str) (t : obj)
  (d : gmap str bool) :
  parse_string verifier = Ok t -> error t = Ok None ->
  well_formed t = true
  /\ ((exists b, evaluate t d = Ok b)
      \/ (exists x, In x (variables t) /\ d !! x = None
                    /\ evaluate t d = Raise (missing_key x))).
Proof.
  intros Hp He.
  assert (Hwf : well_formed t = true)
    by (apply (parse_string_depth_sound _ _ _ Hp None He); reflexivity).
  split; [exact Hwf | apply evaluate_well_formed, Hwf].
Qed.

Lemma parsed_without_error_is_well_formed_witness :
  well_formed (or_and_not "A" "B" "C") = true.
Proof.
  apply (parsed_without_error_is_well_formed (str_of "A&B|!C")
           (or_and_not "A" "B" "C") ∅ eq_refl eq_refl).
Defined.

(** ** The verifier expression engine: variables and truth values *)

Lemma first_answer_truthy callable names :
  first_answer callable names = None
  \/ truthy (first_answer callable names) = true.
Proof.
  induction names as [|name names IH]; cbn [first_answer]; [auto|].
  destruct (truthy (callable (Some (Str name)))) eqn:E; auto.
Qed.

Lemma first_answer_app callable a b :
  first_answer callable (a ++ b)
  = if truthy (first_answer callable a) then first_answer callable a
    else first_answer callable b.
Proof.
  induction a as [|name a IH]; cbn [app first_answer]; [reflexivity|].
  destruct (truthy (callable (Some (Str name)))) eqn:E.
  - rewrite E. reflexivity.
  - exact IH.
Qed.

Lemma iterate_vars_well_formed t callable :
  well_formed t = true ->
  exists r, iterate_vars_return_first t callable = Ok r
            /\ (if truthy r then r else None)
               = first_answer callable (variables t)
            /\ match t with
               | Node VAR l_chld _ _ => r = callable l_chld
               | _ => r = first_answer callable (variables t)
               end.
Proof.
  induction t as [s | op l r e IHl IHr] using obj_children_ind; [discriminate|].
  cbn [well_formed iterate_vars_return_first variables].
  destruct (truthy e); [discriminate|]. cbn [negb andb].
  destruct op, l as [l|], r as [r|]; try discriminate; cbn in IHl, IHr;
    rewrite ?bool_decide_eq_false_2 by discriminate;
    rewrite ?bool_decide_eq_true_2 by reflexivity.
  - intros [Hl Hr]%andb_prop.
    destruct (IHl Hl) as (rl & -> & El & _), (IHr Hr) as (rr & -> & Er & _).
    cbn [mbind result_bind]. rewrite first_answer_app, <- El, <- Er.
    destruct (truthy rl) eqn:Etl.
    + exists rl. rewrite Etl. auto.
    + destruct (truthy rr) eqn:Etr; eexists; split; try reflexivity;
        rewrite ?Etr; auto.
  - intros [Hl Hr]%andb_prop.
    destruct (IHl Hl) as (rl & -> & El & _), (IHr Hr) as (rr & -> & Er & _).
    cbn [mbind result_bind]. rewrite first_answer_app, <- El, <- Er.
    destruct (truthy rl) eqn:Etl.
    + exists rl. rewrite Etl. auto.
    + destruct (truthy rr) eqn:Etr; eexists; split; try reflexivity;
        rewrite ?Etr; auto.
  - intros Hl. destruct (IHl Hl) as (rl & -> & El & _).
    cbn [mbind result_bind]. rewrite app_nil_r.
    assert (Hv : first_answer callable
                   match l with
                   | Str _ => variables l
                   | Node _ _ _ _ => variables l
                   end = first_answer callable (variables l))
      by (destruct l; reflexivity).
    destruct l as [|lop ll lr le]; [discriminate|].
    rewrite <- El.
    destruct (truthy rl) eqn:Etl.
    + exists rl. rewrite Etl. auto.
    + exists None. auto.
  - destruct l; discriminate.
  - destruct l as [name|]; [|discriminate]. intros _.
    eexists. split; [reflexivity|]. cbn [first_answer].
    split; [|reflexivity].
    destruct (truthy (callable (Some (Str name)))); reflexivity.
Qed.

(** X18: on a well-formed tree, [iterate_vars_return_first] returns the
    first answer of [callable] that counts as true, taking the variables
    from left to right, and [None] when no answer does; only for a tree
    that is a single variable it returns the answer of [callable] as it
    is, also one that does not count as true. *)
Theorem iterate_vars_first_answer (t : obj)
  (callable : option obj -> option str) :
  well_formed t = true ->
  exists r,
    iterate_vars_return_first t callable = Ok r
    /\ (if truthy r then r else None) = first_answer callable (variables t)
    /\ match t with
       | Node VAR l_chld _ _ => r = callable l_chld
       | _ => r = first_answer callable (variables t)
       end.
Proof. apply iterate_vars_well_formed. Qed.

Lemma iterate_vars_first_answer_witness :
  (exists r,
      iterate_vars_return_first (and_of "A" "B")
        (fun o => match o with
                  | Some (Str name) =>
                      if bool_decide (name = str_of "B")
                      then Some (str_of "unknown qualifier") else None
                  | _ => None
                  end) = Ok r
      /\ r = Some (str_of "unknown qualifier"))
  /\ (exists r,
        iterate_vars_return_first (var_node (str_of "A")) (fun _ => Some [])
        = Ok r
        /\ r = Some []).
Proof.
  split.
  - destruct (iterate_vars_first_answer (and_of "A" "B")
                (fun o => match o with
                          | Some (Str name) =>
                              if bool_decide (name = str_of "B")
                              then Some (str_of "unknown qualifier") else None
                          | _ => None
                          end) eq_refl) as (r & Hr & _ & Hv).
    exists r. split; [exact Hr | exact Hv].
  - destruct (iterate_vars_first_answer (var_node (str_of "A"))
                (fun _ => Some []) eq_refl) as (r & Hr & _ & Hv).
    exists r. split; [exact Hr | exact Hv].
Defined.

Lemma evaluate_truth_value t d :
  well_formed t = true ->
  (forall x, In x (variables t) -> is_Some (d !! x)) ->
  evaluate t d = Ok (truth_value t d).
Proof.
  induction t as [s | op l r e IHl IHr] using obj_children_ind; [discriminate|].
  cbn [well_formed evaluate variables truth_value].
  destruct (truthy e); [discriminate|]. cbn [negb andb].
  destruct op, l as [l|], r as [r|]; try discriminate; cbn in IHl, IHr.
  - intros [Hl Hr]%andb_prop Hv.
    rewrite (well_formed_is_node _ Hl), (well_formed_is_node _ Hr). cbn [andb].
    rewrite IHl, IHr; auto; try (intros x Hx; apply Hv, in_or_app; auto).
    cbn. destruct (truth_value l d); reflexivity.
  - intros [Hl Hr]%andb_prop Hv.
    rewrite (well_formed_is_node _ Hl), (well_formed_is_node _ Hr). cbn [andb].
    rewrite IHl, IHr; auto; try (intros x Hx; apply Hv, in_or_app; auto).
    cbn. destruct (truth_value l d); reflexivity.
  - intros Hl Hv. rewrite (well_formed_is_node _ Hl).
    rewrite IHl; auto.
    intros x Hx. apply Hv. rewrite app_nil_r.
    destruct l; [discriminate | exact Hx].
  - destruct l; discriminate.
  - destruct l as [name|]; [|discriminate]. intros _ Hv.
    destruct (Hv name (or_introl eq_refl)) as [v ->]. reflexivity.
Qed.

(** X19: when the bindings give a value to every variable of a well-formed
    tree, its evaluation returns the value that the truth tables of AND, OR
    and NOT give; leaving out the right operand when the left one decides
    changes nothing. *)
Theorem evaluate_by_truth_tables (t : obj) (d : gmap str bool) :
  well_formed t = true ->
  (forall x, In x (variables t) -> is_Some (d !! x)) ->
  evaluate t d = Ok (truth_value t d).
Proof. apply evaluate_truth_value. Qed.

Lemma evaluate_by_truth_tables_witness :
  evaluate (or_and_not "A" "B" "C")
    (bindings [("A"%string, true); ("B"%string, false); ("C"%string, true)])
  = Ok false.
Proof.
  apply (evaluate_by_truth_tables (or_and_not "A" "B" "C")
           (bindings [("A"%string, true); ("B"%string, false);
                      ("C"%string, true)]) eq_refl).
  intros x [<- | [<- | [<- | []]]]; vm_compute; eauto.
Defined.

(** ** The scanning loop of [parse_string] *)

Lemma var_character_spec ch : re_match VAR_CHARACTER [ch] = name_class ch.
Proof.
  unfold re_match, VAR_CHARACTER. cbn [matches deriv nullable].
  destruct (name_class ch); reflexivity.
Qed.

Lemma name_class_not_special c :
  name_class c = true ->
  N.eqb c (N_of_ascii "(") = false /\ N.eqb c (N_of_ascii ")") = false
  /\ existsb (N.eqb c) (str_of "&|!") = false.
Proof.
  intros H. assert (Hc : c <> 40%N /\ c <> 41%N /\ c <> 38%N /\ c <> 124%N
                         /\ c <> 33%N) by (revert H; class_arith).
  destruct Hc as (H1 & H2 & H3 & H4 & H5).
  repeat split; try (apply N.eqb_neq; assumption).
  change (str_of "&|!") with [38%N; 124%N; 33%N]. cbn [existsb].
  rewrite !orb_false_r.
  rewrite (proj2 (N.eqb_neq c 38) H3), (proj2 (N.eqb_neq c 124) H4),
    (proj2 (N.eqb_neq c 33) H5). reflexivity.
Qed.

Lemma operator_not_name c :
  In c (str_of "&|!") ->
  name_class c = false /\ N.eqb c (N_of_ascii "(") = false
  /\ N.eqb c (N_of_ascii ")") = false
  /\ existsb (N.eqb c) (str_of "&|!") = true.
Proof.
  intros [<- | [<- | [<- | []]]]; repeat split.
Qed.

Section Scan.
Variables (parse : str -> result obj) (verifier : str).

(** Inside parentheses nothing happens but counting, as long as the
    first parenthesis stays open. *)
Lemma scan_inside inner : forall i st k d,
  last_parenthesis_index st <> None ->
  l_tok st = (r_tok st + 1 + k)%nat ->
  nesting k inner = Some d ->
  exists l r,
    scan_loop parse verifier i inner st
    = Ok (Next (mkScan (last_parenthesis_index st) (last_name_index st) l r
                  (top_level_parenthesized st)))
    /\ l = (r + 1 + d)%nat.
Proof.
  induction inner as [|c inner IH]; intros i st k d Hp Hl Hd.
  - injection Hd as <-. exists (l_tok st), (r_tok st).
    destruct st. split; [reflexivity | exact Hl].
  - cbn [scan_loop nesting] in *. unfold scan_body.
    rewrite bool_decide_eq_false_2 by exact Hp. cbn [andb].
    unfold close_name, count_parenthesis, close_or_token.
    destruct st as [[p|] ln l r items]; [|contradiction].
    cbn [last_parenthesis_index last_name_index l_tok r_tok
         top_level_parenthesized] in *.
    destruct (N.eqb c (N_of_ascii "(")).
    + cbn [last_parenthesis_index last_name_index l_tok r_tok
           top_level_parenthesized].
      replace (l =? 0)%nat with false by (symmetry; apply Nat.eqb_neq; lia).
      replace (l + 1 =? r)%nat with false
        by (symmetry; apply Nat.eqb_neq; lia).
      cbn [mbind result_bind].
      destruct (IH (S i) (mkScan (Some p) ln (l + 1) r items) (S k) d
                    ltac:(discriminate) ltac:(cbn; lia) Hd)
          as (l' & r' & -> & Hl'). eauto.
    + destruct (N.eqb c (N_of_ascii ")")).
      * cbn [last_parenthesis_index last_name_index l_tok r_tok
             top_level_parenthesized].
        destruct k as [|k]; [discriminate|].
        replace (l =? r + 1)%nat with false
          by (symmetry; apply Nat.eqb_neq; lia).
        cbn [mbind result_bind].
        destruct (IH (S i) (mkScan (Some p) ln l (r + 1) items) k d
                    ltac:(discriminate) ltac:(cbn; lia) Hd)
          as (l' & r' & -> & Hl'). eauto.
      * cbn [last_parenthesis_index last_name_index l_tok r_tok
             top_level_parenthesized].
        replace (l =? r)%nat with false by (symmetry; apply Nat.eqb_neq; lia).
        cbn [mbind result_bind].
        destruct (IH (S i) (mkScan (Some p) ln l r items) k d
                    ltac:(discriminate) ltac:(cbn; lia) Hd)
          as (l' & r' & -> & Hl'). eauto.
Qed.
End Scan.

Section ScanLexemes.
Variables (parse : str -> result obj) (verifier : str).

Lemma scan_loop_app a : forall i b st,
  scan_loop parse verifier i (a ++ b) st
  = (r ← scan_loop parse verifier i a st;
     match r with
     | Next st' => scan_loop parse verifier (i + length a) b st'
     | Return node => Ok (Return node)
     end).
Proof.
  induction a as [|c a IH]; intros i b st; cbn [app scan_loop length].
  - cbn. rewrite Nat.add_0_r. reflexivity.
  - destruct (scan_body parse verifier i c st) as [[st'|node]|];
      cbn [mbind result_bind]; try reflexivity.
    rewrite IH. replace (S i + length a)%nat with (i + S (length a))%nat by lia.
    reflexivity.
Qed.

Lemma scan_name name : forall i ln l r items,
  Forall (fun c => name_class c = true) name ->
  scan_loop parse verifier i name (mkScan None ln l r items)
  = Ok (Next (mkScan None
                (match name with
                 | [] => ln
                 | _ :: _ => Some (default i ln)
                 end) l r items)).
Proof.
  induction name as [|c name IH]; intros i ln l r items Hn; [reflexivity|].
  inversion Hn as [|? ? Hc Hn']; subst.
  cbn [scan_loop]. unfold scan_body.
  cbn [last_parenthesis_index last_name_index l_tok r_tok
       top_level_parenthesized].
  rewrite bool_decide_eq_true_2 by reflexivity.
  rewrite var_character_spec, Hc. cbn [andb mbind result_bind].
  rewrite IH by assumption. destruct name, ln; reflexivity.
Qed.

Lemma scan_op i c ln items :
  In c (str_of "&|!") ->
  scan_body parse verifier i c (mkScan None ln 0 0 items)
  = Ok (Next (mkScan None None 0 0
                ((items ++ match ln with
                           | Some n => [var_node (slice verifier n i)]
                           | None => []
                           end) ++ [Str [c]]))).
Proof.
  intros Hc. destruct (operator_not_name c Hc) as (H1 & H2 & H3 & H4).
  unfold scan_body. rewrite var_character_spec, H1, andb_false_r.
  unfold close_name, count_parenthesis, close_or_token.
  destruct ln as [n|];
    cbn [last_parenthesis_index last_name_index l_tok r_tok
         top_level_parenthesized];
    rewrite H2, H3;
    cbn [last_parenthesis_index last_name_index l_tok r_tok
         top_level_parenthesized];
    rewrite H4; rewrite ?app_nil_r; reflexivity.
Qed.

Lemma scan_open i ln items :
  scan_body parse verifier i (N_of_ascii "(") (mkScan None ln 0 0 items)
  = Ok (Next (mkScan (Some i) None 1 0
                (items ++ match ln with
                          | Some n => [var_node (slice verifier n i)]
                          | None => []
                          end))).
Proof.
  unfold scan_body. rewrite var_character_spec.
  change (name_class (N_of_ascii "(")) with false. rewrite andb_false_r.
  unfold close_name, count_parenthesis, close_or_token.
  destruct ln as [n|];
    cbn [last_parenthesis_index last_name_index l_tok r_tok
         top_level_parenthesized];
    rewrite ?app_nil_r; reflexivity.
Qed.

Lemma scan_close i p ln r items :
  scan_body parse verifier i (N_of_ascii ")")
    (mkScan (Some p) ln (r + 1) r items)
  = (node ← parse (slice verifier (p + 1) i);
     mret (Next (mkScan None ln 0 0 (items ++ [node])))).
Proof.
  unfold scan_body. rewrite bool_decide_eq_false_2 by discriminate.
  cbn [andb]. unfold close_name, count_parenthesis, close_or_token.
  cbn [last_parenthesis_index last_name_index l_tok r_tok
       top_level_parenthesized N.eqb].
  change (N_of_ascii ")" =? N_of_ascii "(")%N with false.
  change (N_of_ascii ")" =? N_of_ascii ")")%N with true. cbv iota.
  cbn [last_parenthesis_index last_name_index l_tok r_tok
       top_level_parenthesized].
  rewrite Nat.eqb_refl. reflexivity.
Qed.

Lemma last_app_name (pre name : str) :
  name <> [] -> Forall (fun c => name_class c = true) name ->
  name_class (List.last (pre ++ name) 0%N) = true.
Proof.
  intros Hn Hc. destruct (exists_last Hn) as (l & x & ->).
  rewrite app_assoc, last_last. apply Forall_app in Hc as [_ Hx].
  inversion Hx; subst. assumption.
Qed.

(** One lexeme. *)
Lemma scan_lexeme u pre rest st done pending :
  verifier = pre ++ lexeme_text u ++ rest ->
  lexeme_ok parse u -> negb (pending && is_name u) = true ->
  between verifier pre st done pending ->
  exists st',
    scan_loop parse verifier (length pre) (lexeme_text u) st = Ok (Next st')
    /\ between verifier (pre ++ lexeme_text u) st'
         (done ++ [lexeme_item u]) (is_name u).
Proof.
  intros Hv Hok Hsep (Hp & Hl & Hr & Hpend).
  destruct st as [lp ln l r items].
  cbn [last_parenthesis_index last_name_index l_tok r_tok
       top_level_parenthesized] in *. subst lp l r.
  assert (Hdone : done = items ++ match ln with
                                  | Some n => [var_node (slice verifier n (length pre))]
                                  | None => []
                                  end).
  { destruct pending.
    - destruct Hpend as (n & -> & _ & ->). reflexivity.
    - destruct Hpend as [-> ->]. rewrite app_nil_r. reflexivity. }
  destruct u as [c | name | inner node]; cbn [lexeme_text lexeme_item is_name] in *.
  - (* an operator *)
    cbn [scan_loop]. rewrite scan_op by exact Hok.
    cbn [mbind result_bind]. eexists. split; [reflexivity|].
    repeat split. rewrite Hdone. reflexivity.
  - (* a name *)
    destruct Hok as [Hne Hc]. rewrite andb_true_r in Hsep.
    apply negb_true_iff in Hsep. subst pending. destruct Hpend as [-> _].
    rewrite scan_name by assumption.
    destruct name as [|c name]; [contradiction|].
    eexists. split; [reflexivity|].
    repeat split. exists (length pre).
    cbn [last_name_index top_level_parenthesized from_option id].
    split; [reflexivity|]. split; [apply last_app_name; assumption|].
    rewrite app_nil_r in Hdone. subst done. do 3 f_equal.
    rewrite Hv. symmetry. apply slice_middle; [reflexivity|].
    rewrite length_app. reflexivity.
  - (* a parenthesised part *)
    destruct Hok as [Hnest Hparse].
    cbn [scan_loop]. rewrite scan_open. cbn [mbind result_bind].
    rewrite scan_loop_app.
    destruct (scan_inside parse verifier inner (S (length pre))
                (mkScan (Some (length pre)) None 1 0
                   (items ++ match ln with
                             | Some n => [var_node (slice verifier n (length pre))]
                             | None => []
                             end)) 0 0
                ltac:(discriminate) eq_refl Hnest) as (l' & r' & -> & Hl').
    cbn [mbind result_bind last_parenthesis_index last_name_index
         top_level_parenthesized scan_loop].
    subst l'. replace (r' + 1 + 0)%nat with (r' + 1)%nat by lia.
    rewrite scan_close.
    assert (Hs : slice verifier (length pre + 1) (S (length pre) + length inner)
                 = inner).
    { rewrite Hv.
      change (pre ++ (N_of_ascii "(" :: inner ++ [N_of_ascii ")"]) ++ rest)
        with (pre ++ [N_of_ascii "("] ++ (inner ++ [N_of_ascii ")"]) ++ rest).
      rewrite (app_assoc pre), <- (app_assoc inner).
      apply slice_middle; rewrite length_app; cbn [length]; lia. }
    rewrite Hs, Hparse. cbn [mbind result_bind mret result_ret].
    eexists. split; [reflexivity|].
    repeat split. rewrite Hdone. reflexivity.
Qed.

Lemma scan_lexemes us : forall pre tail st done pending,
  verifier = pre ++ lexemes_text us ++ tail ->
  Forall (lexeme_ok parse) us -> separated pending us = true ->
  between verifier pre st done pending ->
  exists st' pending',
    scan_loop parse verifier (length pre) (lexemes_text us) st = Ok (Next st')
    /\ between verifier (pre ++ lexemes_text us) st'
         (done ++ List.map lexeme_item us) pending'.
Proof.
  induction us as [|u us IH]; intros pre tail st done pending Hv Hok Hsep Hb.
  - exists st, pending. cbn [lexemes_text List.map List.concat].
    rewrite !app_nil_r. split; [reflexivity | exact Hb].
  - pose proof (Forall_inv Hok) as Hu. pose proof (Forall_inv_tail Hok) as Hus.
    cbn [separated] in Hsep. apply andb_prop in Hsep as [Hsep1 Hsep2].
    unfold lexemes_text in *. cbn [List.map List.concat] in *.
    rewrite <- app_assoc in Hv.
    destruct (scan_lexeme u pre
                (List.concat (List.map lexeme_text us) ++ tail) st
                done pending Hv Hu Hsep1 Hb) as (st1 & Hs1 & Hb1).
    rewrite scan_loop_app, Hs1. cbn [mbind result_bind].
    destruct (IH (pre ++ lexeme_text u) tail st1 (done ++ [lexeme_item u])
                (is_name u)) as (st' & pending' & Hs' & Hb');
      try assumption.
    { rewrite <- app_assoc. exact Hv. }
    rewrite length_app in Hs'. rewrite Hs'.
    exists st', pending'. split; [reflexivity|].
    rewrite <- !app_assoc in Hb'. exact Hb'.
Qed.

(** The items that [parse_body] finds at the top level of a text made of
    lexemes. *)
Lemma top_level_items us :
  verifier = lexemes_text us -> Forall (lexeme_ok parse) us ->
  separated false us = true ->
  exists st,
    scan_loop parse verifier 0 verifier (mkScan None None 0 0 []) = Ok (Next st)
    /\ match last_name_index st with
       | Some n =>
           if re_match VAR_CHARACTER [List.last verifier 0%N]
           then top_level_parenthesized st
                ++ [var_node (slice verifier n (length verifier))]
           else top_level_parenthesized st
       | None => top_level_parenthesized st
       end = List.map lexeme_item us.
Proof.
  intros Hv Hok Hsep.
  destruct (scan_lexemes us [] [] (mkScan None None 0 0 []) [] false)
    as (st & pending & Hs & Hb); try assumption.
  { rewrite app_nil_r. exact Hv. }
  { repeat split. }
  cbn [length List.app] in Hs, Hb. rewrite <- Hv in Hs, Hb.
  exists st. split; [exact Hs|].
  destruct Hb as (_ & _ & _ & Hb). destruct pending.
  - destruct Hb as (n & -> & Hc & Hd).
    rewrite var_character_spec, Hc. symmetry. exact Hd.
  - destruct Hb as [-> Hd]. symmetry. exact Hd.
Qed.

(** A parenthesis that is never closed hides itself and what follows
    it. *)
Lemma top_level_items_unclosed us inner d :
  verifier = lexemes_text us ++ N_of_ascii "(" :: inner ->
  nesting 0 inner = Some d ->
  Forall (lexeme_ok parse) us -> separated false us = true ->
  exists st,
    scan_loop parse verifier 0 verifier (mkScan None None 0 0 []) = Ok (Next st)
    /\ match last_name_index st with
       | Some n =>
           if re_match VAR_CHARACTER [List.last verifier 0%N]
           then top_level_parenthesized st
                ++ [var_node (slice verifier n (length verifier))]
           else top_level_parenthesized st
       | None => top_level_parenthesized st
       end = List.map lexeme_item us.
Proof.
  intros Hv Hd Hok Hsep.
  destruct (scan_lexemes us [] (N_of_ascii "(" :: inner)
              (mkScan None None 0 0 []) [] false)
    as (st & pending & Hs & Hb); try assumption.
  { repeat split. }
  cbn [length List.app] in Hs, Hb.
  destruct st as [lp ln l r items]. destruct Hb as (Hp & Hl & Hr & Hb).
  cbn [last_parenthesis_index last_name_index l_tok r_tok
       top_level_parenthesized] in *. subst lp l r.
  destruct (scan_inside parse verifier inner (S (length (lexemes_text us)))
              (mkScan (Some (length (lexemes_text us))) None 1 0
                 (items ++ match ln with
                           | Some n => [var_node (slice verifier n
                                                    (length (lexemes_text us)))]
                           | None => []
                           end)) 0%nat d)
    as (l & r & Hin & _); [discriminate | reflexivity | exact Hd |].
  cbn [last_parenthesis_index last_name_index top_level_parenthesized] in Hin.
  assert (Hscan : scan_loop parse verifier 0
                    (lexemes_text us ++ N_of_ascii "(" :: inner)
                    (mkScan None None 0 0 [])
                  = Ok (Next (mkScan (Some (length (lexemes_text us))) None l r
                                (items ++ match ln with
                                          | Some n =>
                                              [var_node
                                                 (slice verifier n
                                                    (length (lexemes_text us)))]
                                          | None => []
                                          end)))).
  { rewrite scan_loop_app, Hs. cbn [mbind result_bind].
    cbn [scan_loop Nat.add]. rewrite scan_open. cbn [mbind result_bind].
    exact Hin. }
  rewrite <- Hv in Hscan. eexists. split; [exact Hscan|].
  cbn [last_name_index top_level_parenthesized]. destruct pending.
  - destruct Hb as (n & -> & _ & Hdone). symmetry. exact Hdone.
  - destruct Hb as [-> Hdone]. rewrite app_nil_r. symmetry. exact Hdone.
Qed.
End ScanLexemes.

(** ** The three reductions of [parse_string] *)

Lemma join_cons {A} (sep p q : list A) parts :
  join sep (p :: q :: parts) = p ++ sep ++ join sep (q :: parts).
Proof. reflexivity. Qed.

(** A relation between lists that goes through concatenation goes
    through [join]. *)
Lemma join_related {A B} (T : list A -> list B -> Prop) sep sep' :
  (forall a b a' b', T a a' -> T b b' -> T (a ++ b) (a' ++ b')) ->
  T sep sep' ->
  forall parts parts', Forall2 T parts parts' -> parts <> [] ->
    T (join sep parts) (join sep' parts').
Proof.
  intros Happ Hsep parts parts' H. induction H as [|p p' ps ps' Hp Hps IH].
  - intros []; reflexivity.
  - intros _. destruct Hps as [|q q' qs qs' Hq Hqs].
    + exact Hp.
    + rewrite !join_cons. apply Happ; [exact Hp|]. apply Happ; [exact Hsep|].
      apply IH. discriminate.
Qed.

Lemma map_join {A B} (f : A -> B) sep parts :
  List.map f (join sep parts) = join (List.map f sep) (List.map (List.map f) parts).
Proof.
  induction parts as [|p ps IH]; [reflexivity|].
  destruct ps as [|q qs]; [reflexivity|].
  rewrite join_cons. cbn [List.map]. rewrite join_cons.
  rewrite !List.map_app. f_equal. f_equal. exact IH.
Qed.

Lemma concat_join {A} (sep : list (list A)) parts :
  List.concat (join sep parts)
  = join (List.concat sep) (List.map (@List.concat A) parts).
Proof.
  induction parts as [|p ps IH]; [reflexivity|].
  destruct ps as [|q qs]; [reflexivity|].
  rewrite join_cons. cbn [List.map]. rewrite join_cons.
  rewrite !List.concat_app. f_equal. f_equal. exact IH.
Qed.

Lemma length_join_part {A} (sep : list A) parts p :
  In p parts -> (length p <= length (join sep parts))%nat.
Proof.
  induction parts as [|q ps IH]; [intros []|].
  intros Hin. destruct ps as [|q' qs].
  - destruct Hin as [<- | []]. cbn [join]. lia.
  - rewrite join_cons, !length_app. destruct Hin as [<- | Hin]; [lia|].
    specialize (IH Hin). lia.
Qed.

Lemma not_reduces_app a b a' b' :
  not_reduces a a' -> not_reduces b b' -> not_reduces (a ++ b) (a' ++ b').
Proof.
  intros Ha Hb rest r acc. split.
  - rewrite <- List.app_assoc, (proj1 (Ha _ _ _)), (proj1 (Hb _ _ _)).
    rewrite List.app_assoc. reflexivity.
  - destruct a; [exact (False_ind _ (proj2 (Ha [] r acc) eq_refl))|discriminate].
Qed.

Lemma not_pass_bangs k x : forall rest is_not r acc,
  is_token "!" x = false ->
  not_pass (repeat (Str [N_of_ascii "!"]) k ++ x :: rest) is_not r acc
  = not_pass rest false true
      (acc ++ [if xorb is_not (Nat.odd k) then not_node x else x]).
Proof.
  induction k as [|k IH]; intros rest is_not r acc Hx.
  - cbn [repeat List.app not_pass]. rewrite Hx.
    rewrite xorb_false_r. destruct is_not; reflexivity.
  - cbn [repeat List.app not_pass].
    change (is_token "!" (Str [N_of_ascii "!"])) with true. cbv iota.
    rewrite IH by exact Hx. rewrite Nat.odd_succ, <- Nat.negb_odd.
    destruct is_not, (Nat.odd k); reflexivity.
Qed.

Lemma not_reduces_literal k x :
  is_token "!" x = false ->
  not_reduces (repeat (Str [N_of_ascii "!"]) k ++ [x])
    [if Nat.odd k then not_node x else x].
Proof.
  intros Hx rest r acc. split.
  - rewrite <- List.app_assoc. cbn [List.app].
    rewrite not_pass_bangs by exact Hx. reflexivity.
  - destruct k; discriminate.
Qed.

Lemma not_reduces_token x :
  is_token "!" x = false -> not_reduces [x] [x].
Proof. intros Hx. exact (not_reduces_literal 0 x Hx). Qed.

(** What [binary_pass] makes of a run of items, whatever follows. *)
Section Binary.
Variables (tok : string) (op : OP) (no_left : string).

Lemma binary_reduces_app a b a' b' :
  binary_reduces tok op no_left a a' -> binary_reduces tok op no_left b b' ->
  binary_reduces tok op no_left (a ++ b) (a' ++ b').
Proof.
  intros Ha Hb rest acc.
  rewrite <- List.app_assoc, Ha, Hb, List.app_assoc. reflexivity.
Qed.

Lemma binary_reduces_other x :
  is_token tok x = false -> binary_reduces tok op no_left [x] [x].
Proof. intros Hx rest acc. cbn [List.app binary_pass]. rewrite Hx. reflexivity. Qed.

Lemma pop_snoc {A} (acc : list A) x : pop (acc ++ [x]) = Some (x, acc).
Proof.
  unfold pop. rewrite last_snoc, length_app. cbn [length].
  replace (length acc + 1 - 1)%nat with (length acc) by lia.
  rewrite take_app_length. reflexivity.
Qed.

Lemma binary_pass_fold ys : forall cur rest acc,
  Forall (fun y => is_token tok y = false) ys ->
  binary_pass tok op no_left
    (List.concat (List.map (fun y => [Str (str_of tok); y]) ys) ++ rest)
    false (acc ++ [cur])
  = binary_pass tok op no_left rest false
      (acc ++ [fold_left (fun l r => Node op (Some l) (Some r) None) ys cur]).
Proof.
  induction ys as [|y ys IH]; intros cur rest acc Hys; [reflexivity|].
  cbn [List.map List.concat List.app binary_pass fold_left].
  assert (Ht : is_token tok (Str (str_of tok)) = true)
    by (apply bool_decide_eq_true_2; reflexivity).
  rewrite Ht. cbv iota. rewrite (Forall_inv Hys). rewrite pop_snoc.
  apply IH. exact (Forall_inv_tail Hys).
Qed.

Lemma join_singletons {A} (sep : A) x xs :
  join [sep] (List.map (fun y => [y]) (x :: xs))
  = x :: List.concat (List.map (fun y => [sep; y]) xs).
Proof.
  revert x. induction xs as [|y ys IH]; intros x; [reflexivity|].
  cbn [List.map] in *. rewrite join_cons, IH. reflexivity.
Qed.

Lemma binary_reduces_chain xs :
  xs <> [] -> Forall (fun y => is_token tok y = false) xs ->
  binary_reduces tok op no_left (join [Str (str_of tok)] (List.map (fun y => [y]) xs))
    [chain (fun l r => Node op (Some l) (Some r) None) xs].
Proof.
  destruct xs as [|x xs]; [intros []; reflexivity|]. intros _ Hxs rest acc.
  rewrite join_singletons. cbn [List.app binary_pass chain].
  rewrite (Forall_inv Hxs). apply binary_pass_fold.
  exact (Forall_inv_tail Hxs).
Qed.
End Binary.

(** ** Texts of the grammar *)

Lemma join_closed {A} (P : list A -> Prop) sep :
  (forall a b, P a -> P b -> P (a ++ b)) -> P sep ->
  forall parts, Forall P parts -> parts <> [] -> P (join sep parts).
Proof.
  intros Happ Hsep parts H. induction H as [|p ps Hp Hps IH].
  - intros []; reflexivity.
  - intros _. destruct Hps as [|q qs Hq Hqs]; [exact Hp|].
    rewrite join_cons. apply Happ; [exact Hp|]. apply Happ; [exact Hsep|].
    apply IH. discriminate.
Qed.

Lemma Forall2_map_same {A B C} (T : B -> C -> Prop) (f : A -> B) (g : A -> C) l :
  (forall x, In x l -> T (f x) (g x)) -> Forall2 T (List.map f l) (List.map g l).
Proof.
  induction l as [|x l IH]; intros H; cbn [List.map]; constructor.
  - apply H. left. reflexivity.
  - apply IH. intros y Hy. apply H. right. exact Hy.
Qed.

Lemma Forall_map_in {A B} (P : B -> Prop) (f : A -> B) l :
  (forall x, In x l -> P (f x)) -> Forall P (List.map f l).
Proof.
  induction l as [|x l IH]; intros H; cbn [List.map]; constructor.
  - apply H. left. reflexivity.
  - apply IH. intros y Hy. apply H. right. exact Hy.
Qed.

Lemma map_nonempty {A B} (f : A -> B) l : l <> [] -> List.map f l <> [].
Proof. destruct l; [intros []; reflexivity | discriminate]. Qed.

Lemma lexemes_text_app a b :
  lexemes_text (a ++ b) = lexemes_text a ++ lexemes_text b.
Proof. unfold lexemes_text. rewrite List.map_app, List.concat_app. reflexivity. Qed.

Lemma lexemes_text_join u parts :
  lexemes_text (join [u] parts)
  = join (lexeme_text u) (List.map lexemes_text parts).
Proof.
  induction parts as [|p ps IH]; [reflexivity|].
  destruct ps as [|q qs]; [reflexivity|].
  rewrite join_cons. cbn [List.map] in IH |- *. rewrite join_cons, <- IH.
  rewrite !lexemes_text_app. f_equal. f_equal. unfold lexemes_text.
  cbn [List.map List.concat]. apply List.app_nil_r.
Qed.

Lemma lexemes_text_bangs k :
  lexemes_text (repeat (LOp (N_of_ascii "!")) k) = repeat (N_of_ascii "!") k.
Proof.
  induction k as [|k IH]; [reflexivity|].
  cbn [repeat]. change (lexemes_text (?u :: ?us))
    with (lexeme_text u ++ lexemes_text us).
  rewrite IH. reflexivity.
Qed.

Lemma literal_text l : lexemes_text (literal_lexemes l) = show_literal show_atom l.
Proof.
  unfold literal_lexemes, show_literal.
  rewrite lexemes_text_app, lexemes_text_bangs. f_equal.
  unfold lexemes_text. cbn [List.map List.concat]. rewrite List.app_nil_r.
  destruct (snd l); reflexivity.
Qed.

Lemma conjunction_text t :
  lexemes_text (conjunction_lexemes t) = show_conjunction show_atom t.
Proof.
  unfold conjunction_lexemes, show_conjunction.
  rewrite lexemes_text_join, List.map_map. f_equal.
  apply List.map_ext. exact literal_text.
Qed.

Lemma expression_text e : lexemes_text (expression_lexemes e) = show e.
Proof.
  unfold expression_lexemes, show, show_expression.
  rewrite lexemes_text_join, List.map_map. f_equal.
  apply List.map_ext. exact conjunction_text.
Qed.

Lemma lexeme_item_atom a : lexeme_item (atom_lexeme a) = tree_atom a.
Proof. destruct a; reflexivity. Qed.

(** *** Lengths *)

Lemma show_atom_in_expression e t l :
  In t e -> In l t -> (length (show_atom (snd l)) <= length (show e))%nat.
Proof.
  intros Ht Hl.
  assert (H1 : (length (show_conjunction show_atom t) <= length (show e))%nat).
  { apply length_join_part, List.in_map, Ht. }
  assert (H2 : (length (show_literal show_atom l)
                <= length (show_conjunction show_atom t))%nat).
  { apply length_join_part, List.in_map, Hl. }
  unfold show_literal in H2. rewrite length_app in H2. lia.
Qed.

Lemma show_paren_in_expression e t l e' :
  In t e -> In l t -> snd l = AParen e' ->
  (length (show e') + 2 <= length (show e))%nat.
Proof.
  intros Ht Hl Ha. pose proof (show_atom_in_expression e t l Ht Hl) as H.
  rewrite Ha in H. cbn [show_atom] in H. rewrite length_cons, length_app in H.
  change (length [N_of_ascii ")"]) with 1%nat in H. unfold show in *. lia.
Qed.

(** *** Parentheses *)

Lemma nesting_app a : forall d b,
  nesting d (a ++ b)
  = match nesting d a with Some d' => nesting d' b | None => None end.
Proof.
  induction a as [|c a IH]; intros d b; [reflexivity|].
  cbn [List.app nesting]. destruct (N.eqb c (N_of_ascii "(")); [apply IH|].
  destruct (N.eqb c (N_of_ascii ")")); [|apply IH].
  destruct d; [reflexivity | apply IH].
Qed.

Lemma balanced_app a b : balanced a -> balanced b -> balanced (a ++ b).
Proof. intros Ha Hb d. rewrite nesting_app, Ha. apply Hb. Qed.

Lemma balanced_plain s :
  Forall (fun c => N.eqb c (N_of_ascii "(") = false
                   /\ N.eqb c (N_of_ascii ")") = false) s -> balanced s.
Proof.
  induction 1 as [|c s [H1 H2] _ IH]; intros d; [reflexivity|].
  cbn [nesting]. rewrite H1, H2. apply IH.
Qed.

Lemma balanced_name name :
  Forall (fun c => name_class c = true) name -> balanced name.
Proof.
  intros H. apply balanced_plain. eapply Forall_impl; [exact H|].
  intros c Hc. destruct (name_class_not_special c Hc) as (H1 & H2 & _).
  split; assumption.
Qed.

Lemma balanced_paren s :
  balanced s -> balanced (N_of_ascii "(" :: s ++ [N_of_ascii ")"]).
Proof.
  intros H d. cbn [nesting]. change (N.eqb (N_of_ascii "(") (N_of_ascii "(")) with true.
  cbv iota. rewrite nesting_app, H. reflexivity.
Qed.

(** *** Names do not touch *)

Lemma droppable_nil : droppable [].
Proof. intros rest _. reflexivity. Qed.

Lemma droppable_literal l : droppable (literal_lexemes l).
Proof.
  intros rest Hrest. unfold literal_lexemes. rewrite <- List.app_assoc.
  induction (fst l) as [|k IH]; [|exact IH].
  cbn [repeat List.app separated andb negb].
  destruct Hrest as [-> | (c & rest' & ->)]; [reflexivity|].
  cbn [separated is_name]. rewrite andb_false_r. reflexivity.
Qed.

Lemma droppable_join c parts :
  Forall droppable parts -> droppable (join [LOp c] parts).
Proof.
  induction 1 as [|p ps Hp Hps IH]; [exact droppable_nil|].
  destruct ps as [|q qs]; [exact Hp|].
  rewrite join_cons. intros rest Hrest. rewrite <- !List.app_assoc.
  rewrite Hp by (right; eexists _, _; reflexivity).
  cbn [List.app separated is_name andb negb]. apply IH. exact Hrest.
Qed.

Lemma expression_separated e : separated false (expression_lexemes e) = true.
Proof.
  assert (H : droppable (expression_lexemes e)).
  { apply droppable_join, Forall_map_in. intros t _.
    apply droppable_join, Forall_map_in. intros l _. apply droppable_literal. }
  rewrite <- (List.app_nil_r (expression_lexemes e)).
  rewrite (H [] (or_introl eq_refl)). reflexivity.
Qed.

(** *** Trees *)

Lemma node_is_no_token tok x : is_node x = true -> is_token tok x = false.
Proof. destruct x; [discriminate | reflexivity]. Qed.

Lemma well_formed_fold (node : obj -> obj -> obj) ys : forall x,
  (forall l r, well_formed l = true -> well_formed r = true ->
               well_formed (node l r) = true) ->
  well_formed x = true -> Forall (fun y => well_formed y = true) ys ->
  well_formed (fold_left node ys x) = true.
Proof.
  induction ys as [|y ys IH]; intros x Hn Hx Hys; [exact Hx|].
  cbn [fold_left]. apply IH; [exact Hn | | exact (Forall_inv_tail Hys)].
  apply Hn; [exact Hx | exact (Forall_inv Hys)].
Qed.

Lemma well_formed_chain (node : obj -> obj -> obj) xs :
  (forall l r, well_formed l = true -> well_formed r = true ->
               well_formed (node l r) = true) ->
  xs <> [] -> Forall (fun y => well_formed y = true) xs ->
  well_formed (chain node xs) = true.
Proof.
  destruct xs as [|x xs]; [intros _ []; reflexivity|]. intros Hn _ Hxs.
  apply well_formed_fold;
    [exact Hn | exact (Forall_inv Hxs) | exact (Forall_inv_tail Hxs)].
Qed.

Lemma well_formed_and l r :
  well_formed l = true -> well_formed r = true ->
  well_formed (and_node l r) = true.
Proof. intros Hl Hr. cbn. rewrite Hl, Hr. reflexivity. Qed.

Lemma well_formed_or l r :
  well_formed l = true -> well_formed r = true ->
  well_formed (or_node l r) = true.
Proof. intros Hl Hr. cbn. rewrite Hl, Hr. reflexivity. Qed.

Lemma well_formed_literal l :
  well_formed (tree_atom (snd l)) = true ->
  well_formed (tree_literal tree_atom l) = true.
Proof.
  intros H. unfold tree_literal. destruct (Nat.odd (fst l)); [|exact H].
  cbn. rewrite H. reflexivity.
Qed.

Section OneLevel.
Variable parse : str -> result obj.
Variable e : list (list (nat * atom)).
Hypothesis Hatoms : every_atom (atom_ready parse) e.

Lemma atom_well_formed a : atom_ready parse a -> well_formed (tree_atom a) = true.
Proof. destruct a as [name|e']; [reflexivity|]. intros (_ & H & _). exact H. Qed.

Lemma atom_balanced a : atom_ready parse a -> balanced (show_atom a).
Proof.
  destruct a as [name|e']; cbn [atom_ready show_atom].
  - intros [_ H]. apply balanced_name, H.
  - intros (H & _ & _). apply balanced_paren, H.
Qed.

Lemma atom_lexeme_ok a : atom_ready parse a -> lexeme_ok parse (atom_lexeme a).
Proof.
  destruct a as [name|e']; cbn [atom_ready atom_lexeme lexeme_ok].
  - intros H. exact H.
  - intros (H & _ & Hp). split; [apply H | exact Hp].
Qed.

Lemma conjunction_well_formed t :
  In t e -> well_formed (tree_conjunction tree_atom t) = true.
Proof.
  intros Ht. destruct Hatoms as [_ Ha]. destruct (Ha t Ht) as [Hne Hl].
  apply well_formed_chain; [exact well_formed_and | apply map_nonempty, Hne |].
  apply Forall_map_in. intros l Hin.
  apply well_formed_literal, atom_well_formed, Hl, Hin.
Qed.

Lemma expression_well_formed : well_formed (tree e) = true.
Proof.
  destruct Hatoms as [Hne _].
  apply well_formed_chain; [exact well_formed_or | apply map_nonempty, Hne |].
  apply Forall_map_in. intros t Ht. apply conjunction_well_formed, Ht.
Qed.

Lemma expression_balanced : balanced (show e).
Proof.
  destruct Hatoms as [Hne Ha]. unfold show, show_expression.
  apply (join_closed balanced);
    [exact balanced_app | intros d; reflexivity | | apply map_nonempty, Hne].
  apply Forall_map_in. intros t Ht. destruct (Ha t Ht) as [Hnt Hl].
  unfold show_conjunction.
  apply (join_closed balanced);
    [exact balanced_app | intros d; reflexivity | | apply map_nonempty, Hnt].
  apply Forall_map_in. intros l Hin. unfold show_literal.
  apply balanced_app; [|apply atom_balanced, Hl, Hin].
  apply balanced_plain, List.Forall_forall. intros c Hc.
  apply List.repeat_spec in Hc. subst c. split; reflexivity.
Qed.

Lemma expression_lexemes_ok : Forall (lexeme_ok parse) (expression_lexemes e).
Proof.
  destruct Hatoms as [Hne Ha].
  apply (join_closed (Forall (lexeme_ok parse)));
    [intros a b; apply Forall_app_2 | | | apply map_nonempty, Hne].
  { apply Forall_singleton. vm_compute. auto. }
  apply Forall_map_in. intros t Ht. destruct (Ha t Ht) as [Hnt Hl].
  apply (join_closed (Forall (lexeme_ok parse)));
    [intros a b; apply Forall_app_2 | | | apply map_nonempty, Hnt].
  { apply Forall_singleton. vm_compute. auto. }
  apply Forall_map_in. intros l Hin. unfold literal_lexemes.
  apply Forall_app_2.
  - apply List.Forall_forall. intros u Hu. apply List.repeat_spec in Hu. subst u.
    vm_compute. auto.
  - apply Forall_singleton, atom_lexeme_ok, Hl, Hin.
Qed.

Lemma expression_not_reduces :
  not_reduces (List.map lexeme_item (expression_lexemes e))
    (join [Str [N_of_ascii "|"]]
       (List.map (fun t => join [Str [N_of_ascii "&"]]
                             (List.map (fun l => [tree_literal tree_atom l]) t))
          e)).
Proof.
  destruct Hatoms as [Hne Ha].
  apply (join_related (fun us out => not_reduces (List.map lexeme_item us) out)).
  - intros a b a' b' H1 H2. rewrite List.map_app. apply not_reduces_app; assumption.
  - apply not_reduces_token. reflexivity.
  - apply Forall2_map_same. intros t Ht. destruct (Ha t Ht) as [Hnt Hl].
    apply (join_related (fun us out => not_reduces (List.map lexeme_item us) out)).
    + intros a b a' b' H1 H2. rewrite List.map_app. apply not_reduces_app; assumption.
    + apply not_reduces_token. reflexivity.
    + apply Forall2_map_same. intros l Hin. unfold literal_lexemes, tree_literal.
      rewrite List.map_app. cbn [List.map]. rewrite lexeme_item_atom.
      assert (Hr : forall k, List.map lexeme_item (repeat (LOp (N_of_ascii "!")) k)
                             = repeat (Str [N_of_ascii "!"]) k).
      { induction k as [|k IH]; [reflexivity|]. cbn [repeat List.map].
        rewrite IH. reflexivity. }
      rewrite Hr. apply not_reduces_literal, node_is_no_token,
        well_formed_is_node, atom_well_formed, Hl, Hin.
    + apply map_nonempty, Hnt.
  - apply map_nonempty, Hne.
Qed.

Lemma expression_and_reduces :
  binary_reduces "&" AND "No left side of AND statement"
    (join [Str [N_of_ascii "|"]]
       (List.map (fun t => join [Str [N_of_ascii "&"]]
                             (List.map (fun l => [tree_literal tree_atom l]) t))
          e))
    (join [Str [N_of_ascii "|"]]
       (List.map (fun t => [tree_conjunction tree_atom t]) e)).
Proof.
  destruct Hatoms as [Hne Ha].
  apply (join_related (binary_reduces "&" AND "No left side of AND statement")).
  - apply binary_reduces_app.
  - apply binary_reduces_other. reflexivity.
  - apply Forall2_map_same. intros t Ht. destruct (Ha t Ht) as [Hnt Hl].
    rewrite <- (List.map_map (tree_literal tree_atom) (fun y => [y])).
    apply (binary_reduces_chain "&" AND); [apply map_nonempty, Hnt|].
    apply Forall_map_in. intros l Hin.
    apply node_is_no_token, well_formed_is_node, well_formed_literal,
      atom_well_formed, Hl, Hin.
  - apply map_nonempty, Hne.
Qed.

Lemma expression_or_reduces :
  binary_reduces "|" OR "No left side of OR statement"
    (join [Str [N_of_ascii "|"]]
       (List.map (fun t => [tree_conjunction tree_atom t]) e))
    [tree e].
Proof.
  destruct Hatoms as [Hne Ha].
  rewrite <- (List.map_map (tree_conjunction tree_atom) (fun y => [y])).
  apply (binary_reduces_chain "|" OR); [apply map_nonempty, Hne|].
  apply Forall_map_in. intros t Ht.
  apply node_is_no_token, well_formed_is_node, conjunction_well_formed, Ht.
Qed.

Lemma show_nonempty : (0 < length (show e))%nat.
Proof.
  destruct Hatoms as [Hne Ha]. destruct e as [|t e']; [contradiction|].
  destruct (Ha t (or_introl eq_refl)) as [Hnt Hl].
  destruct t as [|l t']; [contradiction|].
  pose proof (show_atom_in_expression (( l :: t') :: e') (l :: t') l
                (or_introl eq_refl) (or_introl eq_refl)) as H.
  specialize (Hl l (or_introl eq_refl)).
  destruct (snd l) as [name|e'']; cbn [atom_ready show_atom] in *.
  - destruct Hl as [Hn _]. destruct name; [contradiction|].
    cbn [length] in H. lia.
  - cbn [length] in H. lia.
Qed.

(** The reductions of [parse_string] on the items of an expression. *)
Lemma parse_body_items verifier st :
  (0 < length verifier <= 80)%nat ->
  scan_loop parse verifier 0 verifier (mkScan None None 0 0 []) = Ok (Next st) ->
  match last_name_index st with
  | Some n =>
      if re_match VAR_CHARACTER [List.last verifier 0%N]
      then top_level_parenthesized st
           ++ [var_node (slice verifier n (length verifier))]
      else top_level_parenthesized st
  | None => top_level_parenthesized st
  end = List.map lexeme_item (expression_lexemes e) ->
  parse_body parse verifier = Ok (tree e).
Proof.
  intros Hlen Hscan Hitems. unfold parse_body.
  destruct (Nat.eqb_spec (length verifier) 0) as [E|_]; [lia|].
  destruct (Nat.ltb_spec 80 (length verifier)) as [E|_]; [lia|].
  rewrite Hscan. cbn [mbind result_bind]. cbv zeta. rewrite Hitems.
  rewrite <- (List.app_nil_r (List.map lexeme_item _)).
  rewrite (proj1 (expression_not_reduces [] true [])).
  cbn [not_pass List.app negb]. cbv iota.
  unfold and_pass. rewrite <- (List.app_nil_r (join _ _)).
  rewrite expression_and_reduces. cbn [binary_pass List.app].
  unfold or_pass. rewrite <- (List.app_nil_r (join _ _)).
  rewrite expression_or_reduces. cbn [binary_pass List.app length].
  reflexivity.
Qed.

(** One call of [parse_string] on the text of an expression whose
    parenthesised parts the nested calls parse. *)
Lemma parse_body_expression :
  (length (show e) <= 80)%nat -> parse_body parse (show e) = Ok (tree e).
Proof.
  intros Hlen. pose proof show_nonempty as Hpos.
  destruct (top_level_items parse (show e) (expression_lexemes e))
    as (st & Hscan & Hitems).
  { symmetry. apply expression_text. }
  { apply expression_lexemes_ok. }
  { apply expression_separated. }
  apply (parse_body_items _ st); [lia | exact Hscan | exact Hitems].
Qed.

(** The same with a parenthesis behind the expression that is never
    closed. *)
Lemma parse_body_unclosed inner d :
  nesting 0 inner = Some d ->
  (length (show e ++ N_of_ascii "(" :: inner) <= 80)%nat ->
  parse_body parse (show e ++ N_of_ascii "(" :: inner) = Ok (tree e).
Proof.
  intros Hd Hlen.
  destruct (top_level_items_unclosed parse (show e ++ N_of_ascii "(" :: inner)
              (expression_lexemes e) inner d)
    as (st & Hscan & Hitems).
  { rewrite expression_text. reflexivity. }
  { exact Hd. }
  { apply expression_lexemes_ok. }
  { apply expression_separated. }
  apply (parse_body_items _ st); [|exact Hscan | exact Hitems].
  rewrite length_app in *. cbn [length] in *. lia.
Qed.
End OneLevel.

(** *** The recursion *)

Lemma valid_expression_atoms e :
  valid_expression e = true -> every_atom (fun a => valid_atom a = true) e.
Proof.
  unfold valid_expression. cbn [valid_atom]. intros H.
  apply andb_true_iff in H as [Hne H]. split.
  - intros ->. discriminate.
  - intros t Ht. rewrite List.forallb_forall in H. specialize (H t Ht).
    apply andb_true_iff in H as [Hnt H]. split.
    + intros ->. discriminate.
    + intros l Hl. rewrite List.forallb_forall in H. exact (H l Hl).
Qed.

Lemma atoms_ready parse e :
  valid_expression e = true ->
  (forall e', (length (show e') + 2 <= length (show e))%nat ->
              valid_expression e' = true ->
              balanced (show e') /\ well_formed (tree e') = true
              /\ parse (show e') = Ok (tree e')) ->
  every_atom (atom_ready parse) e.
Proof.
  intros Hvalid Hsub.
  pose proof (valid_expression_atoms e Hvalid) as [Hne Hat].
  split; [exact Hne|]. intros t Ht.
  destruct (Hat t Ht) as [Hnt Hl]. split; [exact Hnt|]. intros l Hin.
  specialize (Hl l Hin).
  pose proof (show_paren_in_expression e t l) as Hsize.
  destruct (snd l) as [name|e']; cbn [atom_ready].
  - cbn [valid_atom] in Hl. apply andb_true_iff in Hl as [H1 H2]. split.
    + intros ->. discriminate.
    + apply List.Forall_forall. intros c Hc.
      rewrite List.forallb_forall in H2. apply H2, Hc.
  - apply Hsub; [exact (Hsize e' Ht Hin eq_refl) | exact Hl].
Qed.

Lemma parse_string_depth_expression n : forall e,
  (length (show e) <= n)%nat -> valid_expression e = true ->
  (length (show e) <= 80)%nat ->
  balanced (show e) /\ well_formed (tree e) = true
  /\ forall depth, (length (show e) < depth)%nat ->
       parse_string_depth depth (show e) = Ok (tree e).
Proof.
  induction n as [n IH] using lt_wf_ind. intros e Hn Hvalid Hlen.
  assert (Hready : forall depth, (length (show e) <= depth)%nat ->
            every_atom (atom_ready (parse_string_depth depth)) e).
  { intros depth Hd. apply atoms_ready; [exact Hvalid|]. intros e' Hsize Hv'.
    destruct (IH (length (show e')) ltac:(lia) e' ltac:(lia) Hv' ltac:(lia))
      as (Hb & Hw & Hp).
    split; [exact Hb|]. split; [exact Hw|]. apply Hp. lia. }
  split; [|split].
  - exact (expression_balanced _ e (Hready _ (Nat.le_refl _))).
  - exact (expression_well_formed _ e (Hready _ (Nat.le_refl _))).
  - intros [|depth] Hd; [lia|]. cbn [parse_string_depth].
    apply parse_body_expression; [apply Hready; lia | exact Hlen].
Qed.

Lemma expression_ready e depth :
  valid_expression e = true -> (length (show e) <= 80)%nat ->
  (length (show e) <= depth)%nat ->
  every_atom (atom_ready (parse_string_depth depth)) e.
Proof.
  intros Hvalid Hlen Hd. apply atoms_ready; [exact Hvalid|].
  intros e' Hsize Hv'.
  destruct (parse_string_depth_expression (length (show e')) e'
              (Nat.le_refl _) Hv' ltac:(lia)) as (Hb & Hw & Hp).
  split; [exact Hb|]. split; [exact Hw|]. apply Hp. lia.
Qed.

(** X20: [parse_string] reads the grammar in which [!] binds tighter
    than [&] and [&] tighter than [|], both operators group to the left,
    parentheses nest and an even number of [!] cancels: the text of such
    an expression, of at most 80 characters, gives the tree of the
    expression, which is well formed; [parse_verifier_string] gives the
    same tree for a text that is this one once blanks and [#] are
    removed. *)
Theorem parse_string_grammar (e : list (list (nat * atom))) :
  valid_expression e = true -> (length (show e) <= 80)%nat ->
  parse_string (show e) = Ok (tree e)
  /\ well_formed (tree e) = true
  /\ forall verifier,
       compress_verifier_string verifier = show e ->
       parse_verifier_string verifier = Ok (tree e).
Proof.
  intros Hvalid Hlen.
  destruct (parse_string_depth_expression (length (show e)) e
              (Nat.le_refl _) Hvalid Hlen) as (_ & Hw & Hp).
  assert (H : parse_string (show e) = Ok (tree e))
    by (apply Hp; lia).
  split; [exact H|]. split; [exact Hw|].
  intros verifier Hv. unfold parse_verifier_string. rewrite Hv. exact H.
Qed.

Lemma parse_string_grammar_witness :
  show [[(1%nat, AVar (str_of "A"));
         (0%nat, AParen [[(2%nat, AVar (str_of "B_1"))];
                         [(0%nat, AVar (str_of "C"))]])];
        [(3%nat, AVar (str_of "D.E"))]]
  = str_of "!A&(!!B_1|C)|!!!D.E"
  /\ parse_verifier_string (str_of "!#A & (!!#B_1 | #C) | !!!#D.E")
     = Ok (or_node
             (and_node (not_node (var_node (str_of "A")))
                (or_node (var_node (str_of "B_1")) (var_node (str_of "C"))))
             (not_node (var_node (str_of "D.E")))).
Proof.
  split; [reflexivity|].
  apply (parse_string_grammar
           [[(1%nat, AVar (str_of "A"));
             (0%nat, AParen [[(2%nat, AVar (str_of "B_1"))];
                             [(0%nat, AVar (str_of "C"))]])];
            [(3%nat, AVar (str_of "D.E"))]]);
    [reflexivity | vm_compute; lia | reflexivity].
Defined.

(** X21: a parenthesis that is opened behind an expression and never
    closed is not reported: [parse_string] gives the tree of the
    expression in front of it and drops the parenthesis with all that
    follows it. *)
Theorem unclosed_parenthesis_is_dropped (e : list (list (nat * atom)))
  (inner : str) (d : nat) :
  valid_expression e = true -> nesting 0 inner = Some d ->
  (length (show e ++ N_of_ascii "(" :: inner) <= 80)%nat ->
  parse_string (show e ++ N_of_ascii "(" :: inner) = Ok (tree e).
Proof.
  intros Hvalid Hd Hlen. unfold parse_string. cbn [parse_string_depth].
  assert (Hl : (length (show e) <= length (show e ++ N_of_ascii "(" :: inner))%nat)
    by (rewrite length_app; lia).
  apply (parse_body_unclosed _ e) with (d := d); [|exact Hd | exact Hlen].
  apply expression_ready; [exact Hvalid | lia | exact Hl].
Qed.

Lemma unclosed_parenthesis_is_dropped_witness :
  parse_string (str_of "A|B(C&&!") = parse_string (str_of "A|B").
Proof.
  change (str_of "A|B(C&&!")
    with (show [[(0%nat, AVar (str_of "A"))]; [(0%nat, AVar (str_of "B"))]]
          ++ N_of_ascii "(" :: str_of "C&&!").
  rewrite (unclosed_parenthesis_is_dropped
             [[(0%nat, AVar (str_of "A"))]; [(0%nat, AVar (str_of "B"))]]
             (str_of "C&&!") 0%nat);
    [reflexivity | reflexivity | reflexivity | vm_compute; lia].
Defined.

(** X22: a text that starts with a parenthesis that is never closed makes
    [parse_string] raise IndexError: no item is found at the top level
    and the last line takes the first item of an empty list. *)
Theorem lone_unclosed_parenthesis_raises (inner : str) (d : nat) :
  nesting 0 inner = Some d -> (length inner < 80)%nat ->
  parse_string (N_of_ascii "(" :: inner) = Raise IndexError.
Proof.
  intros Hd Hlen. unfold parse_string. cbn [parse_string_depth].
  set (verifier := N_of_ascii "(" :: inner).
  set (parse := parse_string_depth (length verifier)).
  destruct (top_level_items_unclosed parse verifier [] inner d)
    as (st & Hscan & Hitems);
    [reflexivity | exact Hd | constructor | reflexivity |].
  unfold parse_body.
  destruct (Nat.eqb_spec (length verifier) 0) as [E|_]; [discriminate|].
  destruct (Nat.ltb_spec 80 (length verifier)) as [E|_].
  { unfold verifier in E. cbn [length] in E. lia. }
  rewrite Hscan. cbn [mbind result_bind]. cbv zeta. rewrite Hitems.
  reflexivity.
Qed.

Lemma lone_unclosed_parenthesis_raises_witness :
  parse_string (str_of "(A&B") = Raise IndexError.
Proof.
  apply (lone_unclosed_parenthesis_raises (str_of "A&B") 0%nat);
    [reflexivity | vm_compute; lia].
Defined.

(** ** The size of a transfer and scripts without the marker *)

Lemma length_transfer_portion asset amount :
  (length asset <= 200)%nat ->
  let payload := transfer_payload asset amount [] in
  length ([xc0] ++ push_prefix (Z.of_nat (length payload)) ++ payload ++ [x75])
  = (length asset + if (length asset <=? 62)%nat then 16 else 17)%nat.
Proof.
  intros Hlen payload.
  assert (Hp : length payload = (13 + length asset)%nat).
  { unfold payload, transfer_payload. rewrite !length_app.
    rewrite length_ascii_bytes, length_int_to_bytes_little.
    change (length RVN_ASSET_PREFIX) with 3%nat.
    change (length RVN_ASSET_TYPE_TRANSFER) with 1%nat. cbn [length]. lia. }
  rewrite !length_app, Hp. unfold push_prefix.
  change opcodes.OP_PUSHDATA1 with 76.
  destruct (Nat.leb_spec (length asset) 62);
    destruct (Z.ltb_spec (Z.of_nat (13 + length asset)) 76);
    cbn [length]; lia.
Qed.

(** X23: for a name of ASCII characters, [extra_size_for_asset_transfer]
    is the length of the name plus 16 (plus 17 for a name of more than 62
    characters), and that is exactly the number of bytes by which
    [generate_transfer_script_from_base] lengthens the base script,
    whatever the amount. *)
Theorem extra_size_is_script_growth (asset : str) (amount : Z) (base : bytes) :
  Forall is_ascii asset -> (length asset <= 200)%nat ->
  - 2 ^ 63 <= amount < 2 ^ 64 ->
  let extra := len asset + (if len asset <=? 62 then 16 else 17) in
  extra_size_for_asset_transfer asset = Ok extra
  /\ exists script b,
       generate_transfer_script_from_base asset amount (hex base) = Ok script
       /\ fromhex script = Ok b
       /\ Z.of_nat (length b) = Z.of_nat (length base) + extra.
Proof.
  intros Hascii Hlen Hamount extra.
  assert (Hextra : extra
                   = Z.of_nat (length asset
                               + if (length asset <=? 62)%nat then 16 else 17)).
  { unfold extra, len.
    destruct (Nat.leb_spec (length asset) 62);
      destruct (Z.leb_spec (Z.of_nat (length asset)) 62); lia. }
  split.
  - unfold extra_size_for_asset_transfer.
    rewrite (asset_portion_of_transfer_script_bytes asset 0 None Hascii Hlen)
      by (cbn; lia || exact I).
    cbn [mbind result_bind mret result_ret memo_wire]. f_equal.
    unfold len. rewrite length_hex.
    change (0 mod 2 ^ 64) with 0.
    rewrite (length_transfer_portion asset 0 Hlen), Hextra.
    rewrite Nat2Z.inj_mul. change (Z.of_nat 2) with 2.
    rewrite Z.mul_comm, Z.div_mul by lia. reflexivity.
  - unfold generate_transfer_script_from_base.
    rewrite (asset_portion_of_transfer_script_bytes asset amount None
               Hascii Hlen Hamount I).
    cbn [mbind result_bind mret result_ret memo_wire].
    eexists _, _. split; [reflexivity|]. rewrite <- hex_app. split.
    + apply fromhex_hex.
    + rewrite length_app, (length_transfer_portion asset _ Hlen), Hextra. lia.
Qed.

Lemma extra_size_is_script_growth_witness :
  extra_size_for_asset_transfer (str_of "RAVEN/SUB") = Ok 25
  /\ exists script b,
       generate_transfer_script_from_base (str_of "RAVEN/SUB") 100000000
         (hex (p2pkh_script (repeat x00 20))) = Ok script
       /\ fromhex script = Ok b
       /\ Z.of_nat (length b) = 25 + 25.
Proof.
  apply (extra_size_is_script_growth (str_of "RAVEN/SUB") 100000000
           (p2pkh_script (repeat x00 20)));
    [repeat constructor | vm_compute; lia | lia].
Defined.

(** X24: a script that disassembles and has the asset marker among none
    of its opcodes carries no asset: the decoder returns the no-asset
    object. *)
Theorem script_without_marker_has_no_asset (script : bytes)
  (decoded : list script_op) :
  script_GetOp script = Ok decoded ->
  Forall (fun o => op_of o <> opcodes.OP_ASSET) decoded ->
  get_asset_info_from_script script = Ok (Some NoAssetVoutInformation).
Proof.
  intros Hd Hops. unfold get_asset_info_from_script. rewrite Hd.
  rewrite <- (List.app_nil_r decoded) at 2.
  rewrite scan_skip by exact Hops. reflexivity.
Qed.

Lemma script_without_marker_has_no_asset_witness :
  get_asset_info_from_script (p2pkh_script (repeat x00 20))
  = Ok (Some NoAssetVoutInformation).
Proof.
  apply (script_without_marker_has_no_asset (p2pkh_script (repeat x00 20))
           [(118, None, 1%nat); (169, None, 2%nat);
            (20, Some (repeat x00 20), 23%nat); (136, None, 24%nat);
            (172, None, 25%nat)]);
    [reflexivity | repeat constructor; discriminate].
Defined.
